(** * Virelia marketplace: the subscription ledger and its lifecycle engine

    A shallow embedding of [services/subscriptionService.js] (class
    [SubscriptionService]), [services/expiryManager.js] (class
    [ExpiryManager]), the balance route of [routes/subscription.js] and the
    index declarations of [config/mongodb.js].

    Modelling conventions.
    - VV amounts are JavaScript numbers in the source; here they are exact
      rationals [Q] (the "decimal" of the data model).  Rounding of IEEE
      doubles is outside the model.
    - Instants ([Date]) are integers [Z]: milliseconds since the epoch.
    - A MongoDB collection is a finite map from [_id] to document
      ([gmap positive _], user documents are keyed by their Discord id, a
      string).  [find] enumerates the map, [findOne] returns the first
      document of that enumeration which matches.
    - [session.withTransaction] is all-or-nothing: the callback either
      returns the new state or an error, and on error the state it was
      started from is kept.
    - Calls into Discord (role removal, channel messages) are calls to an
      external collaborator.  The ledger sees only whether such a call
      returned or threw; an environment record gives that outcome, and the
      calls made are recorded in an event list.

    The second half of the development embeds further parts of the
    program: the profile view, the statistics, the list of upcoming
    expiries, the plan cache and the duration and warning texts of
    [SubscriptionService] and [ExpiryManager]; the queue and the chunking
    of [utils/discordLogger.js]; the connection state machine of
    [services/discordStatusManager.js]; the balance initialisation of
    [config/passport.js], [app.js] and the page routes; and the document
    written by [migration/migrateSubscriptions.js].
    - A text is a [string], or a list of code units where only its
      lengths and line feeds matter.
    - The status manager reacts to events: socket events, the socket
      changing its [readyState], timers firing, the gateway look-up being
      answered ([connect] is split at its [await]), and the public calls.
      [updateStatus] is taken as run to its end, with the count it reads
      given. *)

From Stdlib Require Import ZArith QArith Qminmax Qround Lqa Ascii String List.
From stdpp Require Import gmap strings list fin_maps pretty sorting.

Local Open Scope Z_scope.

(** ** Data model *)

Inductive Status := Active | Expired.

Definition is_active (s : Status) : bool :=
  match s with Active => true | Expired => false end.

Module Discount.
(** [plan.discount]: [{ type: "percent" | "fixed", value }] *)
Record t := mk { type : string; value : Q }.
End Discount.

Module Plan.
(** One entry of [plans/subscriptions.json]. *)
Record t := mk {
    id : string;
    title : string;
    role_id : string;
    price_vv : Q;
    days : Z;
    discount : option Discount.t
}.
End Plan.

Module User.
(** A document of the [users] collection; [vv_balance] may be missing. *)
Record t := mk {
    username : string;
    vv_balance : option Q;
    updated_at : option Z
}.
End User.

Module Sub.
(** A document of the [subscriptions] collection.  Fields that only some
    writers set are optional: documents written by the migration script
    carry neither [total_paid_vv] nor [renewal_count]. *)
Record t := mk {
    user_id : string;
    plan_id : string;
    title : string;
    role_id : option string;
    status : Status;
    created_at : Z;
    started_at : Z;
    expires_at : Z;
    updated_at : option Z;
    expired_at : option Z;
    duration_days : Z;
    original_price_vv : Q;
    paid_price_vv : Q;
    total_paid_vv : option Q;
    discount_applied : option Discount.t;
    renewal_count : option Z;
    last_renewed_at : option Z;
    last_renewal_plan_id : option string;
    last_renewal_amount : option Q;
    warning_sent : bool;
    warning_sent_at : option Z
}.
End Sub.

Inductive TxKind := KPurchase | KRenewal.

Module Txn.
(** A document of the [transactions] collection. *)
Record t := mk {
    user_id : string;
    subscription_id : positive;
    plan_id : string;
    plan_title : string;
    amount_vv : Q;
    final_price_vv : Q;
    discount_applied : option Discount.t;
    discount_amount : Q;
    transaction_type : TxKind;
    created_at : Z;
    idempotency_key : string;
    user_balance_before : Q;
    user_balance_after : Q;
    duration_days : Z
}.
End Txn.

(** The three collections the ledger owns. *)
Record State := mkState {
  users : gmap string User.t;
  subscriptions : gmap positive Sub.t;
  transactions : gmap positive Txn.t
}.

(** ** Pricing helpers *)

Record PriceInfo := mkPriceInfo {
  finalPrice : Q;
  originalPrice : Q;
  discountAmount : Q
}.

(** [SubscriptionService.calculateFinalPrice(plan, true)], without the
    three display strings. *)
Definition calculateFinalPriceInfo (plan : Plan.t) : PriceInfo :=
  match Plan.discount plan with
  | None =>
      let finalPrice := Plan.price_vv plan in
      mkPriceInfo finalPrice finalPrice 0%Q
  | Some d =>
      let originalPrice := Plan.price_vv plan in
      let finalPrice :=
        if String.eqb (Discount.type d) "percent" then
          (originalPrice * (1 - Discount.value d / 100))%Q
        else if String.eqb (Discount.type d) "fixed" then
          Qmax 0 (originalPrice - Discount.value d)
        else originalPrice in
      mkPriceInfo finalPrice originalPrice (originalPrice - finalPrice)%Q
  end.

(** [SubscriptionService.calculateFinalPrice(plan)] *)
Definition calculateFinalPrice (plan : Plan.t) : Q :=
  finalPrice (calculateFinalPriceInfo plan).

(** ** JavaScript idioms on optional numbers *)

(** [a || b] where [a] is a possibly missing number: [undefined] and [0]
    are falsy. *)
Definition js_or (a : option Q) (b : Q) : Q :=
  match a with
  | Some x => if Qeq_bool x 0 then b else x
  | None => b
  end.

(** [$inc: { field: d }]: a missing field is created with value [d]. *)
Definition inc_Q (o : option Q) (d : Q) : option Q :=
  match o with
  | Some x => Some (x + d)%Q
  | None => Some d
  end.

Definition inc_Z (o : option Z) (d : Z) : option Z :=
  match o with
  | Some x => Some (x + d)
  | None => Some d
  end.

(** [x < y] on numbers, as a boolean test. *)
Definition Qltb (x y : Q) : bool := negb (Qle_bool y x).

(** [24 * 60 * 60 * 1000] *)
Definition ms_per_day : Z := 24 * 60 * 60 * 1000.

(** ** Collections *)

(** [collection.find(q).toArray()] *)
Definition find_all {A} (q : A → bool) (c : gmap positive A)
  : list (positive * A) :=
  List.filter (λ kv, q kv.2) (map_to_list c).

(** [collection.findOne(q)] *)
Definition find_one {A} (q : A → bool) (c : gmap positive A)
  : option (positive * A) :=
  List.find (λ kv, q kv.2) (map_to_list c).

(** [collection.insertOne(doc)]: the driver picks an unused [_id]. *)
Definition insert_one {A} (doc : A) (c : gmap positive A)
  : positive * gmap positive A :=
  let i := fresh (dom c) in (i, <[i := doc]> c).

(** ** The purchase engine *)

Inductive PurchaseError :=
| PlanNotFound
| AlreadyProcessed
| UserNotFound
| InsufficientBalance (have need : Q)
| DuplicateKey.

Record PurchaseResult := mkResult {
  res_finalPrice : Q;
  res_subscription_id : positive;
  res_subscription : Sub.t;
  res_transaction_id : positive;
  res_transaction : Txn.t;
  res_isRenewal : bool;
  res_user : User.t
}.

(** [plans.find((p) => p.id === planId)] *)
Definition find_plan (plans : list Plan.t) (planId : string) : option Plan.t :=
  List.find (λ p, String.eqb (Plan.id p) planId) plans.

(** The query [{ idempotency_key: idempotencyKey }]. *)
Definition has_key (key : string) (t : Txn.t) : bool :=
  String.eqb (Txn.idempotency_key t) key.

(** The query [{ user_id, status: "active", expires_at: { $gt: now } }]. *)
Definition renewable (userId : string) (now : Z) (s : Sub.t) : bool :=
  String.eqb (Sub.user_id s) userId
  && is_active (Sub.status s)
  && (now <? Sub.expires_at s).

(** The document left in the collection by the renewal [updateOne]
    ([$set] of five fields, [$inc] of two). *)
Definition renew (plan : Plan.t) (price : Q) (now : Z) (s : Sub.t) : Sub.t :=
  Sub.mk (Sub.user_id s) (Sub.plan_id s) (Sub.title s) (Sub.role_id s)
    (Sub.status s) (Sub.created_at s) (Sub.started_at s)
    (Sub.expires_at s + Plan.days plan * ms_per_day)
    (Some now) (Sub.expired_at s) (Sub.duration_days s)
    (Sub.original_price_vv s) (Sub.paid_price_vv s)
    (inc_Q (Sub.total_paid_vv s) price)
    (Sub.discount_applied s)
    (inc_Z (Sub.renewal_count s) 1)
    (Some now) (Some (Plan.id plan)) (Some price)
    (Sub.warning_sent s) (Sub.warning_sent_at s).

(** The [subscriptionData] object handed back to the caller on renewal: a
    copy of the document read, with five fields recomputed locally. *)
Definition renewed_view (plan : Plan.t) (price : Q) (now : Z) (s : Sub.t)
  : Sub.t :=
  Sub.mk (Sub.user_id s) (Sub.plan_id s) (Sub.title s) (Sub.role_id s)
    (Sub.status s) (Sub.created_at s) (Sub.started_at s)
    (Sub.expires_at s + Plan.days plan * ms_per_day)
    (Some now) (Sub.expired_at s) (Sub.duration_days s)
    (Sub.original_price_vv s) (Sub.paid_price_vv s)
    (Some (js_or (Sub.total_paid_vv s) (js_or (Some (Sub.paid_price_vv s)) 0)
           + price)%Q)
    (Sub.discount_applied s)
    (Some (default 0 (Sub.renewal_count s) + 1))
    (Some now) (Sub.last_renewal_plan_id s) (Sub.last_renewal_amount s)
    (Sub.warning_sent s) (Sub.warning_sent_at s).

(** The document inserted for a first purchase. *)
Definition new_subscription (userId : string) (plan : Plan.t) (price : Q)
    (now : Z) : Sub.t :=
  Sub.mk userId (Plan.id plan) (Plan.title plan) (Some (Plan.role_id plan))
    Active now now (now + Plan.days plan * ms_per_day)
    (Some now) None (Plan.days plan)
    (Plan.price_vv plan) price (Some price)
    (Plan.discount plan)
    (Some 0)
    None None None
    false None.

(** [$set: { vv_balance: newBalance, updated_at: now }] *)
Definition set_balance (newBalance : Q) (now : Z) (u : User.t) : User.t :=
  User.mk (User.username u) (Some newBalance) (Some now).

(** [transactions.insertOne(doc)] under the unique index on
    [idempotency_key] declared in [config/mongodb.js]: the insert is
    refused when a document with the same key is stored. *)
Definition insert_transaction (doc : Txn.t) (txs : gmap positive Txn.t)
  : option (positive * gmap positive Txn.t) :=
  match find_one (has_key (Txn.idempotency_key doc)) txs with
  | Some _ => None
  | None => Some (insert_one doc txs)
  end.

(** The callback given to [session.withTransaction]: everything between
    the user lookup and the construction of [result].  An error aborts the
    transaction, so no state comes back with it. *)
Definition purchase_txn (now : Z) (userId : string) (plan : Plan.t)
    (price : Q) (key : string) (st : State)
  : PurchaseError + (PurchaseResult * State) :=
  match users st !! userId with
  | None => inl UserNotFound
  | Some user =>
      let userBalance := js_or (User.vv_balance user) 0 in
      if Qltb userBalance price then
        inl (InsufficientBalance userBalance price)
      else
        let '(isRenewal, sid, subscriptionData, subs') :=
          match find_one (renewable userId now) (subscriptions st) with
          | Some (sid, existing) =>
              (true, sid, renewed_view plan price now existing,
               alter (renew plan price now) sid (subscriptions st))
          | None =>
              let doc := new_subscription userId plan price now in
              let '(sid, subs') := insert_one doc (subscriptions st) in
              (false, sid, doc, subs')
          end in
        let newBalance := (userBalance - price)%Q in
        let users' := alter (set_balance newBalance now) userId (users st) in
        let transactionData :=
          Txn.mk userId sid (Plan.id plan) (Plan.title plan)
            (Plan.price_vv plan) price (Plan.discount plan)
            (Plan.price_vv plan - price)%Q
            (if isRenewal then KRenewal else KPurchase)
            now key userBalance newBalance (Plan.days plan) in
        match insert_transaction transactionData (transactions st) with
        | None => inl DuplicateKey
        | Some (tid, txs') =>
            inr (mkResult price sid subscriptionData tid transactionData
                   isRenewal user,
                 mkState users' subs' txs')
        end
  end.

(** The part of [purchaseSubscription] that runs before the session is
    opened: plan lookup, price, and the duplicate check on the
    transaction log. *)
Definition purchase_prepare (plans : list Plan.t) (planId key : string)
    (st : State) : PurchaseError + (Plan.t * Q) :=
  match find_plan plans planId with
  | None => inl PlanNotFound
  | Some plan =>
      let price := calculateFinalPrice plan in
      match find_one (has_key key) (transactions st) with
      | Some _ => inl AlreadyProcessed
      | None => inr (plan, price)
      end
  end.

(** [session.withTransaction(callback)]: the callback's writes are kept
    when it returns and dropped when it throws. *)
Definition purchase_commit (now : Z) (userId : string) (plan : Plan.t)
    (price : Q) (key : string) (st : State)
  : (PurchaseError + PurchaseResult) * State :=
  match purchase_txn now userId plan price key st with
  | inl e => (inl e, st)
  | inr (r, st') => (inr r, st')
  end.

(** [SubscriptionService.purchaseSubscription(userId, planId,
    idempotencyKey)] run without interference, at instant [now]: the
    state read by the duplicate check is the state the transaction
    starts from. *)
Definition purchaseSubscription (plans : list Plan.t) (now : Z)
    (userId planId key : string) (st : State)
  : (PurchaseError + PurchaseResult) * State :=
  match purchase_prepare plans planId key st with
  | inl e => (inl e, st)
  | inr (plan, price) => purchase_commit now userId plan price key st
  end.

(** The deferred clean-up of [sendTransactionChannelMessage]:
    [transactions.deleteOne({ _id: transaction._id })], five seconds after
    the transaction message was sent. *)
Definition cleanup_transaction (tid : positive) (st : State) : State :=
  mkState (users st) (subscriptions st) (delete tid (transactions st)).

(** ** Administrative balance adjustment *)

Inductive AdminError := AdminUserNotFound | InvalidOperation.

(** [POST /admin/users/:userId/balance], past the access check and the
    parsing of [amount]: [amount] is the parsed number. *)
Definition adjust_balance (now : Z) (userId : string) (amount : Q)
    (operation : string) (st : State) : AdminError + State :=
  match users st !! userId with
  | None => inl AdminUserNotFound
  | Some user =>
      let currentBalance := js_or (User.vv_balance user) 0 in
      let newBalance :=
        if String.eqb operation "set" then Some amount
        else if String.eqb operation "add" then
          Some (currentBalance + amount)%Q
        else if String.eqb operation "subtract" then
          Some (Qmax 0 (currentBalance - amount))
        else None in
      match newBalance with
      | None => inl InvalidOperation
      | Some b =>
          inr (mkState (alter (set_balance b now) userId (users st))
                 (subscriptions st) (transactions st))
      end
  end.

(** ** The expiry manager *)

(** How a call into the notification sink ended, as its caller sees it. *)
Inductive Outcome := Returned | Threw.

(** What one run cannot decide by itself: the time zone of the process,
    the Discord configuration, how each external call ends, and whether
    the store refuses the [updateOne] that marks a given subscription
    expired, or the one that marks it warned. *)
Record Env := mkEnv {
  tz_offset : Z;
  discord_configured : bool;
  status_manager : bool;
  remove_role : string → string → Outcome;
  notify_expired : positive → Outcome;
  notify_warning : positive → Outcome;
  expire_update_fails : positive → bool;
  warn_update_fails : positive → bool
}.

(** The calls a run makes to the notification sink, in order. *)
Inductive Event :=
| RoleRevoke (userId roleId : string) (o : Outcome)
| ExpiredNotice (sid : positive) (o : Outcome)
| WarningNotice (sid : positive) (o : Outcome)
| PresenceRefresh.

(** State of a sweep loop: the collection, the calls made so far and the
    counter the loop returns. *)
Record Run := mkRun {
  run_subs : gmap positive Sub.t;
  run_events : list Event;
  run_count : nat
}.

Definition start_run (subs : gmap positive Sub.t) : Run := mkRun subs [] 0%nat.

(** [for (const subscription of list) { try { body; count++ } catch { log } }]:
    a body reports whether it completed, the collection it leaves and the
    calls it made. *)
Definition for_each_isolated
    (body : positive * Sub.t → gmap positive Sub.t →
            bool * gmap positive Sub.t * list Event)
    (items : list (positive * Sub.t)) (r : Run) : Run :=
  fold_left
    (λ r item,
       let '(ok, subs', evs) := body item (run_subs r) in
       mkRun subs' (run_events r ++ evs)
         (if ok then S (run_count r) else run_count r))
    items r.

(** [$set: { status: "expired", expired_at: now, updated_at: now }] *)
Definition mark_expired (now : Z) (s : Sub.t) : Sub.t :=
  Sub.mk (Sub.user_id s) (Sub.plan_id s) (Sub.title s) (Sub.role_id s)
    Expired (Sub.created_at s) (Sub.started_at s) (Sub.expires_at s)
    (Some now) (Some now) (Sub.duration_days s)
    (Sub.original_price_vv s) (Sub.paid_price_vv s) (Sub.total_paid_vv s)
    (Sub.discount_applied s) (Sub.renewal_count s)
    (Sub.last_renewed_at s) (Sub.last_renewal_plan_id s)
    (Sub.last_renewal_amount s)
    (Sub.warning_sent s) (Sub.warning_sent_at s).

(** [$set: { warning_sent: true, warning_sent_at: now, updated_at: now }] *)
Definition mark_warned (now : Z) (s : Sub.t) : Sub.t :=
  Sub.mk (Sub.user_id s) (Sub.plan_id s) (Sub.title s) (Sub.role_id s)
    (Sub.status s) (Sub.created_at s) (Sub.started_at s) (Sub.expires_at s)
    (Some now) (Sub.expired_at s) (Sub.duration_days s)
    (Sub.original_price_vv s) (Sub.paid_price_vv s) (Sub.total_paid_vv s)
    (Sub.discount_applied s) (Sub.renewal_count s)
    (Sub.last_renewed_at s) (Sub.last_renewal_plan_id s)
    (Sub.last_renewal_amount s)
    true (Some now).

(** [todayStart]: local midnight of the day of [now]. *)
Definition today_start (env : Env) (now : Z) : Z :=
  now - (now + tz_offset env) mod ms_per_day.

(** [tomorrow]: 23:59:59.999 local time of the day after [now]. *)
Definition tomorrow_end (env : Env) (now : Z) : Z :=
  today_start env now + 2 * ms_per_day - 1.

(** The query of [sendExpiryWarnings]. *)
Definition warning_query (env : Env) (now : Z) (s : Sub.t) : bool :=
  is_active (Sub.status s)
  && (today_start env now <=? Sub.expires_at s)
  && (Sub.expires_at s <=? tomorrow_end env now)
  && negb (Sub.warning_sent s).

(** The query of [handleExpiredSubscriptions] and the first query of
    [runRecoveryCheck]. *)
Definition expired_query (now : Z) (s : Sub.t) : bool :=
  is_active (Sub.status s) && (Sub.expires_at s <? now).

(** The second query of [runRecoveryCheck]. *)
Definition missed_warning_query (now : Z) (s : Sub.t) : bool :=
  is_active (Sub.status s)
  && (Sub.expires_at s <? now + ms_per_day)
  && (now <? Sub.expires_at s)
  && negb (Sub.warning_sent s).

(** The loop body of both warning loops: notify, then mark. *)
Definition warn_body (env : Env) (now : Z) (item : positive * Sub.t)
    (subs : gmap positive Sub.t)
  : bool * gmap positive Sub.t * list Event :=
  let '(sid, _) := item in
  match notify_warning env sid with
  | Threw => (false, subs, [WarningNotice sid Threw])
  | Returned =>
      if warn_update_fails env sid then (false, subs, [WarningNotice sid Returned])
      else (true, alter (mark_warned now) sid subs,
            [WarningNotice sid Returned])
  end.

(** [subscription.role_id && ...]: a missing or empty role id is falsy. *)
Definition has_role (s : Sub.t) : option string :=
  match Sub.role_id s with
  | Some r => if String.eqb r "" then None else Some r
  | None => None
  end.

(** [ExpiryManager.processExpiredSubscription(subscription, db)] *)
Definition processExpiredSubscription (env : Env) (now : Z)
    (item : positive * Sub.t) (subs : gmap positive Sub.t)
  : bool * gmap positive Sub.t * list Event :=
  let '(sid, subscription) := item in
  let revoke :=
    match has_role subscription with
    | Some r =>
        if discord_configured env then
          [RoleRevoke (Sub.user_id subscription) r
             (remove_role env (Sub.user_id subscription) r)]
        else []
    | None => []
    end in
  if expire_update_fails env sid then (false, subs, revoke)
  else (true, alter (mark_expired now) sid subs,
        revoke ++ [ExpiredNotice sid (notify_expired env sid)]).

(** [ExpiryManager.sendExpiryWarnings()] *)
Definition sendExpiryWarnings (env : Env) (now : Z)
    (subs : gmap positive Sub.t) : Run :=
  for_each_isolated (warn_body env now)
    (find_all (warning_query env now) subs) (start_run subs).

(** [ExpiryManager.handleExpiredSubscriptions()] *)
Definition handleExpiredSubscriptions (env : Env) (now : Z)
    (subs : gmap positive Sub.t) : Run :=
  for_each_isolated (processExpiredSubscription env now)
    (find_all (expired_query now) subs) (start_run subs).

Definition refresh_if (env : Env) (needed : bool) : list Event :=
  if needed && status_manager env then [PresenceRefresh] else [].

Definition with_subscriptions (st : State) (subs : gmap positive Sub.t)
  : State :=
  mkState (users st) subs (transactions st).

(** [ExpiryManager.checkExpiries()]: the warning pass, then the expiry
    pass. *)
Definition checkExpiries (env : Env) (now : Z) (st : State)
  : State * list Event :=
  let w := sendExpiryWarnings env now (subscriptions st) in
  let e := handleExpiredSubscriptions env now (run_subs w) in
  (with_subscriptions st (run_subs e),
   run_events w ++ run_events e
   ++ refresh_if env (0 <? run_count e)%nat).

(** [ExpiryManager.runRecoveryCheck()]: stale subscriptions first, then
    the warnings that were missed. *)
Definition runRecoveryCheck (env : Env) (now : Z) (st : State)
  : State * list Event :=
  let e :=
    for_each_isolated (processExpiredSubscription env now)
      (find_all (expired_query now) (subscriptions st))
      (start_run (subscriptions st)) in
  let w :=
    for_each_isolated (warn_body env now)
      (find_all (missed_warning_query now) (run_subs e))
      (start_run (run_subs e)) in
  (with_subscriptions st (run_subs w),
   run_events e ++ run_events w
   ++ refresh_if env (0 <? run_count e)%nat).

(** * Vocabulary of the statements *)

(** ** Effects of a purchase *)

(** The entitlement half of a committed purchase: either the document
    found by the renewal lookup was extended in place, or one document
    was inserted under an unused id. *)
Definition entitlement_change (u : string) (plan : Plan.t) (price : Q)
    (now : Z) (st st' : State) (r : PurchaseResult) : Prop :=
  match find_one (renewable u now) (subscriptions st) with
  | Some (sid, s) =>
      res_isRenewal r = true ∧ res_subscription_id r = sid
      ∧ res_subscription r = renewed_view plan price now s
      ∧ subscriptions st' = alter (renew plan price now) sid (subscriptions st)
  | None =>
      res_isRenewal r = false
      ∧ res_subscription_id r = fresh (dom (subscriptions st))
      ∧ res_subscription r = new_subscription u plan price now
      ∧ subscriptions st' =
          <[fresh (dom (subscriptions st)) := new_subscription u plan price now]>
            (subscriptions st)
  end.

(** The balance half: the buyer's document, and only it, has its balance
    replaced by the old balance minus the price. *)
Definition debited (u : string) (price : Q) (now : Z) (st st' : State)
  : Prop :=
  ∃ user, users st !! u = Some user
    ∧ Qltb (js_or (User.vv_balance user) 0) price = false
    ∧ users st' =
        <[u := set_balance (js_or (User.vv_balance user) 0 - price) now user]>
          (users st).

(** The log half: one record, carrying the key, was added. *)
Definition logged (key : string) (st st' : State) (r : PurchaseResult)
  : Prop :=
  find_one (has_key key) (transactions st) = None
  ∧ transactions st !! res_transaction_id r = None
  ∧ Txn.idempotency_key (res_transaction r) = key
  ∧ transactions st' =
      <[res_transaction_id r := res_transaction r]> (transactions st).

(** What "debited once" means for a committed purchase at [price] that
    took [st] to [st']: the buyer's stored balance (0 when none is
    stored) covered the price; the balance stored afterwards is that
    balance minus the price, written at [now]; and no other user document
    changed. *)
Definition charged_once (u : string) (price : Q) (now : Z) (st st' : State)
  : Prop :=
  ∃ user user' b',
    users st !! u = Some user
    ∧ users st' !! u = Some user'
    ∧ (price <= default 0 (User.vv_balance user))%Q
    ∧ User.vv_balance user' = Some b'
    ∧ (b' == default 0 (User.vv_balance user) - price)%Q
    ∧ User.updated_at user' = Some now
    ∧ User.username user' = User.username user
    ∧ (∀ v, v ≠ u → users st' !! v = users st !! v).

(** What "one entitlement created or extended" means for a committed
    purchase [r] of [plan] at [price] that took [st] to [st']: the
    collections differ in the one document named by the result, which
    afterwards is an active document of the buyer.  Either it was stored
    before, as an active document of the buyer expiring after [now], and
    now expires the plan's days later, counts one renewal more and has
    the price added to its total; or it was not stored, the buyer held no
    such document, and it now runs from [now] for the plan's days, with
    no renewal and the price as its total. *)
Definition entitled_once (u : string) (plan : Plan.t) (price : Q) (now : Z)
    (st st' : State) (r : PurchaseResult) : Prop :=
  (∀ k, k ≠ res_subscription_id r →
        subscriptions st' !! k = subscriptions st !! k)
  ∧ ∃ s',
      subscriptions st' !! res_subscription_id r = Some s'
      ∧ Sub.user_id s' = u
      ∧ Sub.status s' = Active
      ∧ Sub.expires_at (res_subscription r) = Sub.expires_at s'
      ∧ match subscriptions st !! res_subscription_id r with
        | Some s =>
            res_isRenewal r = true
            ∧ Sub.user_id s = u ∧ Sub.status s = Active
            ∧ now < Sub.expires_at s
            ∧ Sub.expires_at s'
              = Sub.expires_at s + Plan.days plan * ms_per_day
            ∧ Sub.renewal_count s'
              = Some (default 0 (Sub.renewal_count s) + 1)
            ∧ (∃ t', Sub.total_paid_vv s' = Some t'
                 ∧ (t' == default 0%Q (Sub.total_paid_vv s) + price)%Q)
        | None =>
            res_isRenewal r = false
            ∧ (∀ k x, subscriptions st !! k = Some x → Sub.user_id x = u →
                      Sub.status x = Active → Sub.expires_at x ≤ now)
            ∧ Sub.plan_id s' = Plan.id plan
            ∧ Sub.started_at s' = now
            ∧ Sub.expires_at s' = now + Plan.days plan * ms_per_day
            ∧ Sub.renewal_count s' = Some 0
            ∧ Sub.paid_price_vv s' = price
            ∧ Sub.total_paid_vv s' = Some price
        end.

(** What "recorded once" means: the log gained the one record named by
    the result, under an id that was unused; no record of the log before
    carried the key; the new record carries the key, the buyer, the price
    and the entitlement's id. *)
Definition recorded_once (u key : string) (price : Q) (st st' : State)
    (r : PurchaseResult) : Prop :=
  transactions st !! res_transaction_id r = None
  ∧ transactions st' !! res_transaction_id r = Some (res_transaction r)
  ∧ (∀ k, k ≠ res_transaction_id r →
          transactions st' !! k = transactions st !! k)
  ∧ (∀ k t, transactions st !! k = Some t → Txn.idempotency_key t ≠ key)
  ∧ Txn.idempotency_key (res_transaction r) = key
  ∧ Txn.user_id (res_transaction r) = u
  ∧ Txn.final_price_vv (res_transaction r) = price
  ∧ Txn.subscription_id (res_transaction r) = res_subscription_id r.

(** The duplicate check sitting inside the atomic unit: run on a log that
    holds the key, the unit itself answers "Transaction already
    processed". *)
Definition duplicate_check_inside_unit : Prop :=
  ∀ now u plan price key st,
    is_Some (find_one (has_key key) (transactions st)) →
    purchase_txn now u plan price key st = inl AlreadyProcessed.

(** Every stored balance is at least 0. *)
Definition balances_nonneg (st : State) : Prop :=
  ∀ u user b,
    users st !! u = Some user → User.vv_balance user = Some b → (0 <= b)%Q.

(** The balance-mutating requests: a purchase, or an administrative
    adjustment. *)
Inductive Request :=
| Purchase (now : Z) (userId planId key : string)
| Adjust (now : Z) (userId : string) (amount : Q) (operation : string).

(** The state a request leaves; a refused request leaves the state it
    found. *)
Definition serve (plans : list Plan.t) (st : State) (rq : Request) : State :=
  match rq with
  | Purchase now u planId key => (purchaseSubscription plans now u planId key st).2
  | Adjust now u amount op =>
      match adjust_balance now u amount op st with
      | inr st' => st'
      | inl _ => st
      end
  end.

(** Adjustments that subtract, or whose amount is not negative. *)
Definition sign_checked (rq : Request) : Prop :=
  match rq with
  | Purchase _ _ _ _ => True
  | Adjust _ _ amount op => op = "subtract"%string ∨ (0 <= amount)%Q
  end.

(** What "renewed in place" means for a committed purchase [r] that took
    [st] to [st']: a document [s] of the buyer, active and expiring after
    [now], was replaced under its own id [sid] by [s']; [s'] expires
    the plan's days after [s] did, counts one renewal more and has the
    final price added to its total; no document was added; the caller is
    told it was a renewal.  [sid] is [sid0] when [sid0] holds the
    buyer's only such document. *)
Definition renewed_in_place (plans : list Plan.t) (planId : string)
    (now : Z) (u : string) (st st' : State) (r : PurchaseResult)
    (sid0 : positive) : Prop :=
  ∃ plan sid s s',
    find_plan plans planId = Some plan
    ∧ subscriptions st !! sid = Some s
    ∧ Sub.user_id s = u ∧ Sub.status s = Active ∧ now < Sub.expires_at s
    ∧ ((∀ k x, subscriptions st !! k = Some x → renewable u now x = true →
               k = sid0) → sid = sid0)
    ∧ res_isRenewal r = true
    ∧ res_subscription_id r = sid
    ∧ subscriptions st' = <[sid := s']> (subscriptions st)
    ∧ dom (subscriptions st') = dom (subscriptions st)
    ∧ Sub.expires_at s' = Sub.expires_at s + Plan.days plan * ms_per_day
    ∧ Sub.expires_at (res_subscription r) = Sub.expires_at s'
    ∧ Sub.renewal_count s' = Some (default 0 (Sub.renewal_count s) + 1)
    ∧ (∃ t', Sub.total_paid_vv s' = Some t'
         ∧ (t' == default 0%Q (Sub.total_paid_vv s) + res_finalPrice r)%Q)
    ∧ Sub.status s' = Active.

(** What "bought afresh beside a stale entitlement" means for a committed
    purchase [r] that took [st] to [st']: one document was inserted
    under an id that was unused and differs from [sid0], expiring the
    plan's days after [now]; the caller is told it was no renewal; the
    document under [sid0] is as it was; and the buyer's documents are
    exactly these two. *)
Definition bought_beside_stale (plans : list Plan.t) (planId : string)
    (now : Z) (u : string) (st st' : State) (r : PurchaseResult)
    (sid0 : positive) (s0 : Sub.t) : Prop :=
  ∃ plan fresh_doc,
    find_plan plans planId = Some plan
    ∧ res_isRenewal r = false
    ∧ subscriptions st !! res_subscription_id r = None
    ∧ res_subscription_id r ≠ sid0
    ∧ subscriptions st' = <[res_subscription_id r := fresh_doc]> (subscriptions st)
    ∧ res_subscription r = fresh_doc
    ∧ Sub.user_id fresh_doc = u
    ∧ Sub.status fresh_doc = Active
    ∧ Sub.expires_at fresh_doc = now + Plan.days plan * ms_per_day
    ∧ subscriptions st' !! sid0 = Some s0
    ∧ (∀ k x, subscriptions st' !! k = Some x → Sub.user_id x = u →
              k = sid0 ∨ k = res_subscription_id r).

(** ** Sweeps *)

(** A loop body that, for the item under id [sid], applies [f] to the
    stored document when [succ sid] holds and leaves the collection alone
    otherwise. *)
Definition body_alters
    (body : positive * Sub.t → gmap positive Sub.t →
            bool * gmap positive Sub.t * list Event)
    (f : Sub.t → Sub.t) (succ : positive → bool) : Prop :=
  ∀ sid s m,
    (body (sid, s) m).1.2 = if succ sid then alter f sid m else m.

(** Whether the body of a warning loop completes for [sid]: the warning
    call returns and the write is accepted. *)
Definition warn_ok (env : Env) (sid : positive) : bool :=
  match notify_warning env sid with
  | Returned => negb (warn_update_fails env sid)
  | Threw => false
  end.

(** The calls [sendExpiredChannelMessage(subscription)] made for [sid]. *)
Definition is_expired_notice (sid : positive) (e : Event) : bool :=
  match e with
  | ExpiredNotice k _ => Pos.eqb k sid
  | _ => false
  end.

(** How many of them a run made. *)
Definition expired_notices (sid : positive) (evs : list Event) : nat :=
  length (List.filter (is_expired_notice sid) evs).

(** An environment in which no warning call throws and no write is
    refused. *)
Definition fault_free (env : Env) : Prop :=
  ∀ sid,
    expire_update_fails env sid = false
    ∧ warn_update_fails env sid = false
    ∧ notify_warning env sid = Returned.

(** What a fault-free pass does to one document. *)
Definition pass_on (q : Sub.t → bool) (f : Sub.t → Sub.t) (s : Sub.t) : Sub.t :=
  if q s then f s else s.

(** * Example data *)

(** A small catalogue: two plain plans, the two discounted plans of the
    spec's examples, and a plan discounted by more than its price. *)
Definition ex_basic : Plan.t := Plan.mk "basic" "Basic" "role-1" 200 30 None.

Definition ex_mini : Plan.t := Plan.mk "mini" "Mini" "role-1" 100 15 None.

Definition ex_quarter_off : Plan.t :=
  Plan.mk "sale" "Sale" "role-1" 100 30 (Some (Discount.mk "percent" 25)).

Definition ex_fixed_150 : Plan.t :=
  Plan.mk "gift" "Gift" "role-1" 100 30 (Some (Discount.mk "fixed" 150)).

Definition ex_percent_150 : Plan.t :=
  Plan.mk "oops" "Oops" "role-1" 100 30 (Some (Discount.mk "percent" 150)).

Definition ex_plans : list Plan.t :=
  [ex_basic; ex_mini; ex_quarter_off; ex_fixed_150; ex_percent_150].

(** One user, "u1", holding [balance] VV; no subscription, empty log. *)
Definition ex_state (balance : Q) : State :=
  mkState {["u1"%string := User.mk "alice" (Some balance) None]} ∅ ∅.

(** The log and balance left by a purchase of [ex_basic] (200 VV) under
    key "k-1" by a user who held 300 VV. *)
Definition ex_after_first : State :=
  (purchaseSubscription ex_plans 1000 "u1" "basic" "k-1" (ex_state 300)).2.

(** The state after "u1" bought [ex_basic] under key "k-1" from a balance
    of 500 VV at instant 1000. *)
Definition ex_subscribed : State :=
  (purchaseSubscription ex_plans 1000 "u1" "basic" "k-1" (ex_state 500)).2.

(** An instant after the subscription of [ex_subscribed] has run out:
    31 days past instant 1000. *)
Definition ex_later : Z := 1000 + 31 * ms_per_day.

(** UTC process, Discord configured, every external call returns, every
    write is accepted. *)
Definition ex_env : Env :=
  mkEnv 0 true true (λ _ _, Returned) (λ _, Returned) (λ _, Returned)
    (λ _, false) (λ _, false).

(** Discord down and the store refusing to mark subscription 1 expired or
    anyone warned: role removal and both notifications throw for
    everyone. *)
Definition ex_env_failing : Env :=
  mkEnv 0 true true (λ _ _, Threw) (λ _, Threw) (λ _, Threw)
    (λ sid, Pos.eqb sid 1) (λ _, true).

(** An active, not yet warned 30-day subscription of [u] that expires at
    [expires]. *)
Definition ex_sub (u : string) (expires : Z) : Sub.t :=
  Sub.mk u "basic" "Basic" (Some "role-1"%string) Active
    (expires - 30 * ms_per_day) (expires - 30 * ms_per_day) expires
    (Some (expires - 30 * ms_per_day)) None 30 200 200 (Some 200%Q) None
    (Some 0) None None None false None.

(** Midnight UTC of day 100 after the epoch. *)
Definition ex_midnight : Z := 100 * ms_per_day.

(** Milliseconds in an hour. *)
Definition ms_per_hour : Z := 60 * 60 * 1000.

(** Two stale subscriptions; in [ex_env_failing] the write for the first
    is refused and every Discord call throws. *)
Definition ex_two_stale : gmap positive Sub.t :=
  {[ 1%positive := ex_sub "u1" (ex_midnight - 3 * ms_per_day);
     2%positive := ex_sub "u2" (ex_midnight - 2 * ms_per_day) ]}.

(** Three subscriptions at [ex_midnight]: one three days stale, one
    expiring in five hours, one expiring in forty days. *)
Definition ex_mixed : gmap positive Sub.t :=
  {[ 1%positive := ex_sub "u1" (ex_midnight - 3 * ms_per_day);
     2%positive := ex_sub "u2" (ex_midnight + 5 * ms_per_hour);
     3%positive := ex_sub "u3" (ex_midnight + 40 * ms_per_day) ]}.

(** * Further parts of the program *)

(** ** Presence: the active-subscription count *)

(** The query [{ status: "active", expires_at: { $gt: now } }], used by
    [getActiveSubscriptionCount] and [getSubscriptionStats]. *)
Definition active_at (now : Z) (s : Sub.t) : bool :=
  is_active (Sub.status s) && (now <? Sub.expires_at s).

(** [collection.countDocuments(q)] *)
Definition count_documents {A} (q : A → bool) (c : gmap positive A) : nat :=
  length (find_all q c).

(** [DiscordStatusManager.getActiveSubscriptionCount()], the store
    answering. *)
Definition getActiveSubscriptionCount (now : Z) (subs : gmap positive Sub.t)
  : nat :=
  count_documents (active_at now) subs.

(** ** The profile view *)

Module TimeLeft.
(** The [time_left] object of the profile view. *)
Record t := mk {
    months : Z;
    days : Z;
    hours : Z;
    total_days : Z
}.
End TimeLeft.

Module Profile.
(** What [getUserActiveSubscription] returns, without the display
    strings: the document found, the time left, the rounded progress
    ([None] stands for [NaN]) and the renewal summary. *)
Record t := mk {
    subscription_id : positive;
    subscription : Sub.t;
    time_left : TimeLeft.t;
    progress_percent : option Z;
    renewal_count : Z;
    total_spent : Q
}.
End Profile.

(** [Math.round(x)]: the nearest integer, halves upwards. *)
Definition js_round (x : Q) : Z := Qfloor (x + (1 # 2))%Q.

(** [Math.min(100, Math.max(0, (elapsed / totalDuration) * 100))]; a
    division by zero gives [NaN] for [0 / 0] and an infinity otherwise,
    which the clamps turn into 0 or 100. *)
Definition progressPercent (elapsed totalDuration : Z) : option Q :=
  if totalDuration =? 0 then
    if elapsed =? 0 then None
    else if 0 <? elapsed then Some 100%Q else Some 0%Q
  else
    Some (Qmin 100
            (Qmax 0 (inject_Z elapsed / inject_Z totalDuration * 100)%Q)).

(** The [time_left] fields computed from [expires_at - now]; [%] is the
    remainder that takes the sign of the dividend. *)
Definition time_left_of (timeLeft : Z) : TimeLeft.t :=
  let daysLeft := timeLeft / ms_per_day in
  let hoursLeft := Z.rem timeLeft ms_per_day / ms_per_hour in
  let monthsLeft := daysLeft / 30 in
  TimeLeft.mk monthsLeft (Z.rem daysLeft 30) hoursLeft daysLeft.

(** [SubscriptionService.getUserActiveSubscription(userId)] at instant
    [now]; [null] is [None]. *)
Definition getUserActiveSubscription (now : Z) (userId : string)
    (subs : gmap positive Sub.t) : option Profile.t :=
  match find_one (renewable userId now) subs with
  | None => None
  | Some (sid, subscription) =>
      let timeLeft := Sub.expires_at subscription - now in
      let totalDuration :=
        Sub.expires_at subscription - Sub.started_at subscription in
      let elapsed := now - Sub.started_at subscription in
      Some (Profile.mk sid subscription (time_left_of timeLeft)
              (js_round <$> progressPercent elapsed totalDuration)
              (default 0 (Sub.renewal_count subscription))
              (js_or (Sub.total_paid_vv subscription)
                 (Sub.paid_price_vv subscription)))
  end.

(** ** The scheduler's clock *)

(** [Math.ceil(a / b)] for integers [a] and [b > 0]. *)
Definition ceil_div (a b : Z) : Z := - (- a / b).



(** ** Duration text *)

(** [`${n}`] for an integer [n]. *)
Definition show (n : Z) : string := pretty n.

(** [SubscriptionService.formatDuration(days)] for an integer number of
    days; [%] is the remainder that takes the sign of the dividend. *)
Definition formatDuration (days : Z) : string :=
  if 365 <=? days then
    let years := days / 365 in
    let remainingDays := Z.rem days 365 in
    if remainingDays =? 0 then
      show years +:+ " " +:+ (if years =? 1 then "Year" else "Years")
    else
      show years +:+ " " +:+ (if years =? 1 then "Year" else "Years")
      +:+ " " +:+ show remainingDays +:+ " Days"
  else if 30 <=? days then
    let months := days / 30 in
    let remainingDays := Z.rem days 30 in
    if remainingDays =? 0 then
      show months +:+ " " +:+ (if months =? 1 then "Month" else "Months")
    else
      show months +:+ " " +:+ (if months =? 1 then "Month" else "Months")
      +:+ " " +:+ show remainingDays +:+ " Days"
  else if 7 <=? days then
    let weeks := days / 7 in
    let remainingDays := Z.rem days 7 in
    if remainingDays =? 0 then
      show weeks +:+ " " +:+ (if weeks =? 1 then "Week" else "Weeks")
    else
      show weeks +:+ " " +:+ (if weeks =? 1 then "Week" else "Weeks")
      +:+ " " +:+ show remainingDays +:+ " Days"
  else
    show days +:+ " " +:+ (if days =? 1 then "Day" else "Days").

(** The part of a text before its first space, and the part after it. *)
Fixpoint before_space (s : string) : string :=
  match s with
  | EmptyString => EmptyString
  | String c s' =>
      if Ascii.eqb c " "%char then EmptyString else String c (before_space s')
  end.

Fixpoint after_space (s : string) : string :=
  match s with
  | EmptyString => EmptyString
  | String c s' => if Ascii.eqb c " "%char then s' else after_space s'
  end.

Fixpoint space_free (s : string) : bool :=
  match s with
  | EmptyString => true
  | String c s' => negb (Ascii.eqb c " "%char) && space_free s'
  end.

(** ** The Discord logger *)

Section SplitContent.
(** A text is a sequence of code units; [nl] is the line feed and [dot]
    the full stop. *)
Context {C : Type} `{EqDecision C} (nl dot : C).

(** [text.split("\n")] *)
Fixpoint split_lines (text : list C) : list (list C) :=
  match text with
  | [] => [[]]
  | c :: text' =>
      if decide (c = nl) then [] :: split_lines text'
      else match split_lines text' with
           | [] => [[c]]
           | line :: lines => (c :: line) :: lines
           end
  end.

(** [lines.join("\n")] *)
Fixpoint join_lines (lines : list (list C)) : list C :=
  match lines with
  | [] => []
  | [line] => line
  | line :: lines' => line ++ nl :: join_lines lines'
  end.

(** One turn of the loop of [splitContent]: the chunks pushed so far and
    [currentChunk], before and after a line. *)
Definition split_step (maxLength : nat) (st : list (list C) * list C)
    (line : list C) : list (list C) * list C :=
  let '(chunks, currentChunk) := st in
  if (maxLength <? length currentChunk + length line + 1)%nat then
    let chunks :=
      match currentChunk with
      | [] => chunks
      | _ => chunks ++ [currentChunk]
      end in
    if (maxLength <? length line)%nat then
      (chunks ++ [take (maxLength - 3) line ++ [dot; dot; dot]], [])
    else (chunks, line)
  else
    (chunks,
     currentChunk ++ match currentChunk with [] => [] | _ => [nl] end ++ line).

(** [DiscordLogger.splitContent(content, maxLength)] *)
Definition splitContent (content : list C) (maxLength : nat)
  : list (list C) :=
  let '(chunks, currentChunk) :=
    fold_left (split_step maxLength) (split_lines content) ([], []) in
  match currentChunk with
  | [] => chunks
  | _ => chunks ++ [currentChunk]
  end.

(** The chunks pushed and the open chunk, as one list: what the loop has
    produced if it stops here. *)
Definition closed (st : list (list C) * list C) : list (list C) :=
  match st.2 with
  | [] => st.1
  | _ => st.1 ++ [st.2]
  end.

End SplitContent.

Module Logger.
(** The fields of a [DiscordLogger] that its queue handling reads:
    whether a webhook URL was given, the batch size and the queue of
    formatted lines (of any type [M]). *)
Record t (M : Type) := mk {
    webhookUrl : bool;
    batchSize : nat;
    logQueue : list M
}.
Arguments mk {M}.
Arguments webhookUrl {M}.
Arguments batchSize {M}.
Arguments logQueue {M}.
End Logger.

(** The calls that reach the queue: [addToQueue] (from the overridden
    console methods), a turn of the interval timer of
    [startBatchProcessor], and [logDirect]. *)
Inductive LogCall (M : Type) :=
| AddToQueue (line : M)
| TimerTick
| LogDirect (line : M).
Arguments AddToQueue {M}.
Arguments TimerTick {M}.
Arguments LogDirect {M}.

(** The synchronous part of [sendBatch]: the batch spliced off the
    queue, if any. *)
Definition sendBatch {M} (lg : Logger.t M) : Logger.t M * list (list M) :=
  if negb (Logger.webhookUrl lg) || (length (Logger.logQueue lg) =? 0)%nat
  then (lg, [])
  else
    (Logger.mk (Logger.webhookUrl lg) (Logger.batchSize lg)
       (drop (Logger.batchSize lg) (Logger.logQueue lg)),
     [take (Logger.batchSize lg) (Logger.logQueue lg)]).

Definition push {M} (lg : Logger.t M) (line : M) : Logger.t M :=
  Logger.mk (Logger.webhookUrl lg) (Logger.batchSize lg)
    (Logger.logQueue lg ++ [line]).

(** One call, with the batches it hands to the webhook. *)
Definition log_call {M} (lg : Logger.t M) (c : LogCall M)
  : Logger.t M * list (list M) :=
  match c with
  | AddToQueue line =>
      if negb (Logger.webhookUrl lg) then (lg, [])
      else
        let lg := push lg line in
        if (Logger.batchSize lg <=? length (Logger.logQueue lg))%nat
        then sendBatch lg else (lg, [])
  | TimerTick =>
      if (0 <? length (Logger.logQueue lg))%nat then sendBatch lg
      else (lg, [])
  | LogDirect line =>
      if negb (Logger.webhookUrl lg) then (lg, []) else (push lg line, [])
  end.

(** A sequence of calls, with all the batches handed over, in order. *)
Definition log_calls {M} (lg : Logger.t M) (cs : list (LogCall M))
  : Logger.t M * list (list M) :=
  fold_left
    (λ acc c, let '(lg', sent) := log_call acc.1 c in (lg', acc.2 ++ sent))
    cs (lg, []).

(** The lines a sequence of calls offers to the logger. *)
Definition offered {M} (cs : list (LogCall M)) : list M :=
  flat_map (λ c, match c with
                 | AddToQueue line | LogDirect line => [line]
                 | TimerTick => []
                 end) cs.

(** ** The Discord status manager *)

(** [ws.readyState] *)
Inductive ReadyState := CONNECTING | OPEN | CLOSING | CLOSED.

Module Manager.
(** The fields of [DiscordStatusManager]; [ws] is [None] for [null] and
    otherwise the [readyState] of the socket held, which only the socket
    itself changes; [heartbeatInterval] holds the period of the running
    interval. *)
Record t := mk {
    ws : option ReadyState;
    heartbeatInterval : option Z;
    lastSequence : option Z;
    sessionId : option string;
    lastCount : option nat;
    isConnected : bool;
    reconnectAttempts : Z;
    maxReconnectAttempts : Z;
    gatewayUrl : option string
}.
End Manager.

Module Payload.
(** A gateway payload [{ op, d, s, t }], with the two fields of [d] that
    are read. *)
Record frame := mk {
    op : Z;
    heartbeat_interval : Z;
    session_id : string;
    s : option Z;
    t : string
}.
End Payload.

(** What the manager does to the outside: the gateway look-up, frames
    sent on the socket, the nickname request, the socket being closed,
    and timers set. *)
Inductive Action :=
| GetGateway
| SendHeartbeat (d : option Z)
| SendIdentify
| SendPresence (name state : string)
| PatchNickname (nick : string)
| CloseSocket (code : Z)
| ReconnectIn (delay : Z)
| IdentifyIn (delay : Z).

(** [new DiscordStatusManager()] *)
Definition new_manager : Manager.t :=
  Manager.mk None None None None None false 0 5 None.

(** [scheduleReconnect()] *)
Definition scheduleReconnect (m : Manager.t) : Manager.t * list Action :=
  if Manager.maxReconnectAttempts m <=? Manager.reconnectAttempts m then
    (m, [])
  else
    let delay := Z.min (1000 * 2 ^ Manager.reconnectAttempts m) 30000 in
    (Manager.mk (Manager.ws m) (Manager.heartbeatInterval m)
       (Manager.lastSequence m) (Manager.sessionId m) (Manager.lastCount m)
       (Manager.isConnected m) (Manager.reconnectAttempts m + 1)
       (Manager.maxReconnectAttempts m) (Manager.gatewayUrl m),
     [ReconnectIn delay]).

(** [cleanup()] *)
Definition cleanup (m : Manager.t) : Manager.t * list Action :=
  (Manager.mk None None
     (Manager.lastSequence m) (Manager.sessionId m) (Manager.lastCount m)
     false (Manager.reconnectAttempts m)
     (Manager.maxReconnectAttempts m) (Manager.gatewayUrl m),
   match Manager.ws m with
   | Some OPEN => [CloseSocket 1000]
   | _ => []
   end).

(** [stop()] *)
Definition stop (m : Manager.t) : Manager.t * list Action :=
  let '(m, acts) := cleanup m in
  (Manager.mk (Manager.ws m) (Manager.heartbeatInterval m)
     (Manager.lastSequence m) (Manager.sessionId m) (Manager.lastCount m)
     (Manager.isConnected m) (Manager.maxReconnectAttempts m)
     (Manager.maxReconnectAttempts m) (Manager.gatewayUrl m),
   acts).

(** [new WebSocket(url)] with its handlers, stored in [ws]. *)
Definition open_socket (url : string) (m : Manager.t) : Manager.t :=
  Manager.mk (Some CONNECTING) (Manager.heartbeatInterval m)
    (Manager.lastSequence m) (Manager.sessionId m) (Manager.lastCount m)
    (Manager.isConnected m) (Manager.reconnectAttempts m)
    (Manager.maxReconnectAttempts m) (Some url).

(** [connect()] up to its [await]: with a gateway URL known the socket is
    opened at once, otherwise the look-up is sent. *)
Definition connect (m : Manager.t) : Manager.t * list Action :=
  match Manager.gatewayUrl m with
  | Some url => (open_socket url m, [])
  | None => (m, [GetGateway])
  end.

(** [connect()] from its [await] on: the look-up answered with a URL, or
    failed ([None]). *)
Definition connect_resume (answer : option string) (m : Manager.t)
  : Manager.t * list Action :=
  match answer with
  | Some url => (open_socket url m, [])
  | None => scheduleReconnect m
  end.

(** [identify()] and [sendHeartbeat()] write only on an open socket. *)
Definition when_open (m : Manager.t) (a : Action) : list Action :=
  match Manager.ws m with
  | Some OPEN => [a]
  | _ => []
  end.

(** The text shown for a count. *)
Definition statusText (activeCount : nat) : string :=
  if (activeCount =? 1)%nat then "1 Active Subscription"
  else pretty activeCount +:+ " Active Subscriptions".

(** [updateStatus()], run to its end with no other handler in between
    and the write on the open socket accepted; [count] is what
    [getActiveSubscriptionCount] returned ([None] for [null]), [guild]
    whether [DISCORD_GUILD_ID] is set. *)
Definition updateStatus (guild : bool) (count : option nat) (m : Manager.t)
  : Manager.t * list Action :=
  match Manager.isConnected m, Manager.ws m, count with
  | true, Some OPEN, Some activeCount =>
      if match Manager.lastCount m with
         | Some shown => (shown =? activeCount)%nat
         | None => false
         end
      then (m, [])
      else
        (Manager.mk (Manager.ws m) (Manager.heartbeatInterval m)
           (Manager.lastSequence m) (Manager.sessionId m) (Some activeCount)
           (Manager.isConnected m) (Manager.reconnectAttempts m)
           (Manager.maxReconnectAttempts m) (Manager.gatewayUrl m),
         SendPresence (statusText activeCount)
           (if (0 <? activeCount)%nat then "Managing subscriptions"
            else "Ready for subscriptions")
         :: (if guild then
               [PatchNickname
                  (if (0 <? activeCount)%nat
                   then "Virelia (" +:+ pretty activeCount +:+ ")"
                   else "Virelia")]
             else []))
  | _, _, _ => (m, [])
  end.

(** [forceStatusUpdate()] *)
Definition forceStatusUpdate (guild : bool) (count : option nat)
    (m : Manager.t) : Manager.t * list Action :=
  if negb (Manager.isConnected m) then connect m
  else
    updateStatus guild count
      (Manager.mk (Manager.ws m) (Manager.heartbeatInterval m)
         (Manager.lastSequence m) (Manager.sessionId m) None
         (Manager.isConnected m) (Manager.reconnectAttempts m)
         (Manager.maxReconnectAttempts m) (Manager.gatewayUrl m)).

(** [handleMessage(payload)] *)
Definition handleMessage (guild : bool) (count : option nat)
    (p : Payload.frame) (m : Manager.t)
  : Manager.t * list Action :=
  let m :=
    match Payload.s p with
    | Some n =>
        if n =? 0 then m
        else Manager.mk (Manager.ws m) (Manager.heartbeatInterval m)
               (Some n) (Manager.sessionId m) (Manager.lastCount m)
               (Manager.isConnected m) (Manager.reconnectAttempts m)
               (Manager.maxReconnectAttempts m) (Manager.gatewayUrl m)
    | None => m
    end in
  if Payload.op p =? 10 then
    let m :=
      Manager.mk (Manager.ws m) (Some (Payload.heartbeat_interval p))
        (Manager.lastSequence m) (Manager.sessionId m) (Manager.lastCount m)
        (Manager.isConnected m) (Manager.reconnectAttempts m)
        (Manager.maxReconnectAttempts m) (Manager.gatewayUrl m) in
    (m, when_open m SendIdentify)
  else if Payload.op p =? 0 then
    if String.eqb (Payload.t p) "READY" then
      updateStatus guild count
        (Manager.mk (Manager.ws m) (Manager.heartbeatInterval m)
           (Manager.lastSequence m) (Some (Payload.session_id p)) (Manager.lastCount m)
           (Manager.isConnected m) (Manager.reconnectAttempts m)
           (Manager.maxReconnectAttempts m) (Manager.gatewayUrl m))
    else (m, [])
  else if Payload.op p =? 1 then
    (m, when_open m (SendHeartbeat (Manager.lastSequence m)))
  else if Payload.op p =? 7 then
    let '(m, acts) := cleanup m in
    let '(m, acts') := connect m in
    (m, acts ++ acts')
  else if Payload.op p =? 9 then
    (Manager.mk (Manager.ws m) (Manager.heartbeatInterval m)
       None None (Manager.lastCount m)
       (Manager.isConnected m) (Manager.reconnectAttempts m)
       (Manager.maxReconnectAttempts m) (Manager.gatewayUrl m),
     [IdentifyIn 5000])
  else (m, []).

(** What reaches the manager from outside: the events of the socket and
    the change of its [readyState], the answer to the gateway look-up,
    the timers, and the calls [init], [forceStatusUpdate] and [stop]. *)
Inductive GatewayEvent :=
| Init
| ReadyStateChange (readyState : ReadyState)
| SocketOpen
| SocketClose (code : Z)
| SocketError
| SocketMessage (guild : bool) (count : option nat) (p : Payload.frame)
| GatewayAnswer (answer : option string)
| ReconnectTimer
| HeartbeatTimer
| IdentifyTimer
| ForceStatusUpdate (guild : bool) (count : option nat)
| Stop.

(** The handlers installed by [setupWebSocketHandlers], the callbacks of
    the timers and the public calls. *)
Definition on_event (m : Manager.t) (ev : GatewayEvent)
  : Manager.t * list Action :=
  match ev with
  | Init => connect m
  | ReadyStateChange readyState =>
      (Manager.mk (option_map (λ _, readyState) (Manager.ws m))
         (Manager.heartbeatInterval m)
         (Manager.lastSequence m) (Manager.sessionId m) (Manager.lastCount m)
         (Manager.isConnected m) (Manager.reconnectAttempts m)
         (Manager.maxReconnectAttempts m) (Manager.gatewayUrl m),
       [])
  | SocketOpen =>
      (Manager.mk (Manager.ws m) (Manager.heartbeatInterval m)
         (Manager.lastSequence m) (Manager.sessionId m) (Manager.lastCount m)
         true 0 (Manager.maxReconnectAttempts m) (Manager.gatewayUrl m),
       [])
  | SocketClose code =>
      let m :=
        Manager.mk (Manager.ws m) (Manager.heartbeatInterval m)
          (Manager.lastSequence m) (Manager.sessionId m) (Manager.lastCount m)
          false (Manager.reconnectAttempts m)
          (Manager.maxReconnectAttempts m) (Manager.gatewayUrl m) in
      let '(m, acts) := cleanup m in
      if code =? 1000 then (m, acts)
      else let '(m, acts') := scheduleReconnect m in (m, acts ++ acts')
  | SocketError =>
      (Manager.mk (Manager.ws m) (Manager.heartbeatInterval m)
         (Manager.lastSequence m) (Manager.sessionId m) (Manager.lastCount m)
         false (Manager.reconnectAttempts m)
         (Manager.maxReconnectAttempts m) (Manager.gatewayUrl m),
       [])
  | SocketMessage guild count p => handleMessage guild count p m
  | GatewayAnswer answer => connect_resume answer m
  | ReconnectTimer => connect m
  | HeartbeatTimer => (m, when_open m (SendHeartbeat (Manager.lastSequence m)))
  | IdentifyTimer => (m, when_open m SendIdentify)
  | ForceStatusUpdate guild count => forceStatusUpdate guild count m
  | Stop => stop m
  end.

(** A run of events, with everything done on the way. *)
Definition on_events (m : Manager.t) (evs : list GatewayEvent)
  : Manager.t * list Action :=
  fold_left
    (λ acc ev, let '(m', acts) := on_event acc.1 ev in (m', acc.2 ++ acts))
    evs (m, []).

(** The delays of the reconnects scheduled. *)
Definition reconnect_delays (acts : list Action) : list Z :=
  flat_map (λ a, match a with ReconnectIn d => [d] | _ => [] end) acts.

(** A fresh manager whose gateway stays away: a failed look-up, then six
    abnormal closes with the timers between them. *)
Definition ex_outage : list GatewayEvent :=
  [ Init; GatewayAnswer None; ReconnectTimer;
    GatewayAnswer (Some "wss://gateway"%string); ReadyStateChange CLOSED;
    SocketClose 1006; ReconnectTimer; SocketError; SocketClose 1006;
    ReconnectTimer; SocketClose 1006; ReconnectTimer;
    SocketClose 1006; ReconnectTimer; SocketClose 1006;
    ReconnectTimer; SocketClose 1006 ].

(** A fresh manager brought up: look-up answered, socket open. *)
Definition ex_connected : list GatewayEvent :=
  [ Init; GatewayAnswer (Some "wss://gateway"%string);
    ReadyStateChange OPEN; SocketOpen ].

(** ** Balance initialisation and login *)

(** [parseFloat(process.env.DEFAULT_VV_BALANCE) || 500.0]; [parsed] is
    the number read from the variable, [None] when it is unset or not a
    number. *)
Definition default_balance (parsed : option Q) : Q := js_or parsed 500.

(** [parseInt(process.env.DEFAULT_VV_BALANCE) || 500], the default of
    the middleware of [app.js]. *)
Definition default_balance_int (parsed : option Z) : Q :=
  js_or (inject_Z <$> parsed) 500.

(** The step shared by [GET /minecraft/subscription], [GET /profile] and
    the middleware of [app.js]: a user document without [vv_balance]
    gets the default balance; any other state is left alone. *)
Definition ensure_balance (defaultBalance : Q) (now : Z) (userId : string)
    (st : State) : State :=
  match users st !! userId with
  | None => st
  | Some user =>
      match User.vv_balance user with
      | Some _ => st
      | None =>
          mkState
            (alter (set_balance defaultBalance now) userId (users st))
            (subscriptions st) (transactions st)
      end
  end.

(** The verify callback of the Discord strategy in [config/passport.js],
    as far as the ledger's fields of the user document go: a new user is
    inserted with the default balance, a known user has the name updated
    and keeps the stored balance, or gets the default when none is
    stored. *)
Definition login (defaultBalance : Q) (now : Z) (profileId : string)
    (profileUsername : string) (st : State) : State :=
  let users' :=
    match users st !! profileId with
    | None =>
        <[profileId := User.mk profileUsername (Some defaultBalance)
                         (Some now)]> (users st)
    | Some existingUser =>
        <[profileId :=
            User.mk profileUsername
              (match User.vv_balance existingUser with
               | None => Some defaultBalance
               | Some currentBalance => Some currentBalance
               end)
              (Some now)]> (users st)
    end in
  mkState users' (subscriptions st) (transactions st).

(** A visit: a login, a view of the subscription or profile page, or
    any other request of a signed-in user, which passes the middleware
    only. *)
Inductive Visit :=
| Login (now : Z) (profileId profileUsername : string)
| PageView (now : Z) (userId : string)
| AnyRequest (now : Z) (userId : string).

Definition visit (parsed : option Q) (parsedInt : option Z) (st : State)
    (v : Visit) : State :=
  match v with
  | Login now profileId name =>
      login (default_balance parsed) now profileId name st
  | PageView now userId =>
      ensure_balance (default_balance parsed) now userId
        (ensure_balance (default_balance_int parsedInt) now userId st)
  | AnyRequest now userId =>
      ensure_balance (default_balance_int parsedInt) now userId st
  end.

(** The stored balance of a user, if there is one. *)
Definition balance_of (st : State) (userId : string) : option Q :=
  users st !! userId ≫= User.vv_balance.

(** ** Statistics *)

Definition sumQ (l : list Q) : Q := foldr Qplus 0%Q l.

(** The aggregation [$match] on the two constants every purchase record
    carries, then [$group] with [_id: null] and
    [$sum: "$final_price_vv"]: one group with the sum, or no group at all
    when the log is empty. *)
Definition revenue_groups (txs : gmap positive Txn.t) : list Q :=
  match map_to_list txs with
  | [] => []
  | l => [sumQ ((λ kv, Txn.final_price_vv kv.2) <$> l)]
  end.

Definition is_expired_status (st : Status) : bool :=
  match st with Expired => true | _ => false end.

Record Stats := mkStats {
  active_subscriptions : nat;
  expired_subscriptions : nat;
  total_revenue_vv : Q
}.

(** [ExpiryManager.getSubscriptionStats()]: the two counts and the
    revenue total. *)
Definition getSubscriptionStats (now : Z) (st : State) : Stats :=
  let activeCount := count_documents (active_at now) (subscriptions st) in
  let expiredCount :=
    count_documents (λ s, is_expired_status (Sub.status s))
      (subscriptions st) in
  let totalRevenue := revenue_groups (transactions st) in
  mkStats activeCount expiredCount (js_or (head totalRevenue) 0).

(** ** Upcoming expiries *)

Module Upcoming.
Record t := mk {
    subscription_id : positive;
    user_id : string;
    username : string;
    plan_title : string;
    expires_at : Z;
    expires_in_days : Z;
    warning_sent : bool
}.
End Upcoming.

(** The [$match] stage of [getUpcomingExpiries]. *)
Definition upcoming_query (now days : Z) (s : Sub.t) : bool :=
  is_active (Sub.status s)
  && (now <? Sub.expires_at s)
  && (Sub.expires_at s <=? now + days * ms_per_day).

(** [$lookup] into [users] by [_id], then [$unwind]: a subscription is
    paired with its user, and dropped when the user is not stored. *)
Definition lookup_unwind (us : gmap string User.t) (kv : positive * Sub.t)
  : option (positive * Sub.t * User.t) :=
  (λ user, (kv, user)) <$> us !! Sub.user_id kv.2.

(** The order of [$sort: { expires_at: 1 }]. *)
Definition expires_le (a b : positive * Sub.t * User.t) : Prop :=
  Sub.expires_at a.1.2 ≤ Sub.expires_at b.1.2.

#[global] Instance expires_le_dec a b : Decision (expires_le a b) :=
  Z_le_dec (Sub.expires_at a.1.2) (Sub.expires_at b.1.2).

Definition upcoming_view (now : Z) (row : positive * Sub.t * User.t)
  : Upcoming.t :=
  let '((sid, sub), user) := row in
  Upcoming.mk sid (Sub.user_id sub) (User.username user) (Sub.title sub)
    (Sub.expires_at sub)
    (ceil_div (Sub.expires_at sub - now) ms_per_day)
    (Sub.warning_sent sub).

(** [ExpiryManager.getUpcomingExpiries(days)] *)
Definition getUpcomingExpiries (now days : Z) (st : State)
  : list Upcoming.t :=
  let upcomingExpiries :=
    merge_sort expires_le
      (omap (lookup_unwind (users st))
         (find_all (upcoming_query now days) (subscriptions st))) in
  upcoming_view now <$> upcomingExpiries.

(** ** The plan catalogue and its cache *)

(** The module variables [plansCache] and [plansCacheTime]. *)
Record PlansCache := mkCache {
  plansCache : option (list Plan.t);
  plansCacheTime : option Z
}.

(** What the file system answers: the modification time of
    [plans/subscriptions.json], [None] when [fs.stat] throws, and the
    parsed content, [None] when reading or parsing throws. *)
Record PlansFile := mkFile {
  mtime : option Z;
  content : option (list Plan.t)
}.

(** [SubscriptionService.getPlans(forceReload)] *)
Definition getPlans (forceReload : bool) (file : PlansFile) (c : PlansCache)
  : list Plan.t * PlansCache :=
  match mtime file with
  | None => ([], c)
  | Some stats_mtime =>
      if negb (bool_decide (is_Some (plansCache c)))
         || forceReload
         || match plansCacheTime c with
            | None => true
            | Some cacheTime => cacheTime <? stats_mtime
            end
      then
        match content file with
        | None => ([], c)
        | Some data => (data, mkCache (Some data) (Some stats_mtime))
        end
      else (default [] (plansCache c), c)
  end.

(** [purchaseSubscription] from its first line: the catalogue is read
    through the cache, then the purchase runs on it. *)
Definition purchase_with_catalogue (file : PlansFile) (c : PlansCache)
    (now : Z) (userId planId key : string) (st : State)
  : (PurchaseError + PurchaseResult) * State * PlansCache :=
  let '(plans, c') := getPlans false file c in
  (purchaseSubscription plans now userId planId key st, c').

(** ** The text of an expiry warning *)

Definition plural (n : Z) : string := if n =? 1 then EmptyString else "s".

(** [warningMessage] of [sendExpiryWarningChannelMessage], from
    [timeLeft = subscription.expires_at - now]. *)
Definition warningMessage (timeLeft : Z) : string :=
  let daysLeft := timeLeft / ms_per_day in
  let hoursLeft := Z.rem timeLeft ms_per_day / ms_per_hour in
  if 0 <? daysLeft then
    "Your subscription expires in " +:+ show daysLeft +:+ " day"
    +:+ plural daysLeft
    +:+ (if 0 <? hoursLeft then
           " and " +:+ show hoursLeft +:+ " hour" +:+ plural hoursLeft
         else EmptyString)
    +:+ "!"
  else if 0 <? hoursLeft then
    "Your subscription expires in " +:+ show hoursLeft +:+ " hour"
    +:+ plural hoursLeft +:+ "!"
  else "Your subscription expires very soon!".

(** ** Documents written by the migration script *)

Module OldSub.
(** The [subscription] object of a user document of the old structure,
    with the fields the script reads; dates as instants. *)
Record t := mk {
    plan_id : string;
    title : option string;
    role_id : option string;
    expires_at : Z;
    started_at : option Z;
    created_at : option Z;
    total_days : option Z;
    warning_sent : option bool
}.
End OldSub.

(** [a || b] on an optional text: [undefined] and the empty text are
    falsy. *)
Definition js_or_string (a : option string) (b : string) : string :=
  match a with
  | Some EmptyString | None => b
  | Some x => x
  end.

(** [a || b] on an optional integer: [undefined] and [0] are falsy. *)
Definition js_or_Z (a : option Z) (b : Z) : Z :=
  match a with
  | Some x => if x =? 0 then b else x
  | None => b
  end.

(** [newSubscription] of [migrateSubscriptions], built at instant [now]
    for the user [userId]. *)
Definition newSubscription (now : Z) (userId : string) (oldSub : OldSub.t)
  : Sub.t :=
  let isActive := now <? OldSub.expires_at oldSub in
  let start :=
    match OldSub.started_at oldSub with
    | Some t => t
    | None => default now (OldSub.created_at oldSub)
    end in
  Sub.mk userId (OldSub.plan_id oldSub)
    (js_or_string (OldSub.title oldSub) "Migrated Subscription")
    (OldSub.role_id oldSub)
    (if isActive then Active else Expired)
    start start (OldSub.expires_at oldSub)
    None
    (if isActive then None else Some (OldSub.expires_at oldSub))
    (js_or_Z (OldSub.total_days oldSub) 30)
    0 0 None None None None None None
    (default false (OldSub.warning_sent oldSub))
    None.

(** * Properties *)

(** ** Collections *)

Section Collections.
Context {A : Type}.
Implicit Types (q : A → bool) (c : gmap positive A).

Lemma find_all_spec q c k x :
  In (k, x) (find_all q c) ↔ c !! k = Some x ∧ q x = true.
Proof.
  unfold find_all. rewrite filter_In, <- list_elem_of_In, elem_of_map_to_list.
  reflexivity.
Qed.

Lemma find_all_nil q c :
  (∀ k x, c !! k = Some x → q x = false) → find_all q c = [].
Proof.
  intros Hno. destruct (find_all q c) as [|[k x] l] eqn:E; [reflexivity|].
  assert (Hin : In (k, x) (find_all q c)) by (rewrite E; left; reflexivity).
  apply find_all_spec in Hin as [Hk Hq]. rewrite (Hno _ _ Hk) in Hq. discriminate.
Qed.

Lemma find_all_NoDup q c : NoDup (find_all q c).*1.
Proof.
  unfold find_all.
  assert (Hnd : NoDup (map_to_list c).*1) by apply NoDup_fst_map_to_list.
  induction (map_to_list c) as [|[k x] l IH]; simpl in *; [constructor|].
  inversion Hnd as [|? ? Hk Hl]; subst.
  destruct (q x); simpl; [|auto].
  constructor; [|auto].
  intros Hin. apply Hk. apply list_elem_of_fmap in Hin as [[k' x'] [-> Hin]].
  apply list_elem_of_fmap. exists (k', x'). split; [reflexivity|].
  apply list_elem_of_In in Hin. apply filter_In in Hin as [Hin _].
  apply list_elem_of_In. exact Hin.
Qed.

Lemma find_one_Some q c k x :
  find_one q c = Some (k, x) → c !! k = Some x ∧ q x = true.
Proof.
  unfold find_one. intros H. apply find_some in H as [Hin Hq].
  apply list_elem_of_In, elem_of_map_to_list in Hin. auto.
Qed.

Lemma find_one_None q c k x :
  find_one q c = None → c !! k = Some x → q x = false.
Proof.
  unfold find_one. intros H Hk.
  apply (find_none _ _ H (k, x)).
  apply list_elem_of_In, elem_of_map_to_list. exact Hk.
Qed.

Lemma find_one_is_Some q c k x :
  c !! k = Some x → q x = true → is_Some (find_one q c).
Proof.
  intros Hk Hq. destruct (find_one q c) eqn:E; [eauto|].
  rewrite (find_one_None _ _ _ _ E Hk) in Hq. discriminate.
Qed.

Lemma insert_one_fresh (doc : A) c : c !! (insert_one doc c).1 = None.
Proof.
  simpl. apply not_elem_of_dom. apply is_fresh.
Qed.

End Collections.

(** ** What a committed purchase did *)

Lemma Qltb_false x y : Qltb x y = false → (y <= x)%Q.
Proof.
  unfold Qltb. intros H. apply negb_false_iff in H.
  apply Qle_bool_iff. exact H.
Qed.

Lemma Qltb_true x y : Qltb x y = true → (x < y)%Q.
Proof.
  unfold Qltb. intros H. apply negb_true_iff in H.
  apply Qnot_le_lt. intros Hle. apply Qle_bool_iff in Hle. congruence.
Qed.

Lemma renewable_spec u now s :
  renewable u now s = true
  ↔ Sub.user_id s = u ∧ Sub.status s = Active ∧ now < Sub.expires_at s.
Proof.
  unfold renewable. rewrite !andb_true_iff, String.eqb_eq, Z.ltb_lt.
  destruct (Sub.status s); simpl; intuition congruence.
Qed.

Lemma purchase_txn_inr now u plan price key st r st' :
  purchase_txn now u plan price key st = inr (r, st') →
  res_finalPrice r = price
  ∧ debited u price now st st'
  ∧ entitlement_change u plan price now st st' r
  ∧ logged key st st' r.
Proof.
  unfold purchase_txn, debited, entitlement_change, logged.
  destruct (users st !! u) as [user|] eqn:Hu; [|discriminate].
  destruct (Qltb _ price) eqn:Hb; [discriminate|].
  unfold insert_transaction. simpl.
  destruct (find_one (renewable u now) (subscriptions st)) as [[sid s]|] eqn:Hf;
    simpl;
    (destruct (find_one (has_key key) (transactions st)) eqn:Hk;
       [discriminate|]);
    intros [= <- <-]; simpl;
    (split; [reflexivity|]);
    (split; [exists user; repeat split; try assumption;
             apply map_eq; intros i; rewrite lookup_alter, lookup_insert;
             repeat case_decide; subst; try congruence; rewrite ?Hu; reflexivity|]);
    (split; [repeat split|]);
    repeat split; try reflexivity;
    apply not_elem_of_dom, is_fresh.
Qed.

Lemma purchase_inr plans now u planId key st r st' :
  purchaseSubscription plans now u planId key st = (inr r, st') →
  ∃ plan, find_plan plans planId = Some plan
    ∧ purchase_txn now u plan (calculateFinalPrice plan) key st = inr (r, st').
Proof.
  unfold purchaseSubscription, purchase_prepare, purchase_commit.
  destruct (find_plan plans planId) as [plan|]; [|discriminate].
  destruct (find_one (has_key key) (transactions st)); [discriminate|].
  destruct (purchase_txn _ _ _ _ _ _) as [e|[r' st'']] eqn:E; [discriminate|].
  intros [= <- <-]. eauto.
Qed.

(** A stored record with the key makes the duplicate check fire. *)
Lemma key_present_found key (txs : gmap positive Txn.t) tid t :
  txs !! tid = Some t → Txn.idempotency_key t = key →
  is_Some (find_one (has_key key) txs).
Proof.
  intros Ht Hk. eapply find_one_is_Some; [exact Ht|].
  unfold has_key. rewrite Hk. apply String.eqb_refl.
Qed.

Lemma duplicate_rejected plans now u planId plan key st :
  find_plan plans planId = Some plan →
  is_Some (find_one (has_key key) (transactions st)) →
  purchaseSubscription plans now u planId key st = (inl AlreadyProcessed, st).
Proof.
  intros Hp [x Hx]. unfold purchaseSubscription, purchase_prepare.
  rewrite Hp, Hx. reflexivity.
Qed.

(** The plan lookup comes first: with an unknown plan id the call reports
    the plan, not the duplicate. *)
Lemma unknown_plan_rejected plans now u planId key st :
  find_plan plans planId = None →
  purchaseSubscription plans now u planId key st = (inl PlanNotFound, st).
Proof.
  intros Hp. unfold purchaseSubscription, purchase_prepare.
  rewrite Hp. reflexivity.
Qed.

Lemma js_or_0 o : (js_or o 0 == default 0 o)%Q.
Proof.
  unfold js_or. destruct o as [x|]; simpl; [|reflexivity].
  destruct (Qeq_bool x 0) eqn:E; [|reflexivity].
  apply Qeq_bool_eq in E. rewrite E. reflexivity.
Qed.

(** The effect of the atomic unit when it commits, read off the stored
    documents. *)
Lemma purchase_txn_effect now u plan price key st r st' :
  purchase_txn now u plan price key st = inr (r, st') →
  res_finalPrice r = price
  ∧ charged_once u price now st st'
  ∧ entitled_once u plan price now st st' r
  ∧ recorded_once u key price st st' r.
Proof.
  unfold purchase_txn.
  destruct (users st !! u) as [user|] eqn:Hu; [|discriminate].
  destruct (Qltb _ price) eqn:Hb; [discriminate|].
  apply Qltb_false in Hb. rewrite js_or_0 in Hb.
  unfold insert_transaction. cbn [Txn.idempotency_key].
  destruct (find_one (has_key key) (transactions st)) eqn:Hk.
  { destruct (find_one (renewable u now) (subscriptions st)) as [[? ?]|];
      discriminate. }
  assert (Hcharged : ∀ subs' txs',
    charged_once u price now st
      (mkState
         (alter (set_balance (js_or (User.vv_balance user) 0 - price) now) u
            (users st)) subs' txs')).
  { intros subs' txs'.
    exists user,
      (set_balance (js_or (User.vv_balance user) 0 - price) now user),
      (js_or (User.vv_balance user) 0 - price)%Q.
    split; [exact Hu|].
    split; [simpl; rewrite lookup_alter, decide_True, Hu by reflexivity;
            reflexivity|].
    split; [exact Hb|]. split; [reflexivity|].
    split; [rewrite js_or_0; reflexivity|].
    split; [reflexivity|]. split; [reflexivity|].
    intros v Hv. simpl. rewrite lookup_alter, decide_False by congruence.
    reflexivity. }
  assert (Hrecorded : ∀ us' subs' sid kind,
    let doc := Txn.mk u sid (Plan.id plan) (Plan.title plan)
                 (Plan.price_vv plan) price (Plan.discount plan)
                 (Plan.price_vv plan - price)%Q kind now key
                 (js_or (User.vv_balance user) 0)
                 (js_or (User.vv_balance user) 0 - price)%Q
                 (Plan.days plan) in
    ∀ rsub ren,
    recorded_once u key price st
      (mkState us' subs' (insert_one doc (transactions st)).2)
      (mkResult price sid rsub (insert_one doc (transactions st)).1 doc
         ren user)).
  { intros us' subs' sid kind doc rsub ren. unfold recorded_once. simpl.
    split; [apply not_elem_of_dom, is_fresh|].
    split; [apply lookup_insert_eq|].
    split; [intros k Hne; apply lookup_insert_ne; congruence|].
    split; [|repeat split].
    intros k t Ht Hkey.
    pose proof (find_one_None _ _ _ _ Hk Ht) as Hf.
    unfold has_key in Hf. rewrite Hkey, String.eqb_refl in Hf.
    discriminate. }
  destruct (find_one (renewable u now) (subscriptions st)) as [[sid s]|] eqn:Hf.
  - intros [= <- <-]. split; [reflexivity|]. split; [apply Hcharged|].
    split; [|apply Hrecorded].
    apply find_one_Some in Hf as [Hs Hq].
    apply renewable_spec in Hq as (Hsu & Hact & Hexp).
    unfold entitled_once. simpl. split.
    + intros k Hne. rewrite lookup_alter, decide_False by congruence.
      reflexivity.
    + exists (renew plan price now s).
      split; [rewrite lookup_alter, decide_True, Hs by reflexivity;
              reflexivity|].
      split; [exact Hsu|]. split; [exact Hact|]. split; [reflexivity|].
      rewrite Hs.
      split; [reflexivity|]. split; [exact Hsu|]. split; [exact Hact|].
      split; [exact Hexp|]. split; [reflexivity|].
      split; [simpl; destruct (Sub.renewal_count s); reflexivity|].
      simpl. unfold inc_Q.
      destruct (Sub.total_paid_vv s) as [t|]; eexists;
        (split; [reflexivity|]); simpl; lra.
  - simpl. intros [= <- <-]. split; [reflexivity|]. split; [apply Hcharged|].
    split; [|apply Hrecorded].
    unfold entitled_once. simpl. split.
    + intros k Hne. apply lookup_insert_ne. congruence.
    + exists (new_subscription u plan price now).
      split; [apply lookup_insert_eq|].
      split; [reflexivity|]. split; [reflexivity|]. split; [reflexivity|].
      assert (Hfresh : subscriptions st !! fresh (dom (subscriptions st))
                       = None) by apply not_elem_of_dom, is_fresh.
      rewrite Hfresh. split; [reflexivity|].
      split; [|repeat split].
      intros k x Hx Hxu Hxa.
      pose proof (find_one_None _ _ _ _ Hf Hx) as Hq.
      destruct (Z_le_gt_dec (Sub.expires_at x) now) as [Hle|Hgt];
        [exact Hle|].
      assert (renewable u now x = true)
        by (apply renewable_spec; repeat split; [assumption..|lia]).
      congruence.
Qed.

(** ** Idempotency of a purchase (C1) *)

(** C1.  Two calls of [purchaseSubscription] in sequence with the same
    idempotency key, the second a duplicate of the first purchase (same
    plan id; any user, any later instant).  If the first call succeeds
    then it had exactly one effect, stated on the stored documents: the
    buyer's stored balance is the old balance minus the plan's final
    price and no other user changed; one entitlement document changed,
    either extended by the plan's days with one renewal more and the
    price added to its total, or created to run from the instant of the
    call for the plan's days, and every other entitlement is as it was;
    one record, carrying the key and the price, was added to the log and
    every other record is as it was.  The second call, run on any state
    in which that record is still present (in particular on the state the
    first call left), fails with "Transaction already processed" and
    returns that state unchanged, so the pair leaves the balance, the
    entitlements and the log exactly as the first call left them.  The
    same holds when the second call names any other plan of the
    catalogue. *)
Theorem C1_duplicate_key_single_effect
    plans now1 now2 u u2 planId key st r st1 :
  purchaseSubscription plans now1 u planId key st = (inr r, st1) →
  (∃ plan, find_plan plans planId = Some plan
     ∧ res_finalPrice r = calculateFinalPrice plan
     ∧ charged_once u (calculateFinalPrice plan) now1 st st1
     ∧ entitled_once u plan (calculateFinalPrice plan) now1 st st1 r
     ∧ recorded_once u key (calculateFinalPrice plan) st st1 r)
  ∧ transactions st1 !! res_transaction_id r = Some (res_transaction r)
  ∧ (∀ st2,
       transactions st2 !! res_transaction_id r = Some (res_transaction r) →
       purchaseSubscription plans now2 u2 planId key st2
       = (inl AlreadyProcessed, st2))
  ∧ (∀ st2 planId2,
       transactions st2 !! res_transaction_id r = Some (res_transaction r) →
       is_Some (find_plan plans planId2) →
       purchaseSubscription plans now2 u2 planId2 key st2
       = (inl AlreadyProcessed, st2))
  ∧ purchaseSubscription plans now2 u2 planId key st1
    = (inl AlreadyProcessed, st1).
Proof.
  intros H. apply purchase_inr in H as (plan & Hplan & Htxn).
  apply purchase_txn_effect in Htxn as (Hprice & Hcharged & Hent & Hrec).
  pose proof Hrec as (_ & Hin & _ & _ & Hkey & _).
  assert (Hany : ∀ st2 planId2,
             transactions st2 !! res_transaction_id r
             = Some (res_transaction r) →
             is_Some (find_plan plans planId2) →
             purchaseSubscription plans now2 u2 planId2 key st2
             = (inl AlreadyProcessed, st2)).
  { intros st2 planId2 Hst2 [plan2 Hplan2].
    eapply duplicate_rejected; [exact Hplan2|].
    eapply key_present_found; eassumption. }
  assert (Hdup : ∀ st2,
             transactions st2 !! res_transaction_id r
             = Some (res_transaction r) →
             purchaseSubscription plans now2 u2 planId key st2
             = (inl AlreadyProcessed, st2))
    by (intros st2 Hst2; apply Hany; eauto).
  split; [|split; [exact Hin|split; [exact Hdup|split; [exact Hany|]]]].
  - exists plan. auto.
  - apply Hdup, Hin.
Qed.

(** A purchase of the 200 VV, 30-day plan from a balance of 500 at
    instant 1000, then the same request again: the balance is 300, there
    is one entitlement, expiring 30 days after instant 1000, and one
    record, after the first call and after the pair. *)
Lemma C1_witness :
  ∃ r st1 s t,
    purchaseSubscription ex_plans 1000 "u1" "basic" "k-1" (ex_state 500)
    = (inr r, st1)
    ∧ users st1 !! "u1"%string ≫= User.vv_balance = Some 300%Q
    ∧ map_to_list (subscriptions st1) = [(res_subscription_id r, s)]
    ∧ Sub.expires_at s = 1000 + 30 * ms_per_day
    ∧ map_to_list (transactions st1) = [(res_transaction_id r, t)]
    ∧ purchaseSubscription ex_plans 2000 "u1" "basic" "k-1" st1
      = (inl AlreadyProcessed, st1).
Proof.
  eexists _, _, _, _. split; [vm_compute; reflexivity|].
  split; [vm_compute; reflexivity|].
  split; [vm_compute; reflexivity|].
  split; [vm_compute; reflexivity|].
  split; [vm_compute; reflexivity|].
  refine (proj2 (proj2 (proj2 (proj2
    (C1_duplicate_key_single_effect ex_plans 1000 2000 "u1" "u1" "basic" "k-1"
       (ex_state 500) _ _ _))))).
  vm_compute. reflexivity.
Defined.

(** Once the deferred clean-up has deleted the record, the key is free
    again: the same request is accepted and debits a second time. *)
Example key_free_after_cleanup :
  ∃ r1 st1 r2 st2,
    purchaseSubscription ex_plans 1000 "u1" "basic" "k-1" (ex_state 500)
    = (inr r1, st1)
    ∧ purchaseSubscription ex_plans 7000 "u1" "basic" "k-1"
        (cleanup_transaction (res_transaction_id r1) st1)
      = (inr r2, st2)
    ∧ (users st2 !! "u1"%string) ≫= User.vv_balance = Some 100%Q.
Proof.
  eexists _, _, _, _. split; [vm_compute; reflexivity|].
  split; vm_compute; reflexivity.
Qed.

(** ** Where the duplicate check sits (C2) *)

(** The atomic unit never commits on a log that already holds the key:
    whatever else happens, the insert into [transactions] is refused by
    the unique index. *)
Lemma purchase_txn_key_present now u plan price key st :
  is_Some (find_one (has_key key) (transactions st)) →
  ∃ e, purchase_txn now u plan price key st = inl e
    ∧ (e = UserNotFound
       ∨ e = InsufficientBalance
              (js_or (default None (User.vv_balance <$> users st !! u)) 0) price
       ∨ e = DuplicateKey).
Proof.
  intros [x Hx]. unfold purchase_txn.
  destruct (users st !! u) as [user|]; [|eauto].
  simpl. destruct (Qltb _ price); [eauto|].
  unfold insert_transaction. simpl.
  destruct (find_one (renewable u now) (subscriptions st)) as [[sid s]|];
    simpl; rewrite Hx; eauto.
Qed.

(** Two requests with key "k-1" both pass the duplicate check on
    [ex_state 300]; the first commits; the unit of the second then runs
    on [ex_after_first], finds 100 VV and reports the balance. *)
Example race_reports_balance :
  purchase_prepare ex_plans "basic" "k-1" (ex_state 300)
  = inr (ex_basic, 200%Q)
  ∧ is_Some (find_one (has_key "k-1") (transactions ex_after_first))
  ∧ purchase_commit 2000 "u1" ex_basic 200 "k-1" ex_after_first
    = (inl (InsufficientBalance 100 200), ex_after_first).
Proof.
  split; [vm_compute; reflexivity|].
  split; [vm_compute; eauto|].
  vm_compute. reflexivity.
Qed.

Lemma C2_counterexample : ¬ duplicate_check_inside_unit.
Proof.
  intros H.
  specialize (H 2000 "u1"%string ex_basic 200%Q "k-1"%string ex_after_first).
  assert (Hk : is_Some (find_one (has_key "k-1") (transactions ex_after_first)))
    by (vm_compute; eauto).
  specialize (H Hk). vm_compute in H. discriminate H.
Qed.

(** C2, amended.  The duplicate check runs once, before the atomic unit
    is opened.  When the log of the state a call runs on holds the key
    and the plan id is known, the check fires: the call answers
    "Transaction already processed" whoever the user is and whatever the
    balance, and writes nothing.  The check is not repeated inside the
    unit: a unit that starts on such a log (its call passed the check on
    an earlier state) cannot commit either, since the unique index on
    [idempotency_key] refuses the insert and the unit is rolled back, but
    it reports a missing user, an insufficient balance or the store's
    duplicate-key error, never "Transaction already processed". *)
Theorem C2_duplicate_check_precedes_unit plans planId plan key st :
  find_plan plans planId = Some plan →
  is_Some (find_one (has_key key) (transactions st)) →
  purchase_prepare plans planId key st = inl AlreadyProcessed
  ∧ (∀ now u,
       purchaseSubscription plans now u planId key st
       = (inl AlreadyProcessed, st))
  ∧ (∀ now u plan' price,
       ∃ e, purchase_commit now u plan' price key st = (inl e, st)
         ∧ e ≠ AlreadyProcessed
         ∧ (e = UserNotFound
            ∨ (∃ have, e = InsufficientBalance have price)
            ∨ e = DuplicateKey)).
Proof.
  intros Hp Hk. split; [|split].
  - destruct Hk as [x Hx]. unfold purchase_prepare. rewrite Hp, Hx. reflexivity.
  - intros now u. eapply duplicate_rejected; eassumption.
  - intros now u plan' price.
    destruct (purchase_txn_key_present now u plan' price key st Hk)
      as (e & He & Hcases).
    exists e. unfold purchase_commit. rewrite He.
    split; [reflexivity|].
    destruct Hcases as [->|[->| ->]]; split; try discriminate; eauto.
Qed.

Lemma C2_witness :
  purchase_prepare ex_plans "basic" "k-1" ex_after_first = inl AlreadyProcessed
  ∧ (∀ now u,
       purchaseSubscription ex_plans now u "basic" "k-1" ex_after_first
       = (inl AlreadyProcessed, ex_after_first))
  ∧ (∀ now u plan' price,
       ∃ e, purchase_commit now u plan' price "k-1" ex_after_first
            = (inl e, ex_after_first)
         ∧ e ≠ AlreadyProcessed
         ∧ (e = UserNotFound
            ∨ (∃ have, e = InsufficientBalance have price)
            ∨ e = DuplicateKey)).
Proof.
  apply (C2_duplicate_check_precedes_unit ex_plans "basic" ex_basic "k-1"
           ex_after_first).
  - vm_compute. reflexivity.
  - vm_compute. eauto.
Defined.

(** ** Balance non-negativity (C3) *)

Lemma Qmax_0_nonneg x : (0 <= Qmax 0 x)%Q.
Proof. apply Q.le_max_l. Qed.

(** A purchase, committed or not, keeps every balance non-negative: the
    debit is only made after [userBalance < finalPrice] was found false. *)
Lemma purchase_keeps_balances_nonneg plans now u planId key st res st' :
  balances_nonneg st →
  purchaseSubscription plans now u planId key st = (res, st') →
  balances_nonneg st'.
Proof.
  intros Hinv H. destruct res as [e|r].
  - assert (st' = st) as ->; [|exact Hinv].
    revert H. unfold purchaseSubscription, purchase_commit.
    destruct (purchase_prepare _ _ _ _) as [?|[? ?]]; [congruence|].
    destruct (purchase_txn _ _ _ _ _ _) as [?|[? ?]]; congruence.
  - apply purchase_inr in H as (plan & _ & Htxn).
    apply purchase_txn_inr in Htxn as (_ & (user & Hu & Hb & Hus) & _ & _).
    intros v user' b Hv Hbal. rewrite Hus in Hv.
    destruct (decide (u = v)) as [<-|Hne].
    + rewrite lookup_insert_eq in Hv. injection Hv as <-.
      simpl in Hbal. injection Hbal as <-.
      apply Qltb_false in Hb. lra.
    + rewrite lookup_insert_ne in Hv by exact Hne. eauto.
Qed.

(** A purchase that reaches the balance test with too small a balance is
    rejected as a whole: nothing is written. *)
Lemma purchase_insufficient_unchanged plans now u planId plan key st user :
  find_plan plans planId = Some plan →
  find_one (has_key key) (transactions st) = None →
  users st !! u = Some user →
  (js_or (User.vv_balance user) 0 < calculateFinalPrice plan)%Q →
  purchaseSubscription plans now u planId key st
  = (inl (InsufficientBalance (js_or (User.vv_balance user) 0)
            (calculateFinalPrice plan)), st).
Proof.
  intros Hp Hk Hu Hlt.
  unfold purchaseSubscription, purchase_prepare, purchase_commit, purchase_txn.
  rewrite Hp, Hk, Hu.
  destruct (Qltb _ _) eqn:Hb; [reflexivity|].
  apply Qltb_false in Hb. lra.
Qed.

(** The [subtract] operation clamps at 0, and [set] and [add] keep the
    invariant when the amount is not negative. *)
Lemma adjust_keeps_balances_nonneg now u amount op st st' :
  balances_nonneg st →
  op = "subtract"%string ∨ (0 <= amount)%Q →
  adjust_balance now u amount op st = inr st' →
  balances_nonneg st'.
Proof.
  intros Hinv Hop. unfold adjust_balance.
  destruct (users st !! u) as [user|] eqn:Hu; [|discriminate].
  assert (Hcur : (0 <= js_or (User.vv_balance user) 0)%Q).
  { unfold js_or. destruct (User.vv_balance user) as [b|] eqn:Hb; [|lra].
    destruct (Qeq_bool b 0); [lra|]. eapply Hinv; eassumption. }
  set (cur := js_or (User.vv_balance user) 0) in *.
  assert (Hnew : ∀ b,
    (if String.eqb op "set" then Some amount
     else if String.eqb op "add" then Some (cur + amount)%Q
     else if String.eqb op "subtract" then Some (Qmax 0 (cur - amount))
     else None) = Some b → (0 <= b)%Q).
  { intros b. destruct Hop as [->|Hamt]; simpl.
    - intros [= <-]. apply Qmax_0_nonneg.
    - destruct (String.eqb op "set"); [intros [= <-]; exact Hamt|].
      destruct (String.eqb op "add"); [intros [= <-]; lra|].
      destruct (String.eqb op "subtract"); [|discriminate].
      intros [= <-]. apply Qmax_0_nonneg. }
  destruct (if String.eqb op "set" then _ else _) as [b|]; [|discriminate].
  intros [= <-]. intros v user' b' Hv Hb'. simpl in Hv.
  rewrite lookup_alter in Hv. case_decide as Hvu.
  - subst v. rewrite Hu in Hv. injection Hv as <-.
    simpl in Hb'. injection Hb' as <-. apply Hnew. reflexivity.
  - eauto.
Qed.

(** Over any sequence of purchases and sign-checked adjustments the
    balances stay non-negative. *)
Lemma sequences_keep_balances_nonneg plans rqs st :
  balances_nonneg st → Forall sign_checked rqs →
  balances_nonneg (fold_left (serve plans) rqs st).
Proof.
  intros Hinv Hrqs. revert st Hinv.
  induction Hrqs as [|rq rqs Hrq _ IH]; intros st Hinv; [exact Hinv|].
  simpl. apply IH. destruct rq as [now u planId key|now u amount op]; simpl.
  - destruct (purchaseSubscription plans now u planId key st) as [res st'] eqn:E.
    eapply purchase_keeps_balances_nonneg; eassumption.
  - destruct (adjust_balance now u amount op st) as [e|st'] eqn:E;
      [exact Hinv|].
    eapply adjust_keeps_balances_nonneg; eassumption.
Qed.

(** C3 does not hold of the balance route.  An administrator posts
    [{ amount: "-5", operation: "set" }] for a user who holds 500 VV: the
    route stores the amount as it is, and the balance is -5.  The same
    happens with [{ amount: "-600", operation: "add" }]. *)
Theorem C3_admin_adjustment_goes_negative :
  balances_nonneg (ex_state 500)
  ∧ (∃ st', adjust_balance 1000 "u1" (-5) "set" (ex_state 500) = inr st'
        ∧ (User.vv_balance <$> users st' !! "u1"%string) = Some (Some (-5)%Q)
        ∧ ¬ balances_nonneg st')
  ∧ (∃ st', adjust_balance 1000 "u1" (-600) "add" (ex_state 500) = inr st'
        ∧ ¬ balances_nonneg st').
Proof.
  split; [|split].
  - intros u user b Hu Hb. unfold ex_state in Hu. simpl in Hu.
    apply lookup_singleton_Some in Hu as [_ <-]. simpl in Hb.
    injection Hb as <-. lra.
  - eexists. split; [vm_compute; reflexivity|]. split; [vm_compute; reflexivity|].
    intros Hinv.
    specialize (Hinv "u1"%string (User.mk "alice" (Some (-5)%Q) (Some 1000))
                  (-5)%Q eq_refl eq_refl).
    lra.
  - eexists. split; [vm_compute; reflexivity|].
    intros Hinv.
    specialize (Hinv "u1"%string
                  (User.mk "alice" (Some (-100 # 1)%Q) (Some 1000))
                  (-100 # 1)%Q eq_refl eq_refl).
    lra.
Qed.

(** ** Renewal and first purchase (C4, C10) *)

(** C4.  A committed purchase by a user who holds an active entitlement
    expiring strictly after [now] extends an entitlement of that kind in
    place (the one the lookup returns; the held one when it is the only
    such): the stored document keeps its id, its [expires_at] becomes
    the old [expires_at] plus the plan's days (not [now] plus them),
    [renewal_count] grows by one, [total_paid_vv] grows by the final
    price, no document is added, and [isRenewal] is returned true. *)
Theorem C4_renewal_extends_in_place
    plans now u planId key st r st' sid0 s0 :
  subscriptions st !! sid0 = Some s0 →
  Sub.user_id s0 = u → Sub.status s0 = Active → now < Sub.expires_at s0 →
  purchaseSubscription plans now u planId key st = (inr r, st') →
  renewed_in_place plans planId now u st st' r sid0.
Proof.
  intros Hs0 Hu0 Hact0 Hexp0 H.
  apply purchase_inr in H as (plan & Hplan & Htxn).
  apply purchase_txn_inr in Htxn as (Hprice & _ & Hent & _).
  unfold entitlement_change in Hent.
  assert (Hr0 : renewable u now s0 = true) by (apply renewable_spec; auto).
  destruct (find_one (renewable u now) (subscriptions st)) as [[sid s]|] eqn:Hf.
  2:{ rewrite (find_one_None _ _ _ _ Hf Hs0) in Hr0. discriminate. }
  destruct Hent as (Hren & Hsid & Hview & Hsubs).
  apply find_one_Some in Hf as [Hs Hq].
  pose proof (proj1 (renewable_spec _ _ _) Hq) as (Hu & Hact & Hexp).
  exists plan, sid, s, (renew plan (calculateFinalPrice plan) now s).
  assert (Hins : subscriptions st'
                 = <[sid := renew plan (calculateFinalPrice plan) now s]>
                     (subscriptions st)).
  { rewrite Hsubs. apply map_eq. intros i.
    rewrite lookup_alter, lookup_insert.
    repeat case_decide; subst; try congruence. rewrite Hs. reflexivity. }
  repeat (split; [first [assumption | eauto; fail]|]).
  split; [rewrite Hins; apply dom_insert_lookup_L; eauto|].
  split; [reflexivity|].
  split; [rewrite Hview; reflexivity|].
  split; [simpl; destruct (Sub.renewal_count s); reflexivity|].
  split; [|exact Hact].
  rewrite Hprice. simpl. unfold inc_Q.
  destruct (Sub.total_paid_vv s) as [t|]; eexists; (split; [reflexivity|]);
    simpl; lra.
Qed.

Lemma C4_witness :
  ∃ r st',
    purchaseSubscription ex_plans 2000 "u1" "mini" "k-2" ex_subscribed
    = (inr r, st')
    ∧ renewed_in_place ex_plans "mini" 2000 "u1" ex_subscribed st' r 1.
Proof.
  eexists _, _. split; [vm_compute; reflexivity|].
  eapply (C4_renewal_extends_in_place ex_plans 2000 "u1" "mini" "k-2").
  - vm_compute. reflexivity.
  - reflexivity.
  - reflexivity.
  - vm_compute. reflexivity.
  - vm_compute. reflexivity.
Defined.

(** The spec's end-to-end scenario: 500 VV, a 30-day plan at 200 VV, then
    a 15-day plan at 100 VV before expiry. *)
Example end_to_end_scenario :
  ∃ r st' s',
    purchaseSubscription ex_plans 2000 "u1" "mini" "k-2" ex_subscribed
    = (inr r, st')
    ∧ (User.vv_balance <$> users ex_subscribed !! "u1"%string)
      = Some (Some 300%Q)
    ∧ (User.vv_balance <$> users st' !! "u1"%string) = Some (Some 200%Q)
    ∧ map_to_list (subscriptions st') = [(1%positive, s')]
    ∧ Sub.expires_at s' = 1000 + 30 * ms_per_day + 15 * ms_per_day
    ∧ Sub.renewal_count s' = Some 1
    ∧ Sub.total_paid_vv s' = Some 300%Q.
Proof.
  eexists _, _, _. split; [vm_compute; reflexivity|].
  repeat split; vm_compute; reflexivity.
Qed.

(** C10.  A committed purchase by a user whose only subscription is
    marked active but expired at or before [now]: the renewal lookup
    finds nothing, a new document is inserted with
    [expires_at = now + days] and [isRenewal = false], and the user then
    has two documents, the stale one untouched and still marked active. *)
Theorem C10_stale_active_gets_second_record
    plans now u planId key st r st' sid0 s0 :
  subscriptions st !! sid0 = Some s0 →
  Sub.user_id s0 = u → Sub.status s0 = Active → Sub.expires_at s0 <= now →
  (∀ k x, subscriptions st !! k = Some x → Sub.user_id x = u → k = sid0) →
  purchaseSubscription plans now u planId key st = (inr r, st') →
  find_one (renewable u now) (subscriptions st) = None
  ∧ bought_beside_stale plans planId now u st st' r sid0 s0.
Proof.
  intros Hs0 Hu0 Hact0 Hexp0 Honly H.
  assert (Hnone : find_one (renewable u now) (subscriptions st) = None).
  { destruct (find_one _ _) as [[k x]|] eqn:Hf; [|reflexivity].
    apply find_one_Some in Hf as [Hk Hq].
    apply renewable_spec in Hq as (Hu & _ & Hexp).
    assert (k = sid0) as -> by eauto.
    rewrite Hs0 in Hk. injection Hk as <-. lia. }
  split; [exact Hnone|].
  apply purchase_inr in H as (plan & Hplan & Htxn).
  apply purchase_txn_inr in Htxn as (Hprice & _ & Hent & _).
  unfold entitlement_change in Hent. rewrite Hnone in Hent.
  destruct Hent as (Hren & Hsid & Hview & Hsubs).
  assert (Hfresh : subscriptions st !! res_subscription_id r = None).
  { rewrite Hsid. apply not_elem_of_dom, is_fresh. }
  assert (Hne : res_subscription_id r ≠ sid0) by congruence.
  exists plan, (new_subscription u plan (calculateFinalPrice plan) now).
  rewrite <- Hsid in Hsubs.
  repeat (split; [first [assumption | reflexivity]|]).
  split.
  - rewrite Hsubs, lookup_insert_ne by exact Hne. exact Hs0.
  - intros k x Hk Hx. rewrite Hsubs in Hk.
    destruct (decide (res_subscription_id r = k)) as [->|Hk'];
      [right; reflexivity|].
    rewrite lookup_insert_ne in Hk by exact Hk'. left. eauto.
Qed.

Lemma C10_witness :
  ∃ r st' s0,
    subscriptions ex_subscribed !! 1%positive = Some s0
    ∧ purchaseSubscription ex_plans ex_later "u1" "mini" "k-2" ex_subscribed
      = (inr r, st')
    ∧ bought_beside_stale ex_plans "mini" ex_later "u1" ex_subscribed st' r
        1 s0.
Proof.
  eexists _, _, _. split; [vm_compute; reflexivity|].
  split; [vm_compute; reflexivity|].
  eapply (C10_stale_active_gets_second_record ex_plans ex_later "u1" "mini"
            "k-2" ex_subscribed).
  - vm_compute. reflexivity.
  - reflexivity.
  - reflexivity.
  - vm_compute. discriminate.
  - intros k x Hk _.
    destruct (decide (k = 1%positive)) as [->|Hne]; [reflexivity|].
    exfalso. revert Hk. unfold ex_subscribed.
    set (m := subscriptions _).
    assert (Hm : m = {[1%positive :=
        new_subscription "u1" ex_basic 200 1000]}) by (vm_compute; reflexivity).
    rewrite Hm, lookup_singleton_ne by congruence. discriminate.
  - vm_compute. reflexivity.
Defined.

(** ** Discount arithmetic (C5) *)

Lemma price_without_discount plan :
  Plan.discount plan = None →
  calculateFinalPrice plan = Plan.price_vv plan
  ∧ discountAmount (calculateFinalPriceInfo plan) = 0%Q.
Proof.
  intros H. unfold calculateFinalPrice, calculateFinalPriceInfo.
  rewrite H. split; reflexivity.
Qed.

Lemma price_with_fixed_discount plan v :
  Plan.discount plan = Some (Discount.mk "fixed" v) →
  (calculateFinalPrice plan == Qmax 0 (Plan.price_vv plan - v))%Q
  ∧ (0 <= calculateFinalPrice plan)%Q
  ∧ (discountAmount (calculateFinalPriceInfo plan)
     == Plan.price_vv plan - calculateFinalPrice plan)%Q.
Proof.
  intros H. unfold calculateFinalPrice, calculateFinalPriceInfo.
  rewrite H. simpl. split; [reflexivity|]. split; [|reflexivity].
  apply Qmax_0_nonneg.
Qed.

(** The percent branch multiplies and does not floor: the result is
    non-negative only while the percentage stays within 0..100. *)
Lemma price_with_percent_discount plan v :
  Plan.discount plan = Some (Discount.mk "percent" v) →
  (calculateFinalPrice plan == Plan.price_vv plan * (1 - v / 100))%Q
  ∧ (discountAmount (calculateFinalPriceInfo plan)
     == Plan.price_vv plan - calculateFinalPrice plan)%Q
  ∧ ((0 <= Plan.price_vv plan)%Q → (v <= 100)%Q →
     (0 <= calculateFinalPrice plan)%Q).
Proof.
  intros H. unfold calculateFinalPrice, calculateFinalPriceInfo.
  rewrite H. simpl. split; [reflexivity|]. split; [reflexivity|].
  intros Hp Hv. apply Qmult_le_0_compat; [exact Hp|].
  assert (Hdiv : (v / 100 <= 1)%Q).
  { apply Qle_shift_div_r; [reflexivity|]. lra. }
  lra.
Qed.

(** The two worked examples of the spec. *)
Example quarter_off_100 :
  (finalPrice (calculateFinalPriceInfo ex_quarter_off) == 75)%Q
  ∧ (discountAmount (calculateFinalPriceInfo ex_quarter_off) == 25)%Q.
Proof. split; vm_compute; reflexivity. Qed.

Example fixed_150_off_100 :
  (finalPrice (calculateFinalPriceInfo ex_fixed_150) == 0)%Q
  ∧ (discountAmount (calculateFinalPriceInfo ex_fixed_150) == 100)%Q.
Proof. split; vm_compute; reflexivity. Qed.

(** C5 does not hold of the percent branch.  A plan priced 100 with
    [{ type: "percent", value: 150 }]: the final price is -50, not the
    floored 0, and the reported discount is 150, not 100.  A buyer of
    that plan is credited 50 VV. *)
Theorem C5_percent_discount_is_not_floored :
  (calculateFinalPrice ex_percent_150 == -50)%Q
  ∧ ¬ (calculateFinalPrice ex_percent_150
       == Qmax 0 (100 * (1 - 150 / 100)))%Q
  ∧ (discountAmount (calculateFinalPriceInfo ex_percent_150) == 150)%Q
  ∧ (∃ r st',
       purchaseSubscription ex_plans 1000 "u1" "oops" "k-9" (ex_state 500)
       = (inr r, st')
       ∧ ∃ b, (users st' !! "u1"%string) ≫= User.vv_balance = Some b
           ∧ (b == 550)%Q).
Proof.
  split; [vm_compute; reflexivity|].
  split; [vm_compute; discriminate|].
  split; [vm_compute; reflexivity|].
  eexists _, _. split; [vm_compute; reflexivity|].
  eexists. split; vm_compute; reflexivity.
Qed.

(** ** Sweep loops *)

Lemma warn_body_alters env now :
  body_alters (warn_body env now) (mark_warned now) (warn_ok env).
Proof.
  intros sid s m. unfold warn_body, warn_ok.
  destruct (notify_warning env sid); [|reflexivity].
  destruct (warn_update_fails env sid); reflexivity.
Qed.

Lemma process_alters env now :
  body_alters (processExpiredSubscription env now) (mark_expired now)
    (λ sid, negb (expire_update_fails env sid)).
Proof.
  intros sid s m. unfold processExpiredSubscription.
  destruct (expire_update_fails env sid); reflexivity.
Qed.

Section Loop.
Context (body : positive * Sub.t → gmap positive Sub.t →
                bool * gmap positive Sub.t * list Event)
        (f : Sub.t → Sub.t) (succ : positive → bool).
Hypothesis Hbody : body_alters body f succ.

Lemma loop_cons item items r :
  for_each_isolated body (item :: items) r
  = for_each_isolated body items
      (mkRun (body item (run_subs r)).1.2
         (run_events r ++ (body item (run_subs r)).2)
         (if (body item (run_subs r)).1.1 then S (run_count r)
          else run_count r)).
Proof.
  unfold for_each_isolated. simpl.
  destruct (body item (run_subs r)) as [[ok m] evs]. reflexivity.
Qed.

Lemma loop_lookup_other items r k :
  k ∉ items.*1 ∨ succ k = false →
  run_subs (for_each_isolated body items r) !! k = run_subs r !! k.
Proof.
  revert r. induction items as [|[sid s] items IH]; intros r Hk; [reflexivity|].
  rewrite loop_cons, IH.
  - simpl. rewrite Hbody. destruct (succ sid) eqn:Hs; [|reflexivity].
    apply lookup_alter_ne. intros ->. destruct Hk as [Hk|Hk]; [|congruence].
    apply Hk. simpl. left.
  - destruct Hk as [Hk|Hk]; [left|right; exact Hk].
    intros Hin. apply Hk. simpl. right. exact Hin.
Qed.

Hypothesis Hidem : ∀ s, f (f s) = f s.

Lemma loop_lookup_hit items r k :
  k ∈ items.*1 → succ k = true →
  run_subs (for_each_isolated body items r) !! k = f <$> run_subs r !! k.
Proof.
  revert r. induction items as [|[sid s] items IH]; intros r Hk Hs.
  - simpl in Hk. inversion Hk.
  - rewrite loop_cons.
    destruct (decide (k ∈ items.*1)) as [Hin|Hout].
    + rewrite IH by assumption. simpl. rewrite Hbody.
      destruct (succ sid) eqn:Hsid; [|reflexivity].
      destruct (decide (sid = k)) as [->|Hne].
      * rewrite lookup_alter_eq. destruct (run_subs r !! k); simpl; [|reflexivity].
        rewrite Hidem. reflexivity.
      * rewrite lookup_alter_ne by exact Hne. reflexivity.
    + rewrite loop_lookup_other by (left; exact Hout).
      simpl in Hk. apply elem_of_cons in Hk as [->|Hk]; [|contradiction].
      simpl. rewrite Hbody, Hs. apply lookup_alter_eq.
Qed.

(** With every item succeeding, a loop over the documents selected by a
    query maps the collection pointwise. *)
Lemma loop_fmap (q : Sub.t → bool) m :
  (∀ sid, succ sid = true) →
  run_subs (for_each_isolated body (find_all q m) (start_run m))
  = (λ s, if q s then f s else s) <$> m.
Proof.
  intros Hall. apply map_eq. intros k. rewrite lookup_fmap.
  destruct (m !! k) as [s|] eqn:Hk; simpl.
  - destruct (q s) eqn:Hq.
    + rewrite loop_lookup_hit; [simpl; rewrite Hk; reflexivity| |apply Hall].
      apply list_elem_of_fmap. exists (k, s). split; [reflexivity|].
      apply list_elem_of_In, find_all_spec. auto.
    + rewrite loop_lookup_other; [exact Hk|]. left.
      intros Hin. apply list_elem_of_fmap in Hin as [[k' s'] [Heq Hin]].
      simpl in Heq. subst k'.
      apply list_elem_of_In, find_all_spec in Hin as [Hk' Hq'].
      congruence.
  - rewrite loop_lookup_other; [exact Hk|]. left.
    intros Hin. apply list_elem_of_fmap in Hin as [[k' s'] [Heq Hin]].
    simpl in Heq. subst k'.
    apply list_elem_of_In, find_all_spec in Hin as [Hk' _]. congruence.
Qed.

End Loop.

(** ** Counting "expired" notifications *)

Lemma expired_notices_app sid evs1 evs2 :
  expired_notices sid (evs1 ++ evs2)
  = (expired_notices sid evs1 + expired_notices sid evs2)%nat.
Proof.
  unfold expired_notices. rewrite List.filter_app, length_app. reflexivity.
Qed.

Lemma process_events env now sid s m k :
  expired_notices k (processExpiredSubscription env now (sid, s) m).2
  = if decide (sid = k) then (if expire_update_fails env sid then 0 else 1)%nat
    else 0%nat.
Proof.
  unfold processExpiredSubscription.
  set (revoke := match has_role s with Some _ => _ | None => _ end).
  assert (Hrev : expired_notices k revoke = 0%nat).
  { unfold revoke. destruct (has_role s); [|reflexivity].
    destruct (discord_configured env); reflexivity. }
  destruct (expire_update_fails env sid); simpl.
  - rewrite Hrev. case_decide; reflexivity.
  - rewrite expired_notices_app, Hrev. unfold expired_notices. simpl.
    case_decide as Hd.
    + subst. rewrite Pos.eqb_refl. reflexivity.
    + apply Pos.eqb_neq in Hd. rewrite Hd. reflexivity.
Qed.

Lemma process_loop_events_miss env now items r k :
  k ∉ items.*1 →
  expired_notices k
    (run_events (for_each_isolated (processExpiredSubscription env now) items r))
  = expired_notices k (run_events r).
Proof.
  revert r. induction items as [|[sid s] items IH]; intros r Hk; [reflexivity|].
  rewrite loop_cons, IH.
  - cbn [run_events]. rewrite expired_notices_app, process_events.
    case_decide as Hd; [|lia]. subst. exfalso. apply Hk. simpl. left.
  - intros Hin. apply Hk. simpl. right. exact Hin.
Qed.

Lemma process_loop_events_hit env now items r k :
  NoDup items.*1 → k ∈ items.*1 → expire_update_fails env k = false →
  expired_notices k
    (run_events (for_each_isolated (processExpiredSubscription env now) items r))
  = S (expired_notices k (run_events r)).
Proof.
  revert r. induction items as [|[sid s] items IH]; intros r Hnd Hk Hok.
  - inversion Hk.
  - simpl in Hnd, Hk. apply NoDup_cons in Hnd as [Hsid Hnd].
    rewrite loop_cons.
    apply elem_of_cons in Hk as [->|Hk].
    + rewrite process_loop_events_miss by exact Hsid.
      cbn [run_events]. rewrite expired_notices_app, process_events, Hok.
      rewrite decide_True by reflexivity. lia.
    + rewrite IH by assumption.
      cbn [run_events]. rewrite expired_notices_app, process_events.
      rewrite decide_False; [lia|]. intros ->. contradiction.
Qed.

Lemma warn_loop_events env now items r k :
  expired_notices k
    (run_events (for_each_isolated (warn_body env now) items r))
  = expired_notices k (run_events r).
Proof.
  revert r. induction items as [|[sid s] items IH]; intros r; [reflexivity|].
  rewrite loop_cons, IH. cbn [run_events]. rewrite expired_notices_app.
  unfold warn_body. destruct (notify_warning env sid);
    [destruct (warn_update_fails env sid)|]; cbn; lia.
Qed.

(** ** The queries *)

Lemma expired_query_spec now s :
  expired_query now s = true
  ↔ Sub.status s = Active ∧ Sub.expires_at s < now.
Proof.
  unfold expired_query. rewrite andb_true_iff, Z.ltb_lt.
  destruct (Sub.status s); simpl; intuition congruence.
Qed.

Lemma missed_warning_query_spec now s :
  missed_warning_query now s = true
  ↔ Sub.status s = Active ∧ Sub.warning_sent s = false
    ∧ now < Sub.expires_at s < now + ms_per_day.
Proof.
  unfold missed_warning_query.
  rewrite !andb_true_iff, !Z.ltb_lt, negb_true_iff.
  destruct (Sub.status s); simpl; intuition congruence.
Qed.

Lemma warning_query_spec env now s :
  warning_query env now s = true
  ↔ Sub.status s = Active ∧ Sub.warning_sent s = false
    ∧ today_start env now <= Sub.expires_at s <= tomorrow_end env now.
Proof.
  unfold warning_query.
  rewrite !andb_true_iff, !Z.leb_le, negb_true_iff.
  destruct (Sub.status s); simpl; intuition congruence.
Qed.

(** The day window of [sendExpiryWarnings] starts at or before [now] and
    ends between one and two days after it. *)
Lemma day_window_bounds env now :
  today_start env now <= now < today_start env now + ms_per_day
  ∧ now + ms_per_day <= tomorrow_end env now + 1 <= now + 2 * ms_per_day.
Proof.
  unfold tomorrow_end, today_start.
  pose proof (Z.mod_pos_bound (now + tz_offset env) ms_per_day eq_refl).
  lia.
Qed.

(** ** One run of a pass *)

Lemma handled_lookup env now subs sid s :
  subs !! sid = Some s → expired_query now s = true →
  expire_update_fails env sid = false →
  run_subs (handleExpiredSubscriptions env now subs) !! sid
  = Some (mark_expired now s)
  ∧ expired_notices sid
      (run_events (handleExpiredSubscriptions env now subs)) = 1%nat.
Proof.
  intros Hs Hq Hok. unfold handleExpiredSubscriptions.
  assert (Hin : sid ∈ (find_all (expired_query now) subs).*1).
  { apply list_elem_of_fmap. exists (sid, s). split; [reflexivity|].
    apply list_elem_of_In, find_all_spec. auto. }
  split.
  - rewrite (loop_lookup_hit _ _ _ (process_alters env now)).
    + simpl. rewrite Hs. reflexivity.
    + reflexivity.
    + exact Hin.
    + rewrite Hok. reflexivity.
  - rewrite process_loop_events_hit; [reflexivity| |exact Hin|exact Hok].
    apply find_all_NoDup.
Qed.

(** ** Expiry pass: per-item isolation (C9) *)

(** C9.  In a run of the expiry pass, a subscription that is selected
    (active, [expires_at] before [now]) and whose own status write the
    store accepts ends up expired, with [expired_at = now], and its
    "expired" notification is requested once, whatever the environment
    does otherwise: the role-removal call may throw, the notification
    call may throw, and the write for any other selected subscription may
    be refused. *)
Theorem C9_expiry_pass_isolates_failures env now subs sid s :
  subs !! sid = Some s →
  Sub.status s = Active → Sub.expires_at s < now →
  expire_update_fails env sid = false →
  ∃ s', run_subs (handleExpiredSubscriptions env now subs) !! sid = Some s'
    ∧ s' = mark_expired now s
    ∧ Sub.status s' = Expired
    ∧ Sub.expired_at s' = Some now
    ∧ expired_notices sid
        (run_events (handleExpiredSubscriptions env now subs)) = 1%nat.
Proof.
  intros Hs Hact Hexp Hok.
  assert (Hq : expired_query now s = true) by (apply expired_query_spec; auto).
  destruct (handled_lookup env now subs sid s Hs Hq Hok) as [Hl He].
  exists (mark_expired now s). auto.
Qed.

Lemma C9_witness :
  expire_update_fails ex_env_failing 1 = true
  ∧ remove_role ex_env_failing "u2" "role-1" = Threw
  ∧ notify_expired ex_env_failing 2 = Threw
  ∧ ∃ s', run_subs (handleExpiredSubscriptions ex_env_failing ex_midnight
                      ex_two_stale) !! 2%positive = Some s'
      ∧ s' = mark_expired ex_midnight (ex_sub "u2" (ex_midnight - 2 * ms_per_day))
      ∧ Sub.status s' = Expired
      ∧ Sub.expired_at s' = Some ex_midnight
      ∧ expired_notices 2
          (run_events (handleExpiredSubscriptions ex_env_failing ex_midnight
                         ex_two_stale)) = 1%nat.
Proof.
  split; [reflexivity|]. split; [reflexivity|]. split; [reflexivity|].
  apply (C9_expiry_pass_isolates_failures ex_env_failing ex_midnight
           ex_two_stale 2).
  - vm_compute. reflexivity.
  - reflexivity.
  - vm_compute. reflexivity.
  - reflexivity.
Defined.

(** ** Recovery sweep catches up (C8) *)

(** C8.  A subscription that is active with [expires_at] strictly before
    [now], however far, is after one run of the recovery sweep stored as
    expired with [expired_at = now], and the run requested exactly one
    "expired" notification for it; the store is assumed to accept the
    status write for that subscription. *)
Theorem C8_recovery_expires_stale env now st sid s :
  subscriptions st !! sid = Some s →
  Sub.status s = Active → Sub.expires_at s < now →
  expire_update_fails env sid = false →
  ∃ s', subscriptions (runRecoveryCheck env now st).1 !! sid = Some s'
    ∧ s' = mark_expired now s
    ∧ Sub.status s' = Expired
    ∧ Sub.expired_at s' = Some now
    ∧ expired_notices sid (runRecoveryCheck env now st).2 = 1%nat.
Proof.
  intros Hs Hact Hexp Hok.
  assert (Hq : expired_query now s = true) by (apply expired_query_spec; auto).
  destruct (handled_lookup env now (subscriptions st) sid s Hs Hq Hok)
    as [Hl He].
  unfold handleExpiredSubscriptions in Hl, He.
  exists (mark_expired now s). unfold runRecoveryCheck.
  cbn [fst snd subscriptions with_subscriptions].
  repeat split.
  - rewrite (loop_lookup_other _ _ _ (warn_body_alters env now)); [exact Hl|].
    left. intros Hin. apply list_elem_of_fmap in Hin as [[k x] [Heq Hin]].
    simpl in Heq. subst k.
    apply list_elem_of_In, find_all_spec in Hin as [Hk Hx].
    rewrite Hl in Hk. injection Hk as <-.
    apply missed_warning_query_spec in Hx as [Hst _]. discriminate Hst.
  - rewrite !expired_notices_app, He, warn_loop_events.
    unfold refresh_if. destruct (_ && _); reflexivity.
Qed.

Lemma C8_witness :
  ∃ s', subscriptions
          (runRecoveryCheck ex_env ex_midnight
             (mkState ∅ ex_two_stale ∅)).1 !! 1%positive = Some s'
    ∧ s' = mark_expired ex_midnight (ex_sub "u1" (ex_midnight - 3 * ms_per_day))
    ∧ Sub.status s' = Expired
    ∧ Sub.expired_at s' = Some ex_midnight
    ∧ expired_notices 1
        (runRecoveryCheck ex_env ex_midnight (mkState ∅ ex_two_stale ∅)).2
      = 1%nat.
Proof.
  apply (C8_recovery_expires_stale ex_env ex_midnight
           (mkState ∅ ex_two_stale ∅) 1).
  - vm_compute. reflexivity.
  - reflexivity.
  - vm_compute. reflexivity.
  - reflexivity.
Defined.

(** ** Running a sweep twice (C7) *)

Lemma warn_pass_fmap env now q m :
  fault_free env →
  run_subs (for_each_isolated (warn_body env now) (find_all q m) (start_run m))
  = pass_on q (mark_warned now) <$> m.
Proof.
  intros Hff.
  apply (loop_fmap _ _ _ (warn_body_alters env now)); [reflexivity|].
  intros sid. unfold warn_ok. destruct (Hff sid) as (_ & -> & ->). reflexivity.
Qed.

Lemma expiry_pass_fmap env now m :
  fault_free env →
  run_subs (handleExpiredSubscriptions env now m)
  = pass_on (expired_query now) (mark_expired now) <$> m.
Proof.
  intros Hff.
  apply (loop_fmap _ _ _ (process_alters env now)); [reflexivity|].
  intros sid. destruct (Hff sid) as (-> & _). reflexivity.
Qed.

Lemma warning_query_tz env1 env2 now s :
  tz_offset env2 = tz_offset env1 →
  warning_query env2 now s = warning_query env1 now s.
Proof.
  intros H. unfold warning_query, tomorrow_end, today_start. rewrite H.
  reflexivity.
Qed.

(** After a fault-free scheduler run no document answers either query. *)
Lemma scheduler_leaves_nothing env now s :
  let s' := pass_on (expired_query now) (mark_expired now)
              (pass_on (warning_query env now) (mark_warned now) s) in
  warning_query env now s' = false ∧ expired_query now s' = false.
Proof.
  unfold pass_on.
  destruct (warning_query env now s) eqn:Hw.
  - destruct (expired_query now (mark_warned now s)) eqn:He; simpl.
    + split; reflexivity.
    + split; [|exact He].
      unfold warning_query. simpl. rewrite andb_false_r. reflexivity.
  - destruct (expired_query now s) eqn:He; simpl.
    + split; reflexivity.
    + auto.
Qed.

(** After a fault-free recovery run no document answers either query. *)
Lemma recovery_leaves_nothing now s :
  let s' := pass_on (missed_warning_query now) (mark_warned now)
              (pass_on (expired_query now) (mark_expired now) s) in
  expired_query now s' = false ∧ missed_warning_query now s' = false.
Proof.
  unfold pass_on.
  destruct (expired_query now s) eqn:He.
  - simpl. split; reflexivity.
  - destruct (missed_warning_query now s) eqn:Hw.
    + split.
      * unfold expired_query in *. simpl. exact He.
      * unfold missed_warning_query. simpl. rewrite andb_false_r. reflexivity.
    + auto.
Qed.

Lemma loop_nil body r : for_each_isolated body [] r = r.
Proof. reflexivity. Qed.

(** A query that no image of [g] answers selects nothing after [g] was
    applied to every document. *)
Lemma find_all_fmap_nil (q : Sub.t → bool) (g : Sub.t → Sub.t)
    (m : gmap positive Sub.t) :
  (∀ s, q (g s) = false) → find_all q (g <$> m) = [].
Proof.
  intros Hq. apply find_all_nil. intros k x Hk.
  rewrite lookup_fmap in Hk.
  destruct (m !! k) as [s|]; [|discriminate].
  simpl in Hk. injection Hk as <-. apply Hq.
Qed.

(** The collection a fault-free scheduler run leaves. *)
Lemma checkExpiries_fault_free env now st :
  fault_free env →
  (checkExpiries env now st).1
  = with_subscriptions st
      ((λ s, pass_on (expired_query now) (mark_expired now)
               (pass_on (warning_query env now) (mark_warned now) s))
         <$> subscriptions st).
Proof.
  intros Hff. unfold checkExpiries, sendExpiryWarnings. cbn [fst].
  rewrite (warn_pass_fmap env now _ _ Hff), (expiry_pass_fmap env now _ Hff).
  rewrite <- map_fmap_compose. reflexivity.
Qed.

(** The collection a fault-free recovery run leaves. *)
Lemma runRecoveryCheck_fault_free env now st :
  fault_free env →
  (runRecoveryCheck env now st).1
  = with_subscriptions st
      ((λ s, pass_on (missed_warning_query now) (mark_warned now)
               (pass_on (expired_query now) (mark_expired now) s))
         <$> subscriptions st).
Proof.
  intros Hff. unfold runRecoveryCheck. cbn [fst].
  pose proof (expiry_pass_fmap env now (subscriptions st) Hff) as HE.
  unfold handleExpiredSubscriptions in HE. rewrite HE.
  rewrite (warn_pass_fmap env now _ _ Hff).
  rewrite <- map_fmap_compose. reflexivity.
Qed.

(** C7.  Run the scheduler sweep, or the recovery sweep, in an
    environment where no warning call throws and no write is refused, and
    run it again at the same clock value (same time zone, any outcomes):
    the second run selects nothing for warning and nothing for expiry,
    returns the state unchanged and makes no call to the notification
    sink. *)
Theorem C7_second_sweep_is_noop env1 env2 now st :
  fault_free env1 → tz_offset env2 = tz_offset env1 →
  (let st1 := (checkExpiries env1 now st).1 in
   find_all (warning_query env2 now) (subscriptions st1) = []
   ∧ find_all (expired_query now) (subscriptions st1) = []
   ∧ checkExpiries env2 now st1 = (st1, []))
  ∧ (let st1 := (runRecoveryCheck env1 now st).1 in
     find_all (expired_query now) (subscriptions st1) = []
     ∧ find_all (missed_warning_query now) (subscriptions st1) = []
     ∧ runRecoveryCheck env2 now st1 = (st1, [])).
Proof.
  intros Hff Htz. split; cbn zeta.
  - rewrite (checkExpiries_fault_free env1 now st Hff).
    cbn [subscriptions with_subscriptions].
    set (m1 := _ <$> subscriptions st).
    assert (Hw : find_all (warning_query env2 now) m1 = []).
    { apply find_all_fmap_nil. intros s.
      rewrite (warning_query_tz env1 env2) by exact Htz.
      apply scheduler_leaves_nothing. }
    assert (He : find_all (expired_query now) m1 = []).
    { apply find_all_fmap_nil. intros s.
      apply (scheduler_leaves_nothing env1). }
    split; [exact Hw|]. split; [exact He|].
    unfold checkExpiries, sendExpiryWarnings, handleExpiredSubscriptions.
    cbn [subscriptions with_subscriptions].
    rewrite Hw, loop_nil. cbn [run_subs start_run].
    rewrite He, loop_nil. reflexivity.
  - rewrite (runRecoveryCheck_fault_free env1 now st Hff).
    cbn [subscriptions with_subscriptions].
    set (m1 := _ <$> subscriptions st).
    assert (He : find_all (expired_query now) m1 = []).
    { apply find_all_fmap_nil. intros s. apply recovery_leaves_nothing. }
    assert (Hw : find_all (missed_warning_query now) m1 = []).
    { apply find_all_fmap_nil. intros s. apply recovery_leaves_nothing. }
    split; [exact He|]. split; [exact Hw|].
    unfold runRecoveryCheck. cbn [subscriptions with_subscriptions].
    rewrite He, loop_nil. cbn [run_subs start_run].
    rewrite Hw, loop_nil. reflexivity.
Qed.

Lemma C7_witness :
  (let st1 := (checkExpiries ex_env ex_midnight (mkState ∅ ex_mixed ∅)).1 in
   find_all (warning_query ex_env_failing ex_midnight) (subscriptions st1) = []
   ∧ find_all (expired_query ex_midnight) (subscriptions st1) = []
   ∧ checkExpiries ex_env_failing ex_midnight st1 = (st1, []))
  ∧ (let st1 := (runRecoveryCheck ex_env ex_midnight
                   (mkState ∅ ex_mixed ∅)).1 in
     find_all (expired_query ex_midnight) (subscriptions st1) = []
     ∧ find_all (missed_warning_query ex_midnight) (subscriptions st1) = []
     ∧ runRecoveryCheck ex_env_failing ex_midnight st1 = (st1, [])).
Proof.
  apply (C7_second_sweep_is_noop ex_env ex_env_failing ex_midnight
           (mkState ∅ ex_mixed ∅)).
  - intros sid. repeat split; reflexivity.
  - reflexivity.
Defined.

(** The first run of that example does change the state: it is the
    second run that has nothing left to do. *)
Example first_sweep_acts :
  (Sub.status <$> subscriptions
     (checkExpiries ex_env ex_midnight (mkState ∅ ex_mixed ∅)).1 !! 1%positive)
  = Some Expired
  ∧ (Sub.warning_sent <$> subscriptions
       (checkExpiries ex_env ex_midnight (mkState ∅ ex_mixed ∅)).1 !! 2%positive)
    = Some true
  ∧ subscriptions
      (checkExpiries ex_env ex_midnight (mkState ∅ ex_mixed ∅)).1 !! 3%positive
    = Some (ex_sub "u3" (ex_midnight + 40 * ms_per_day)).
Proof. repeat split; vm_compute; reflexivity. Qed.

(** ** The warning pass (C6) *)

(** The recovery sweep warns about exactly the active, not yet warned
    subscriptions that expire strictly within the next 24 hours. *)
Lemma recovery_warning_selection now subs k s :
  In (k, s) (find_all (missed_warning_query now) subs)
  ↔ subs !! k = Some s
    ∧ Sub.status s = Active ∧ Sub.warning_sent s = false
    ∧ now < Sub.expires_at s < now + ms_per_day.
Proof. rewrite find_all_spec, missed_warning_query_spec. reflexivity. Qed.

(** The scheduler warns about the active, not yet warned subscriptions
    that expire between local midnight before [now] and the last
    millisecond of the next day. *)
Lemma scheduler_warning_selection env now subs k s :
  In (k, s) (find_all (warning_query env now) subs)
  ↔ subs !! k = Some s
    ∧ Sub.status s = Active ∧ Sub.warning_sent s = false
    ∧ today_start env now <= Sub.expires_at s <= tomorrow_end env now.
Proof. rewrite find_all_spec, warning_query_spec. reflexivity. Qed.

(** A selected subscription whose warning call returns and whose write
    is accepted is marked: [warning_sent = true], [warning_sent_at = now]. *)
Lemma warned_is_marked env now subs k s :
  subs !! k = Some s → warning_query env now s = true →
  notify_warning env k = Returned → warn_update_fails env k = false →
  run_subs (sendExpiryWarnings env now subs) !! k = Some (mark_warned now s)
  ∧ Sub.warning_sent (mark_warned now s) = true
  ∧ Sub.warning_sent_at (mark_warned now s) = Some now.
Proof.
  intros Hk Hq Hn Hu. split; [|split; reflexivity].
  unfold sendExpiryWarnings.
  rewrite (loop_lookup_hit _ _ _ (warn_body_alters env now)).
  - simpl. rewrite Hk. reflexivity.
  - reflexivity.
  - apply list_elem_of_fmap. exists (k, s). split; [reflexivity|].
    apply list_elem_of_In, find_all_spec. auto.
  - unfold warn_ok. rewrite Hn, Hu. reflexivity.
Qed.

(** C6 does not hold of the scheduler's warning pass.  The scheduler
    runs at 01:00 UTC.  One
    active subscription expires 40 hours later, another expired half an
    hour earlier (at 00:30 of the same day) and has not been swept yet.
    Neither expires within the next 24 hours, and the recovery query
    selects neither; [sendExpiryWarnings] warns about both and marks
    both. *)
Theorem C6_scheduler_warns_outside_24_hours :
  let now := ex_midnight + ms_per_hour in
  let far := ex_sub "u1" (now + 40 * ms_per_hour) in
  let past := ex_sub "u2" (now - 30 * 60 * 1000) in
  let subs : gmap positive Sub.t := {[ 1%positive := far; 2%positive := past ]} in
  let run := sendExpiryWarnings ex_env now subs in
  ¬ (now < Sub.expires_at far < now + ms_per_day)
  ∧ ¬ (now < Sub.expires_at past < now + ms_per_day)
  ∧ find_all (missed_warning_query now) subs = []
  ∧ run_subs run !! 1%positive = Some (mark_warned now far)
  ∧ run_subs run !! 2%positive = Some (mark_warned now past)
  ∧ In (WarningNotice 1 Returned) (run_events run)
  ∧ In (WarningNotice 2 Returned) (run_events run)
  ∧ run_count run = 2%nat.
Proof.
  cbn zeta.
  split; [vm_compute; intros [_ H]; discriminate H|].
  split; [vm_compute; intros [H _]; discriminate H|].
  split; [vm_compute; reflexivity|].
  split; [vm_compute; reflexivity|].
  split; [vm_compute; reflexivity|].
  split; [vm_compute; auto|].
  split; [vm_compute; auto|].
  vm_compute. reflexivity.
Qed.

(** * Properties of the further parts *)

(** ** Counting documents *)

Section Counting.
Context {A : Type}.
Implicit Types (q : A → bool) (c : gmap positive A).

Lemma find_all_keys q c k :
  k ∈ (find_all q c).*1 ↔ q <$> c !! k = Some true.
Proof.
  rewrite list_elem_of_fmap. split.
  - intros [[k' x] [-> Hin]]. apply list_elem_of_In, find_all_spec in Hin.
    destruct Hin as [Hk Hq]. simpl. rewrite Hk. simpl. rewrite Hq. reflexivity.
  - destruct (c !! k) as [x|] eqn:Hk; [|discriminate].
    simpl. intros [= Hq]. exists (k, x). split; [reflexivity|].
    apply list_elem_of_In, find_all_spec. auto.
Qed.

(** Two collections whose documents answer a query alike, key by key,
    hold as many matching documents. *)
Lemma count_documents_agree q c c' :
  (∀ k, q <$> c' !! k = q <$> c !! k) →
  count_documents q c' = count_documents q c.
Proof.
  intros Hag. unfold count_documents.
  rewrite <- (length_fmap fst (find_all q c')), <- (length_fmap fst (find_all q c)).
  apply Permutation_length, NoDup_Permutation; try apply find_all_NoDup.
  intros k. rewrite !find_all_keys, Hag. reflexivity.
Qed.

Lemma count_documents_insert_fresh q c i x :
  c !! i = None →
  count_documents q (<[i := x]> c)
  = ((if q x then 1 else 0) + count_documents q c)%nat.
Proof.
  intros Hi. unfold count_documents, find_all.
  assert (Hp : map_to_list (<[i := x]> c) ≡ₚ (i, x) :: map_to_list c)
    by (apply map_to_list_insert; exact Hi).
  assert (Hlen : ∀ l l' : list (positive * A), l ≡ₚ l' →
            length (List.filter (λ kv, q kv.2) l)
            = length (List.filter (λ kv, q kv.2) l')).
  { induction 1 as [|y l l' _ IH|y z l|l1 l2 l3 _ IH1 _ IH2]; simpl.
    - reflexivity.
    - destruct (q y.2); simpl; congruence.
    - destruct (q y.2), (q z.2); reflexivity.
    - congruence. }
  rewrite (Hlen _ _ Hp). simpl. destruct (q x); reflexivity.
Qed.

End Counting.

(** ** The active count across sweeps and purchases *)

Section LoopView.
Context {B : Type} (v : Sub.t → B).
Context (body : positive * Sub.t → gmap positive Sub.t →
                bool * gmap positive Sub.t * list Event)
        (f : Sub.t → Sub.t) (succ : positive → bool)
        (P : Sub.t → Prop).
Hypothesis Hbody : body_alters body f succ.
Hypothesis Hkeep : ∀ d, P d → v (f d) = v d ∧ P (f d).

(** A loop whose writes do not change the view [v] of the documents they
    touch leaves [v] as it was, key by key. *)
Lemma loop_keeps_view items r :
  (∀ sid s d, (sid, s) ∈ items → run_subs r !! sid = Some d → P d) →
  ∀ k, v <$> run_subs (for_each_isolated body items r) !! k
       = v <$> run_subs r !! k.
Proof.
  revert r. induction items as [|[sid s] items IH]; intros r HP k;
    [reflexivity|].
  rewrite loop_cons, IH.
  - cbn [run_subs]. rewrite Hbody. destruct (succ sid); [|reflexivity].
    rewrite lookup_alter. case_decide as Hk; [|reflexivity]. subst k.
    destruct (run_subs r !! sid) as [d|] eqn:Hd; [|reflexivity].
    simpl. f_equal. apply Hkeep. eapply HP; [left|exact Hd].
  - intros sid' s' d Hin. cbn [run_subs]. rewrite Hbody.
    destruct (succ sid); [|intros Hd; eapply HP; [right; exact Hin|exact Hd]].
    rewrite lookup_alter. case_decide as Hk.
    + subst sid'. destruct (run_subs r !! sid) as [d0|] eqn:Hd0; [|discriminate].
      simpl. intros [= <-]. apply Hkeep. eapply HP; [left|exact Hd0].
    + intros Hd. eapply HP; [right; exact Hin|exact Hd].
Qed.

End LoopView.

Lemma active_at_mark_warned now t d :
  active_at now (mark_warned t d) = active_at now d.
Proof. reflexivity. Qed.

Lemma active_at_mark_expired now t d :
  Sub.expires_at d < now →
  active_at now (mark_expired t d) = active_at now d.
Proof.
  intros H. unfold active_at. simpl.
  assert (Hf : (now <? Sub.expires_at d) = false) by (apply Z.ltb_ge; lia).
  rewrite Hf, !andb_false_r. reflexivity.
Qed.

Lemma warn_loop_keeps_active env now t q m k :
  active_at now
    <$> run_subs (for_each_isolated (warn_body env t) (find_all q m)
                    (start_run m)) !! k
  = active_at now <$> m !! k.
Proof.
  apply (loop_keeps_view (active_at now) _ _ _ (λ _, True)
           (warn_body_alters env t)); auto.
Qed.

Lemma expiry_loop_keeps_active env now m k :
  active_at now
    <$> run_subs (for_each_isolated (processExpiredSubscription env now)
                    (find_all (expired_query now) m) (start_run m)) !! k
  = active_at now <$> m !! k.
Proof.
  apply (loop_keeps_view (active_at now) _ _ _
           (λ d, Sub.expires_at d < now) (process_alters env now)).
  - intros d Hd. split; [apply active_at_mark_expired; exact Hd|exact Hd].
  - intros sid s d Hin Hd. cbn [run_subs start_run] in Hd.
    apply list_elem_of_In, find_all_spec in Hin as [Hs Hq].
    rewrite Hs in Hd. injection Hd as <-.
    apply expired_query_spec in Hq. tauto.
Qed.

(** A sweep expires only subscriptions that had already run out, so the
    number of active subscriptions shown in the bot's presence, taken at
    the instant of the sweep, is the same before and after it, whatever
    fails during the sweep. *)
Theorem sweeps_keep_active_count env now st :
  getActiveSubscriptionCount now (subscriptions (checkExpiries env now st).1)
  = getActiveSubscriptionCount now (subscriptions st)
  ∧ getActiveSubscriptionCount now
      (subscriptions (runRecoveryCheck env now st).1)
    = getActiveSubscriptionCount now (subscriptions st).
Proof.
  unfold getActiveSubscriptionCount. split; apply count_documents_agree;
    intros k.
  - unfold checkExpiries, handleExpiredSubscriptions, sendExpiryWarnings.
    cbn [fst subscriptions with_subscriptions].
    rewrite expiry_loop_keeps_active. apply warn_loop_keeps_active.
  - unfold runRecoveryCheck. cbn [fst subscriptions with_subscriptions].
    rewrite warn_loop_keeps_active. apply expiry_loop_keeps_active.
Qed.

(** A committed purchase of a plan that lasts at least a day adds one
    active subscription when it is a first purchase and none when it is
    a renewal. *)
Theorem purchase_active_count plans now u planId key st r st' :
  (∀ plan, find_plan plans planId = Some plan → 0 < Plan.days plan) →
  purchaseSubscription plans now u planId key st = (inr r, st') →
  getActiveSubscriptionCount now (subscriptions st')
  = ((if res_isRenewal r then 0 else 1)
     + getActiveSubscriptionCount now (subscriptions st))%nat.
Proof.
  intros Hdays H. apply purchase_inr in H as (plan & Hplan & Htxn).
  specialize (Hdays plan Hplan).
  apply purchase_txn_inr in Htxn as (_ & _ & Hent & _).
  unfold entitlement_change in Hent. unfold getActiveSubscriptionCount.
  destruct (find_one (renewable u now) (subscriptions st)) as [[sid s]|] eqn:Hf.
  - destruct Hent as (-> & _ & _ & ->). simpl.
    apply count_documents_agree. intros k. rewrite lookup_alter.
    case_decide as Hk; [|reflexivity]. subst k.
    apply find_one_Some in Hf as [Hs Hq]. rewrite Hs. simpl. f_equal.
    apply renewable_spec in Hq as (_ & Hact & Hexp).
    unfold active_at. simpl. rewrite Hact. simpl.
    assert (Hms : 0 < ms_per_day) by reflexivity.
    transitivity true; [|symmetry]; apply Z.ltb_lt; nia.
  - destruct Hent as (-> & _ & _ & ->).
    rewrite count_documents_insert_fresh by (apply not_elem_of_dom, is_fresh).
    assert (Hnew : active_at now
                     (new_subscription u plan (calculateFinalPrice plan) now)
                   = true).
    { unfold active_at. simpl. apply Z.ltb_lt.
      assert (Hms : 0 < ms_per_day) by reflexivity. nia. }
    rewrite Hnew. reflexivity.
Qed.

Lemma purchase_active_count_witness :
  ∃ r st',
    purchaseSubscription ex_plans 1000 "u1" "basic" "k-1" (ex_state 500)
    = (inr r, st')
    ∧ getActiveSubscriptionCount 1000 (subscriptions st')
      = ((if res_isRenewal r then 0 else 1)
         + getActiveSubscriptionCount 1000 (subscriptions (ex_state 500)))%nat.
Proof.
  eexists _, _. split; [vm_compute; reflexivity|].
  apply (purchase_active_count ex_plans 1000 "u1" "basic" "k-1" (ex_state 500)).
  - intros plan Hplan. vm_compute in Hplan. injection Hplan as <-. reflexivity.
  - vm_compute. reflexivity.
Defined.

(** ** The profile view *)

Lemma js_round_clamped x :
  (0 <= x)%Q → (x <= 100)%Q → 0 <= js_round x <= 100.
Proof.
  intros H0 H100. unfold js_round. split.
  - change 0 with (Qfloor 0%Q). apply Qfloor_resp_le. lra.
  - change 100 with (Qfloor (100 + (1 # 2))%Q). apply Qfloor_resp_le. lra.
Qed.

Lemma clamp_bounds x : (0 <= Qmin 100 (Qmax 0 x) <= 100)%Q.
Proof.
  split.
  - apply Q.min_glb; [lra|apply Q.le_max_l].
  - apply Q.le_min_l.
Qed.

(** What the profile shows for a user is a subscription of that user
    that is active and not yet run out; the time left is split so that
    months and days add up to the whole days, days stay below 30, hours
    below 24, and days and hours together are the time left rounded down
    to the hour; the progress is a number from 0 to 100, never [NaN]. *)
Theorem profile_view_is_consistent now u subs v :
  getUserActiveSubscription now u subs = Some v →
  let s := Profile.subscription v in
  let tl := Profile.time_left v in
  subs !! Profile.subscription_id v = Some s
  ∧ Sub.user_id s = u ∧ Sub.status s = Active ∧ now < Sub.expires_at s
  ∧ TimeLeft.months tl * 30 + TimeLeft.days tl = TimeLeft.total_days tl
  ∧ 0 <= TimeLeft.months tl
  ∧ 0 <= TimeLeft.days tl < 30
  ∧ 0 <= TimeLeft.hours tl < 24
  ∧ TimeLeft.total_days tl * ms_per_day + TimeLeft.hours tl * ms_per_hour
    <= Sub.expires_at s - now
    < TimeLeft.total_days tl * ms_per_day
      + (TimeLeft.hours tl + 1) * ms_per_hour
  ∧ ∃ p, Profile.progress_percent v = Some p ∧ 0 <= p <= 100.
Proof.
  unfold getUserActiveSubscription.
  destruct (find_one (renewable u now) subs) as [[sid s]|] eqn:Hf;
    [|discriminate].
  intros [= <-]. cbn zeta. cbn [Profile.subscription Profile.time_left
    Profile.subscription_id Profile.progress_percent].
  apply find_one_Some in Hf as [Hs Hq].
  apply renewable_spec in Hq as (Hu & Hact & Hexp).
  repeat (split; [assumption|]).
  set (t := Sub.expires_at s - now). assert (Ht : 0 < t) by (unfold t; lia).
  unfold time_left_of. cbn [TimeLeft.months TimeLeft.days TimeLeft.hours
    TimeLeft.total_days].
  assert (Hday : ms_per_day = 24 * ms_per_hour) by reflexivity.
  assert (Hhour : 0 < ms_per_hour) by reflexivity.
  rewrite !Z.rem_mod_nonneg;
    try lia; try (apply Z.div_pos; lia).
  pose proof (Z.div_mod t ms_per_day ltac:(lia)) as Ht1.
  pose proof (Z.mod_pos_bound t ms_per_day ltac:(lia)) as Ht2.
  pose proof (Z.div_pos t ms_per_day ltac:(lia) ltac:(lia)) as Ht3.
  set (d := t / ms_per_day) in *. set (m := t mod ms_per_day) in *.
  pose proof (Z.div_mod d 30 ltac:(lia)) as Hd1.
  pose proof (Z.mod_pos_bound d 30 ltac:(lia)) as Hd2.
  pose proof (Z.div_pos d 30 ltac:(lia) ltac:(lia)) as Hd3.
  pose proof (Z.div_mod m ms_per_hour ltac:(lia)) as Hm1.
  pose proof (Z.mod_pos_bound m ms_per_hour ltac:(lia)) as Hm2.
  pose proof (Z.div_pos m ms_per_hour ltac:(lia) ltac:(lia)) as Hm3.
  assert (Hh : m / ms_per_hour < 24).
  { apply Z.div_lt_upper_bound; lia. }
  repeat split; try lia.
  unfold progressPercent.
  destruct (Sub.expires_at s - Sub.started_at s =? 0) eqn:Htot.
  - apply Z.eqb_eq in Htot.
    assert (Hel : now - Sub.started_at s < 0) by lia.
    destruct (now - Sub.started_at s =? 0) eqn:He0;
      [apply Z.eqb_eq in He0; lia|].
    destruct (0 <? now - Sub.started_at s) eqn:He1;
      [apply Z.ltb_lt in He1; lia|].
    exists 0. split; [reflexivity|lia].
  - eexists. split; [reflexivity|].
    apply js_round_clamped; apply clamp_bounds.
Qed.

Lemma profile_view_is_consistent_witness :
  ∃ v, getUserActiveSubscription 2000 "u1" (subscriptions ex_subscribed)
       = Some v
    ∧ TimeLeft.total_days (Profile.time_left v) = 29
    ∧ TimeLeft.hours (Profile.time_left v) = 23
    ∧ ∃ p, Profile.progress_percent v = Some p ∧ 0 <= p <= 100.
Proof.
  eexists. split; [vm_compute; reflexivity|].
  split; [vm_compute; reflexivity|]. split; [vm_compute; reflexivity|].
  refine (proj2 (proj2 (proj2 (proj2 (proj2 (proj2 (proj2 (proj2 (proj2
    (profile_view_is_consistent 2000 "u1" (subscriptions ex_subscribed) _ _)
    ))))))))).
  vm_compute. reflexivity.
Defined.



(** ** The scheduler's clock *)


(** ** Duration text *)

Example formatDuration_samples :
  formatDuration 400 = "1 Year 35 Days"%string
  ∧ formatDuration 365 = "1 Year"%string
  ∧ formatDuration 45 = "1 Month 15 Days"%string
  ∧ formatDuration 14 = "2 Weeks"%string
  ∧ formatDuration 8 = "1 Week 1 Days"%string
  ∧ formatDuration 1 = "1 Day"%string
  ∧ formatDuration 0 = "0 Days"%string.
Proof. repeat split; vm_compute; reflexivity. Qed.

Lemma split_at_space a b :
  space_free a = true →
  before_space (a +:+ " " +:+ b) = a ∧ after_space (a +:+ " " +:+ b) = b.
Proof.
  induction a as [|c a IH]; simpl; [auto|].
  intros H. apply andb_true_iff in H as [Hc Ha].
  apply negb_true_iff in Hc. rewrite Hc.
  destruct (IH Ha) as [-> ->]. auto.
Qed.

Lemma pretty_N_go_space_free x s :
  space_free s = true → space_free (pretty_N_go x s) = true.
Proof.
  revert s. induction (N.lt_wf_0 x) as [x _ IH]; intros s Hs.
  assert (x = 0 ∨ 0 < x)%N as [->|Hx] by lia.
  - rewrite pretty_N_go_0. exact Hs.
  - rewrite pretty_N_go_step by exact Hx. apply IH.
    + apply N.div_lt; [exact Hx|reflexivity].
    + simpl. rewrite Hs, andb_true_r.
      unfold pretty_N_char. repeat case_match; reflexivity.
Qed.

Lemma show_space_free n : space_free (show n) = true.
Proof.
  unfold show, pretty, pretty_Z.
  assert (HN : ∀ p : positive, space_free (pretty p) = true).
  { intros p. unfold pretty, pretty_positive, pretty, pretty_N.
    case_decide; [reflexivity|]. apply pretty_N_go_space_free. reflexivity. }
  destruct n; [reflexivity|apply HN|]. simpl. apply HN.
Qed.

(** The leading number of a text [n unit...] can be read back. *)
Lemma show_prefix_inj n1 n2 r1 r2 :
  show n1 +:+ " " +:+ r1 = show n2 +:+ " " +:+ r2 → n1 = n2 ∧ r1 = r2.
Proof.
  intros H.
  pose proof (split_at_space (show n1) r1 (show_space_free n1)) as [Hb1 Ha1].
  pose proof (split_at_space (show n2) r2 (show_space_free n2)) as [Hb2 Ha2].
  rewrite H in Hb1, Ha1. split; [|congruence].
  apply (inj pretty). unfold show in *. congruence.
Qed.

Lemma bucket_split d u :
  0 < u → u <= d → d = u * (d / u) + Z.rem d u.
Proof.
  intros Hu Hd. rewrite Z.rem_mod_nonneg by lia. apply Z.div_mod. lia.
Qed.

Lemma formatDuration_inj d1 d2 :
  formatDuration d1 = formatDuration d2 → d1 = d2.
Proof.
  unfold formatDuration.
  destruct (365 <=? d1) eqn:Y1; [apply Z.leb_le in Y1|apply Z.leb_gt in Y1];
  (destruct (365 <=? d2) eqn:Y2; [apply Z.leb_le in Y2|apply Z.leb_gt in Y2]);
  [ pose proof (bucket_split d1 365 ltac:(lia) Y1) as S1;
    pose proof (bucket_split d2 365 ltac:(lia) Y2) as S2
  | pose proof (bucket_split d1 365 ltac:(lia) Y1) as S1
  | pose proof (bucket_split d2 365 ltac:(lia) Y2) as S2
  | ].
  all: try (destruct (30 <=? d1) eqn:M1;
            [apply Z.leb_le in M1;
             pose proof (bucket_split d1 30 ltac:(lia) M1) as S1'
            |apply Z.leb_gt in M1]).
  all: try (destruct (30 <=? d2) eqn:M2;
            [apply Z.leb_le in M2;
             pose proof (bucket_split d2 30 ltac:(lia) M2) as S2'
            |apply Z.leb_gt in M2]).
  all: try (destruct (7 <=? d1) eqn:W1;
            [apply Z.leb_le in W1;
             pose proof (bucket_split d1 7 ltac:(lia) W1) as S1''
            |apply Z.leb_gt in W1]).
  all: try (destruct (7 <=? d2) eqn:W2;
            [apply Z.leb_le in W2;
             pose proof (bucket_split d2 7 ltac:(lia) W2) as S2''
            |apply Z.leb_gt in W2]).
  all: cbn zeta.
  all: repeat match goal with
       | |- context [Z.rem ?d ?u =? 0] =>
           let E := fresh "E" in
           destruct (Z.rem d u =? 0) eqn:E;
           [apply Z.eqb_eq in E|apply Z.eqb_neq in E]
       end.
  all: intros H; apply show_prefix_inj in H as [Hn Hr].
  all: try rewrite Hn in Hr.
  all: repeat match type of Hr with
       | context [?n =? 1] => destruct (n =? 1)
       end.
  all: simpl in Hr; try discriminate Hr.
  all: try (injection Hr as Hr;
            change (String " " "Days") with (" " +:+ "Days")%string in Hr;
            apply show_prefix_inj in Hr as [Hr _]).
  all: lia.
Qed.

(** Two different whole numbers of days are never shown as the same
    text. *)
Theorem formatDuration_distinct d1 d2 :
  d1 ≠ d2 → formatDuration d1 ≠ formatDuration d2.
Proof.
  intros Hne E. apply Hne, formatDuration_inj, E.
Qed.

Lemma formatDuration_distinct_witness :
  formatDuration 30 = "1 Month"%string
  ∧ formatDuration 395 = "1 Year 30 Days"%string
  ∧ formatDuration 30 ≠ formatDuration 395.
Proof.
  split; [vm_compute; reflexivity|]. split; [vm_compute; reflexivity|].
  apply (formatDuration_distinct 30 395). lia.
Defined.

(** ** The Discord logger: chunks *)

Section LoggerChunks.
Context {C : Type} `{EqDecision C} (nl dot : C).
Implicit Types (line chunk : list C) (chunks lines : list (list C)).

Lemma splitContent_closed content maxLength :
  splitContent nl dot content maxLength
  = closed (fold_left (split_step nl dot maxLength) (split_lines nl content)
              ([], [])).
Proof.
  unfold splitContent, closed.
  destruct (fold_left _ _ _) as [chunks cur]. reflexivity.
Qed.

Lemma split_step_bounded maxLength st line :
  (3 <= maxLength)%nat →
  Forall (λ chunk, 0 < length chunk <= maxLength)%nat st.1 →
  (length st.2 <= maxLength)%nat →
  let st' := split_step nl dot maxLength st line in
  Forall (λ chunk, 0 < length chunk <= maxLength)%nat st'.1
  ∧ (length st'.2 <= maxLength)%nat.
Proof.
  destruct st as [chunks cur]. simpl. intros Hmax Hchunks Hcur.
  assert (Hpush : Forall (λ chunk, 0 < length chunk <= maxLength)%nat
                    match cur with [] => chunks | _ => chunks ++ [cur] end).
  { destruct cur; [exact Hchunks|].
    apply Forall_app. split; [exact Hchunks|].
    constructor; [|constructor]. simpl in *. lia. }
  destruct (maxLength <? length cur + length line + 1)%nat eqn:E1.
  - destruct (maxLength <? length line)%nat eqn:E2; simpl.
    + apply Nat.ltb_lt in E2. split; [|lia].
      apply Forall_app. split; [exact Hpush|].
      constructor; [|constructor].
      rewrite length_app, length_take. simpl. lia.
    + apply Nat.ltb_ge in E2. auto.
  - apply Nat.ltb_ge in E1. simpl. split; [exact Hchunks|].
    rewrite !length_app. destruct cur; simpl in *; lia.
Qed.

(** With a limit of at least three, every chunk handed to the webhook is
    non-empty and no longer than the limit, whatever the content. *)
Theorem splitContent_chunks_fit content maxLength :
  (3 <= maxLength)%nat →
  Forall (λ chunk, 0 < length chunk <= maxLength)%nat
    (splitContent nl dot content maxLength).
Proof.
  intros Hmax. rewrite splitContent_closed.
  assert (Hinv : ∀ lines st,
    Forall (λ chunk, 0 < length chunk <= maxLength)%nat st.1 →
    (length st.2 <= maxLength)%nat →
    Forall (λ chunk, 0 < length chunk <= maxLength)%nat
      (closed (fold_left (split_step nl dot maxLength) lines st))).
  { induction lines as [|line lines IH]; intros st H1 H2; simpl.
    - unfold closed. destruct st as [chunks cur]. simpl in *.
      destruct cur; [exact H1|].
      apply Forall_app. split; [exact H1|].
      constructor; [|constructor]. simpl in *. lia.
    - destruct (split_step_bounded maxLength st line Hmax H1 H2) as [H1' H2'].
      apply IH; assumption. }
  apply Hinv; simpl; [constructor|lia].
Qed.

Lemma join_split content : join_lines nl (split_lines nl content) = content.
Proof.
  induction content as [|c content IH]; [reflexivity|].
  assert (Hne : split_lines nl content ≠ []).
  { destruct content as [|c' content']; [discriminate|]. simpl.
    destruct (decide (c' = nl)); [discriminate|].
    destruct (split_lines nl content'); discriminate. }
  simpl. destruct (decide (c = nl)) as [->|Hc].
  - destruct (split_lines nl content) as [|l ls] eqn:E; [congruence|].
    simpl in *. rewrite IH. reflexivity.
  - destruct (split_lines nl content) as [|l ls] eqn:E; [congruence|].
    destruct ls; simpl in *; rewrite <- IH; reflexivity.
Qed.

Lemma join_app xs ys :
  xs ≠ [] → ys ≠ [] →
  join_lines nl (xs ++ ys) = join_lines nl xs ++ nl :: join_lines nl ys.
Proof.
  intros Hxs Hys. induction xs as [|x xs IH]; [congruence|].
  destruct xs as [|x' xs].
  - simpl. destruct ys; [congruence|reflexivity].
  - change (join_lines nl ((x :: x' :: xs) ++ ys))
      with (x ++ nl :: join_lines nl ((x' :: xs) ++ ys)).
    rewrite IH by discriminate.
    change (join_lines nl (x :: x' :: xs))
      with (x ++ nl :: join_lines nl (x' :: xs)).
    rewrite <- !app_assoc. reflexivity.
Qed.

Lemma join_snoc_line xs a line :
  join_lines nl (xs ++ [a ++ nl :: line])
  = join_lines nl (xs ++ [a]) ++ nl :: line.
Proof.
  destruct xs as [|x xs]; [reflexivity|].
  rewrite !join_app by discriminate. simpl.
  rewrite <- !app_assoc. reflexivity.
Qed.

Lemma closed_step maxLength st line :
  (st.2 = [] → st.1 = []) →
  (0 < length line <= maxLength)%nat →
  let st' := split_step nl dot maxLength st line in
  (st'.2 = [] → st'.1 = [])
  ∧ closed st' ≠ []
  ∧ join_lines nl (closed st') = join_lines nl (closed st ++ [line]).
Proof.
  destruct st as [chunks cur]. unfold closed. simpl. intros Hst Hline.
  destruct (maxLength <? length cur + length line + 1)%nat.
  - destruct (maxLength <? length line)%nat eqn:E2;
      [apply Nat.ltb_lt in E2; lia|].
    simpl. destruct line as [|c line]; [simpl in Hline; lia|].
    split; [discriminate|].
    destruct cur.
    + rewrite Hst by reflexivity. split; [discriminate|reflexivity].
    + split; [intros E; apply app_eq_nil in E as [_ E]; discriminate|].
      reflexivity.
  - simpl. destruct cur as [|c cur].
    + rewrite Hst by reflexivity. simpl.
      destruct line as [|c line]; [simpl in Hline; lia|].
      split; [discriminate|]. split; [discriminate|reflexivity].
    + simpl. split; [discriminate|].
      split; [intros E; apply app_eq_nil in E as [_ E]; discriminate|].
      change (c :: cur ++ nl :: line) with ((c :: cur) ++ nl :: line).
      rewrite (join_snoc_line chunks (c :: cur) line).
      rewrite (join_app (chunks ++ [c :: cur]) [line]); [reflexivity| |discriminate].
      intros E; apply app_eq_nil in E as [_ E]; discriminate.
Qed.

(** When every line of the content is non-empty and fits the limit,
    nothing is lost: the chunks, joined by line feeds, are the content. *)
Theorem splitContent_lossless content maxLength :
  Forall (λ line, 0 < length line <= maxLength)%nat (split_lines nl content) →
  join_lines nl (splitContent nl dot content maxLength) = content.
Proof.
  intros Hfit. rewrite splitContent_closed.
  assert (Hinv : ∀ lines st,
    (st.2 = [] → st.1 = []) →
    Forall (λ line, 0 < length line <= maxLength)%nat lines →
    join_lines nl (closed (fold_left (split_step nl dot maxLength) lines st))
    = join_lines nl (closed st ++ lines)).
  { induction lines as [|line lines IH]; intros st Hst Hlines.
    - simpl. rewrite app_nil_r. reflexivity.
    - apply Forall_cons in Hlines as [Hline Hlines].
      destruct (closed_step maxLength st line Hst Hline) as (Hst' & Hne & Hj).
      simpl. rewrite IH by assumption.
      destruct lines as [|l lines].
      + rewrite app_nil_r. exact Hj.
      + rewrite join_app by (exact Hne || discriminate).
        rewrite Hj.
        rewrite <- join_app
          by (discriminate || (intros E; apply app_eq_nil in E as [_ E];
                               discriminate)).
        rewrite <- app_assoc. reflexivity. }
  rewrite Hinv; [|reflexivity|exact Hfit].
  simpl. apply join_split.
Qed.

End LoggerChunks.

Lemma splitContent_chunks_fit_witness :
  Forall (λ chunk : list nat, 0 < length chunk <= 4)%nat
    (splitContent 10%nat 46%nat [1; 2; 10; 3; 4; 5; 6; 7; 8; 10; 9]%nat 4).
Proof.
  apply (splitContent_chunks_fit 10%nat 46%nat). lia.
Defined.

Lemma splitContent_lossless_witness :
  join_lines 10%nat
    (splitContent 10%nat 46%nat [1; 2; 10; 3; 10; 4; 5; 6]%nat 4)
  = [1; 2; 10; 3; 10; 4; 5; 6]%nat.
Proof.
  apply (splitContent_lossless 10%nat 46%nat).
  vm_compute. repeat constructor.
Defined.

(** ** The Discord logger: queue *)

Section LoggerQueue.
Context {M : Type}.
Implicit Types (lg : Logger.t M) (cs : list (LogCall M)).

Lemma sendBatch_spec lg :
  let '(lg', sent) := sendBatch lg in
  concat sent ++ Logger.logQueue lg' = Logger.logQueue lg
  ∧ Logger.webhookUrl lg' = Logger.webhookUrl lg
  ∧ Logger.batchSize lg' = Logger.batchSize lg
  ∧ ((0 < Logger.batchSize lg)%nat →
     Forall (λ b, 0 < length b <= Logger.batchSize lg)%nat sent).
Proof.
  unfold sendBatch.
  destruct (negb (Logger.webhookUrl lg) || _) eqn:E; simpl.
  - repeat split. intros _. constructor.
  - apply orb_false_iff in E as [_ E]. apply Nat.eqb_neq in E.
    rewrite app_nil_r, take_drop. repeat split.
    intros Hb. constructor; [|constructor].
    rewrite length_take. lia.
Qed.

Lemma log_call_config lg c :
  Logger.webhookUrl (log_call lg c).1 = Logger.webhookUrl lg
  ∧ Logger.batchSize (log_call lg c).1 = Logger.batchSize lg.
Proof.
  destruct c as [line| |line]; simpl.
  - destruct (Logger.webhookUrl lg) eqn:Hw; simpl; [|auto].
    destruct (_ <=? _)%nat; [|simpl; auto].
    unfold sendBatch. destruct (_ || _); simpl; auto.
  - destruct (0 <? _)%nat; [|auto].
    unfold sendBatch. destruct (_ || _); simpl; auto.
  - destruct (Logger.webhookUrl lg) eqn:Hw; simpl; auto.
Qed.

Lemma log_call_off lg c :
  Logger.webhookUrl lg = false → log_call lg c = (lg, []).
Proof.
  intros Hoff. destruct c as [line| |line]; simpl; rewrite ?Hoff; simpl;
    try reflexivity.
  destruct (0 <? _)%nat; [|reflexivity].
  unfold sendBatch. rewrite Hoff. reflexivity.
Qed.

Lemma sendBatch_keeps lg :
  concat (sendBatch lg).2 ++ Logger.logQueue (sendBatch lg).1
  = Logger.logQueue lg.
Proof.
  unfold sendBatch. destruct (_ || _); simpl; [reflexivity|].
  rewrite app_nil_r. apply take_drop.
Qed.

Lemma log_call_keeps lg c :
  Logger.webhookUrl lg = true →
  concat (log_call lg c).2 ++ Logger.logQueue (log_call lg c).1
  = Logger.logQueue lg ++ offered [c].
Proof.
  intros Hon. destruct c as [line| |line]; simpl; rewrite ?Hon; simpl.
  - destruct (_ <=? _)%nat; [|reflexivity].
    rewrite sendBatch_keeps. reflexivity.
  - rewrite app_nil_r. destruct (0 <? _)%nat; [|reflexivity].
    apply sendBatch_keeps.
  - reflexivity.
Qed.

(** With a webhook configured, no offered line is lost, duplicated or
    moved: the batches handed over, followed by what is still queued,
    are the lines queued before followed by the lines offered.  Without
    a webhook nothing is queued or handed over. *)
Theorem logger_keeps_every_line lg cs :
  (Logger.webhookUrl lg = true →
   concat (log_calls lg cs).2 ++ Logger.logQueue (log_calls lg cs).1
   = Logger.logQueue lg ++ offered cs)
  ∧ (Logger.webhookUrl lg = false → log_calls lg cs = (lg, [])).
Proof.
  unfold log_calls.
  assert (Hgen : ∀ cs acc,
    let res :=
      fold_left
        (λ acc c, let '(lg', sent) := log_call acc.1 c in (lg', acc.2 ++ sent))
        cs acc in
    (Logger.webhookUrl acc.1 = true →
     concat res.2 ++ Logger.logQueue res.1
     = concat acc.2 ++ Logger.logQueue acc.1 ++ offered cs)
    ∧ (Logger.webhookUrl acc.1 = false → res = acc)).
  { clear. induction cs as [|c cs IH]; intros [lg0 sent0]; cbn zeta.
    - simpl. rewrite app_nil_r. auto.
    - cbn [fold_left fst snd].
      destruct (log_call lg0 c) as [lg1 sent1] eqn:Hc.
      specialize (IH (lg1, sent0 ++ sent1)). cbn zeta in IH.
      cbn [fst snd] in IH. destruct IH as [IH1 IH2]. split.
      + intros Hon.
        pose proof (log_call_keeps lg0 c Hon) as Hk.
        pose proof (log_call_config lg0 c) as [Hw _].
        rewrite Hc in Hk, Hw. cbn [fst snd] in Hk, Hw.
        rewrite IH1 by congruence.
        rewrite concat_app, <- app_assoc, (app_assoc (concat sent1)), Hk.
        assert (Ho : offered (c :: cs) = offered [c] ++ offered cs)
          by (unfold offered; simpl; rewrite app_nil_r; reflexivity).
        rewrite Ho, <- !app_assoc. reflexivity.
      + intros Hoff. rewrite (log_call_off lg0 c Hoff) in Hc.
        injection Hc as <- <-. rewrite app_nil_r in IH2 |- *. auto. }
  specialize (Hgen cs (lg, [])). cbn zeta in Hgen. cbn [fst snd] in Hgen.
  exact Hgen.
Qed.

(** Console output alone never lets the queue reach the batch size: a
    queue shorter than the batch size stays shorter through any number of
    [addToQueue] calls and timer turns, and every batch handed over holds
    between one line and a batch size of lines. *)
Theorem logger_queue_stays_short lg cs :
  (0 < Logger.batchSize lg)%nat →
  (length (Logger.logQueue lg) < Logger.batchSize lg)%nat →
  Forall (λ c, match c with LogDirect _ => False | _ => True end) cs →
  (length (Logger.logQueue (log_calls lg cs).1) < Logger.batchSize lg)%nat
  ∧ Forall (λ b, 0 < length b <= Logger.batchSize lg)%nat (log_calls lg cs).2.
Proof.
  intros Hb Hq Hcs. unfold log_calls.
  assert (Hgen : ∀ cs acc,
    Forall (λ c, match c with LogDirect _ => False | _ => True end) cs →
    Logger.batchSize acc.1 = Logger.batchSize lg →
    (length (Logger.logQueue acc.1) < Logger.batchSize lg)%nat →
    Forall (λ b, 0 < length b <= Logger.batchSize lg)%nat acc.2 →
    let res :=
      fold_left
        (λ acc c, let '(lg', sent) := log_call acc.1 c in (lg', acc.2 ++ sent))
        cs acc in
    (length (Logger.logQueue res.1) < Logger.batchSize lg)%nat
    ∧ Forall (λ b, 0 < length b <= Logger.batchSize lg)%nat res.2).
  { clear Hq Hcs cs.
    induction cs as [|c cs IH]; intros [lg0 sent0] Hcs Hbs Hq Hs;
      cbn zeta; [simpl; auto|].
    apply Forall_cons in Hcs as [Hc Hcs].
    cbn [fold_left fst snd] in *.
    destruct (log_call lg0 c) as [lg1 sent1] eqn:E.
    apply IH; cbn [fst snd]; [exact Hcs| | |].
    - pose proof (log_call_config lg0 c) as [_ H]. rewrite E in H.
      simpl in H. congruence.
    - revert E. destruct c as [line| |line]; [| |contradiction]; simpl.
      + destruct (Logger.webhookUrl lg0) eqn:Hw; simpl;
          [|intros [= <- <-]; exact Hq].
        destruct (_ <=? _)%nat eqn:E1.
        * apply Nat.leb_le in E1. simpl in E1, Hbs, Hq.
          unfold sendBatch. simpl. rewrite Hw. simpl.
          destruct (_ =? 0)%nat eqn:E0.
          { apply Nat.eqb_eq in E0. rewrite length_app in E0.
            simpl in E0. lia. }
          intros [= <- <-]. simpl. rewrite length_drop, length_app in *.
          simpl in *. lia.
        * apply Nat.leb_gt in E1. intros [= <- <-]. simpl in *. lia.
      + destruct (0 <? _)%nat; [|intros [= <- <-]; exact Hq].
        simpl in Hbs, Hq.
        unfold sendBatch. destruct (_ || _); intros [= <- <-]; simpl;
          rewrite ?length_drop; lia.
    - apply Forall_app. split; [exact Hs|].
      revert E. destruct c as [line| |line]; [| |contradiction]; simpl.
      + destruct (Logger.webhookUrl lg0) eqn:Hw; simpl;
          [|intros [= <- <-]; constructor].
        destruct (_ <=? _)%nat eqn:E1; [|intros [= <- <-]; constructor].
        apply Nat.leb_le in E1. simpl in E1, Hbs, Hq.
        unfold sendBatch. simpl. rewrite Hw. simpl.
        destruct (_ =? 0)%nat eqn:E0; intros [= <- <-]; [constructor|].
        constructor; [|constructor].
        rewrite length_take, length_app in *. simpl in *. lia.
      + destruct (0 <? _)%nat eqn:E1; [|intros [= <- <-]; constructor].
        apply Nat.ltb_lt in E1. simpl in Hbs, Hq.
        unfold sendBatch. destruct (_ || _); intros [= <- <-];
          [constructor|].
        constructor; [|constructor]. rewrite length_take. lia. }
  apply (Hgen cs (lg, [])); simpl; auto.
Qed.

End LoggerQueue.

Lemma logger_keeps_every_line_witness :
  let lg := Logger.mk true 2 [7%nat] in
  let cs := [AddToQueue 8%nat; LogDirect 9%nat; TimerTick; AddToQueue 5%nat] in
  (log_calls lg cs).2 = [[7; 8]; [9]]%nat
  ∧ concat (log_calls lg cs).2 ++ Logger.logQueue (log_calls lg cs).1
    = Logger.logQueue lg ++ offered cs.
Proof.
  split; [vm_compute; reflexivity|].
  apply (proj1 (logger_keeps_every_line (Logger.mk true 2 [7%nat])
                  [AddToQueue 8%nat; LogDirect 9%nat; TimerTick;
                   AddToQueue 5%nat])).
  reflexivity.
Defined.

Lemma logger_queue_stays_short_witness :
  let lg := Logger.mk true 2 [7%nat] in
  let cs := [AddToQueue 8%nat; TimerTick; AddToQueue 5%nat; AddToQueue 6%nat;
             AddToQueue 4%nat; TimerTick] in
  (length (Logger.logQueue (log_calls lg cs).1) < Logger.batchSize lg)%nat
  ∧ Forall (λ b, 0 < length b <= Logger.batchSize lg)%nat (log_calls lg cs).2.
Proof.
  apply (logger_queue_stays_short (Logger.mk true 2 [7%nat])).
  - simpl. lia.
  - simpl. lia.
  - repeat constructor.
Defined.

(** ** The Discord status manager *)

(** What one event does to the reconnect counter: nothing, one more
    attempt with its delay, or (on [stop]) the counter set to the limit. *)
Lemma on_event_reconnect m ev :
  ev ≠ SocketOpen →
  Manager.maxReconnectAttempts m = 5 →
  0 <= Manager.reconnectAttempts m <= 5 →
  Manager.maxReconnectAttempts (on_event m ev).1 = 5
  ∧ ((Manager.reconnectAttempts (on_event m ev).1
      = Manager.reconnectAttempts m
      ∧ reconnect_delays (on_event m ev).2 = [])
     ∨ (Manager.reconnectAttempts m < 5
        ∧ Manager.reconnectAttempts (on_event m ev).1
          = Manager.reconnectAttempts m + 1
        ∧ reconnect_delays (on_event m ev).2
          = [1000 * 2 ^ Manager.reconnectAttempts m])
     ∨ (Manager.reconnectAttempts (on_event m ev).1 = 5
        ∧ reconnect_delays (on_event m ev).2 = [])).
Proof.
  intros Hev Hmax Hatt.
  assert (Hsched : ∀ m0 : Manager.t,
    Manager.maxReconnectAttempts m0 = 5 →
    0 <= Manager.reconnectAttempts m0 <= 5 →
    Manager.maxReconnectAttempts (scheduleReconnect m0).1 = 5
    ∧ ((Manager.reconnectAttempts (scheduleReconnect m0).1
        = Manager.reconnectAttempts m0
        ∧ reconnect_delays (scheduleReconnect m0).2 = [])
       ∨ (Manager.reconnectAttempts m0 < 5
          ∧ Manager.reconnectAttempts (scheduleReconnect m0).1
            = Manager.reconnectAttempts m0 + 1
          ∧ reconnect_delays (scheduleReconnect m0).2
            = [1000 * 2 ^ Manager.reconnectAttempts m0]))).
  { intros m0 H5 Ha. unfold scheduleReconnect. rewrite H5.
    destruct (5 <=? Manager.reconnectAttempts m0) eqn:E; simpl.
    - auto.
    - apply Z.leb_gt in E. split; [reflexivity|]. right.
      split; [exact E|]. split; [reflexivity|].
      f_equal. apply Z.min_l.
      assert (Hk : Manager.reconnectAttempts m0 = 0
                   ∨ Manager.reconnectAttempts m0 = 1
                   ∨ Manager.reconnectAttempts m0 = 2
                   ∨ Manager.reconnectAttempts m0 = 3
                   ∨ Manager.reconnectAttempts m0 = 4) by lia.
      destruct Hk as [->|[->|[->|[->| ->]]]]; vm_compute; discriminate. }
  assert (Hconn : ∀ m0 : Manager.t,
    Manager.maxReconnectAttempts (connect m0).1
    = Manager.maxReconnectAttempts m0
    ∧ Manager.reconnectAttempts (connect m0).1 = Manager.reconnectAttempts m0
    ∧ reconnect_delays (connect m0).2 = []).
  { intros m0. unfold connect. destruct (Manager.gatewayUrl m0); simpl; auto. }
  assert (Hupd : ∀ guild count (m0 : Manager.t),
    Manager.maxReconnectAttempts (updateStatus guild count m0).1
    = Manager.maxReconnectAttempts m0
    ∧ Manager.reconnectAttempts (updateStatus guild count m0).1
      = Manager.reconnectAttempts m0
    ∧ reconnect_delays (updateStatus guild count m0).2 = []).
  { intros guild count m0. unfold updateStatus.
    destruct (Manager.isConnected m0); [|auto].
    destruct (Manager.ws m0) as [[]|]; auto.
    destruct count as [c|]; [|auto].
    destruct (match Manager.lastCount m0 with Some _ => _ | None => _ end);
      [auto|].
    simpl. destruct guild; auto. }
  assert (Hclean : ∀ m0 : Manager.t,
    Manager.maxReconnectAttempts (cleanup m0).1
    = Manager.maxReconnectAttempts m0
    ∧ Manager.reconnectAttempts (cleanup m0).1 = Manager.reconnectAttempts m0
    ∧ reconnect_delays (cleanup m0).2 = []).
  { intros m0. unfold cleanup. simpl.
    destruct (Manager.ws m0) as [[]|]; auto. }
  destruct ev as [|rs| |code| |guild count p|answer| | | |guild count|];
    [|  |congruence|..].
  - cbn [on_event]. destruct (Hconn m) as (H1 & H2 & H3).
    rewrite H1, H2, H3. auto.
  - simpl. auto.
  - cbn [on_event].
    set (m1 := Manager.mk _ _ _ _ _ false _ _ _).
    destruct (Hclean m1) as (Hc1 & Hc2 & Hc3).
    destruct (cleanup m1) as [m2 acts] eqn:Ecl. cbn [fst snd] in *.
    destruct (code =? 1000).
    + cbn [fst snd]. split; [rewrite Hc1; exact Hmax|].
      left. rewrite Hc2. auto.
    + destruct (Hsched m2) as (Hs1 & Hs2);
        [rewrite Hc1; exact Hmax|rewrite Hc2; exact Hatt|].
      destruct (scheduleReconnect m2) as [m3 acts'] eqn:Es.
      cbn [fst snd] in *. split; [exact Hs1|].
      unfold reconnect_delays in *. rewrite flat_map_app, Hc3. simpl.
      rewrite Hc2 in Hs2. simpl in Hs2. tauto.
  - simpl. auto.
  - cbn [on_event]. unfold handleMessage.
    set (m1 := match Payload.s p with Some _ => _ | None => _ end).
    assert (Hm1 : Manager.maxReconnectAttempts m1 = 5
                  ∧ Manager.reconnectAttempts m1
                    = Manager.reconnectAttempts m).
    { unfold m1. destruct (Payload.s p) as [n|]; [|auto].
      destruct (n =? 0); auto. }
    destruct Hm1 as [Hm1 Hm1']. rewrite <- Hm1'.
    destruct (Payload.op p =? 10);
      [simpl; split; [exact Hm1|left; split; [reflexivity|]];
       unfold when_open; simpl; destruct (Manager.ws m1) as [[]|]; reflexivity|].
    destruct (Payload.op p =? 0).
    { destruct (String.eqb (Payload.t p) "READY"); [|simpl; auto].
      match goal with |- context [updateStatus ?g ?c ?m0] =>
        destruct (Hupd g c m0) as (H1 & H2 & H3) end.
      rewrite H1, H2, H3. simpl. auto. }
    destruct (Payload.op p =? 1);
      [simpl; split; [exact Hm1|left; split; [reflexivity|]];
       unfold when_open; destruct (Manager.ws m1) as [[]|]; reflexivity|].
    destruct (Payload.op p =? 7).
    { destruct (Hclean m1) as (Hc1 & Hc2 & Hc3).
      destruct (cleanup m1) as [m2 acts] eqn:Ecl. cbn [fst snd] in *.
      destruct (Hconn m2) as (Hs1 & Hs2 & Hs3).
      destruct (connect m2) as [m3 acts'] eqn:Es.
      cbn [fst snd] in *. split; [rewrite Hs1, Hc1; exact Hm1|].
      unfold reconnect_delays in *. rewrite flat_map_app, Hc3, Hs3. simpl.
      left. split; [rewrite Hs2, Hc2; reflexivity|reflexivity]. }
    destruct (Payload.op p =? 9); simpl; auto.
  - cbn [on_event]. unfold connect_resume. destruct answer as [url|].
    + simpl. auto.
    + destruct (Hsched m Hmax Hatt) as (H1 & H2). tauto.
  - cbn [on_event]. destruct (Hconn m) as (H1 & H2 & H3).
    rewrite H1, H2, H3. auto.
  - cbn [on_event fst snd]. split; [exact Hmax|]. left.
    split; [reflexivity|].
    unfold when_open. destruct (Manager.ws m) as [[]|]; reflexivity.
  - cbn [on_event fst snd]. split; [exact Hmax|]. left.
    split; [reflexivity|].
    unfold when_open. destruct (Manager.ws m) as [[]|]; reflexivity.
  - cbn [on_event]. unfold forceStatusUpdate.
    destruct (negb (Manager.isConnected m)).
    + destruct (Hconn m) as (H1 & H2 & H3). rewrite H1, H2, H3. auto.
    + match goal with |- context [updateStatus ?g ?c ?m0] =>
        destruct (Hupd g c m0) as (H1 & H2 & H3) end.
      rewrite H1, H2, H3. simpl. auto.
  - cbn [on_event]. unfold stop.
    destruct (Hclean m) as (Hc1 & Hc2 & Hc3).
    destruct (cleanup m) as [m2 acts] eqn:Ecl. cbn [fst snd] in *.
    rewrite Hc1, Hmax. auto.
Qed.

(** While the gateway does not open, the reconnects scheduled wait
    1000·2^k ms for k counting up from the attempts already made, never
    longer than 16 s (the 30 s cap is out of reach), and there are never
    more of them than the attempts left up to five, whatever else
    happens: closes, errors, messages, failed gateway look-ups, timers,
    forced updates, [stop]. *)
Theorem reconnects_double_and_stop_at_five m evs :
  Manager.maxReconnectAttempts m = 5 →
  0 <= Manager.reconnectAttempts m <= 5 →
  Forall (λ ev, ev ≠ SocketOpen) evs →
  let delays := reconnect_delays (on_events m evs).2 in
  delays
  = (λ k, 1000 * 2 ^ (Manager.reconnectAttempts m + Z.of_nat k))
      <$> seq 0 (length delays)
  ∧ Manager.reconnectAttempts m + Z.of_nat (length delays) <= 5
  ∧ Forall (λ d, 1000 <= d <= 16000) delays.
Proof.
  intros Hmax Hatt Hevs. cbn zeta.
  set (a0 := Manager.reconnectAttempts m).
  assert (Hgen : ∀ evs acc,
    Forall (λ ev, ev ≠ SocketOpen) evs →
    Manager.maxReconnectAttempts acc.1 = 5 →
    (Manager.reconnectAttempts acc.1
     = a0 + Z.of_nat (length (reconnect_delays acc.2))
     ∨ Manager.reconnectAttempts acc.1 = 5) →
    a0 + Z.of_nat (length (reconnect_delays acc.2)) <= 5 →
    reconnect_delays acc.2
    = (λ k, 1000 * 2 ^ (a0 + Z.of_nat k))
        <$> seq 0 (length (reconnect_delays acc.2)) →
    let res :=
      fold_left
        (λ acc ev, let '(m', acts) := on_event acc.1 ev in (m', acc.2 ++ acts))
        evs acc in
    reconnect_delays res.2
    = (λ k, 1000 * 2 ^ (a0 + Z.of_nat k))
        <$> seq 0 (length (reconnect_delays res.2))
    ∧ a0 + Z.of_nat (length (reconnect_delays res.2)) <= 5).
  { clear Hevs evs. induction evs as [|ev evs IH];
      intros [m0 acts0] Hevs H5 Hcnt Hle Hfmt; cbn zeta; [simpl; auto|].
    apply Forall_cons in Hevs as [Hev Hevs].
    cbn [fold_left fst snd] in *.
    assert (Ha0 : 0 <= Manager.reconnectAttempts m0 <= 5)
      by (unfold a0 in *; lia).
    destruct (on_event_reconnect m0 ev Hev H5 Ha0) as (H5' & Hstep).
    destruct (on_event m0 ev) as [m1 acts1]. cbn [fst snd] in *.
    assert (Happ : reconnect_delays (acts0 ++ acts1)
                   = reconnect_delays acts0 ++ reconnect_delays acts1)
      by (unfold reconnect_delays; apply flat_map_app).
    apply IH; cbn [fst snd]; [exact Hevs|exact H5'|..]; rewrite Happ.
    - destruct Hstep as [[Hs ->]|[(Hlt & Hs & ->)|[Hs ->]]];
        rewrite ?app_nil_r, ?length_app; simpl; lia.
    - destruct Hstep as [[Hs ->]|[(Hlt & Hs & ->)|[Hs ->]]];
        rewrite ?app_nil_r, ?length_app; simpl; lia.
    - destruct Hstep as [[Hs ->]|[(Hlt & Hs & ->)|[Hs ->]]];
        rewrite ?app_nil_r; try exact Hfmt.
      rewrite length_app. simpl.
      rewrite Nat.add_1_r, seq_S, fmap_app, <- Hfmt. simpl.
      do 4 f_equal. lia. }
  destruct (Hgen evs (m, []) Hevs Hmax) as [Hfmt Hle];
    [left; simpl; lia|simpl; lia|reflexivity|].
  unfold on_events. split; [exact Hfmt|]. split; [exact Hle|].
  rewrite Hfmt. apply Forall_fmap, Forall_forall. intros k Hk.
  apply elem_of_seq in Hk. simpl.
  assert (Hk' : a0 + Z.of_nat k = 0 ∨ a0 + Z.of_nat k = 1
                ∨ a0 + Z.of_nat k = 2 ∨ a0 + Z.of_nat k = 3
                ∨ a0 + Z.of_nat k = 4) by (unfold a0 in *; lia).
  destruct Hk' as [->|[->|[->|[->| ->]]]]; vm_compute; split; discriminate.
Qed.

Lemma reconnects_double_and_stop_at_five_witness :
  reconnect_delays (on_events new_manager ex_outage).2
  = [1000; 2000; 4000; 8000; 16000]
  ∧ let delays := reconnect_delays (on_events new_manager ex_outage).2 in
    delays
    = (λ k, 1000 * 2 ^ (Manager.reconnectAttempts new_manager + Z.of_nat k))
        <$> seq 0 (length delays)
    ∧ Manager.reconnectAttempts new_manager + Z.of_nat (length delays) <= 5
    ∧ Forall (λ d, 1000 <= d <= 16000) delays.
Proof.
  split; [vm_compute; reflexivity|].
  apply (reconnects_double_and_stop_at_five new_manager ex_outage).
  - reflexivity.
  - vm_compute. split; discriminate.
  - repeat constructor; discriminate.
Defined.

(** The presence is only written when the count moved: a second
    [updateStatus] with the same count sends nothing and changes
    nothing, whereas a forced update on a connected, open socket always
    writes the presence for the count it is given and remembers it. *)
Theorem presence_follows_the_count guild count m :
  updateStatus guild count (updateStatus guild count m).1
  = ((updateStatus guild count m).1, [])
  ∧ (Manager.isConnected m = true → Manager.ws m = Some OPEN →
     ∀ c, count = Some c →
       ∃ acts state,
         (forceStatusUpdate guild count m).2
         = SendPresence (statusText c) state :: acts
         ∧ Manager.lastCount (forceStatusUpdate guild count m).1
           = Some c).
Proof.
  split.
  - unfold updateStatus.
    destruct (Manager.isConnected m) eqn:Hc; simpl; rewrite ?Hc;
      [|reflexivity].
    destruct (Manager.ws m) as [[]|] eqn:Hw; simpl; rewrite ?Hc, ?Hw;
      try reflexivity.
    destruct count as [c|]; simpl; rewrite ?Hc, ?Hw; [|reflexivity].
    destruct (match Manager.lastCount m with Some _ => _ | None => _ end)
      eqn:Hl; simpl; rewrite ?Hc, ?Hw, ?Hl, ?Nat.eqb_refl; reflexivity.
  - intros Hc Hw c ->. unfold forceStatusUpdate, updateStatus.
    rewrite Hc. simpl. rewrite Hw. simpl. eauto.
Qed.

Lemma presence_follows_the_count_witness :
  let m := (on_events new_manager ex_connected).1 in
  Manager.isConnected m = true ∧ Manager.ws m = Some OPEN
  ∧ ∃ acts state,
      (forceStatusUpdate true (Some 3%nat) m).2
      = SendPresence "3 Active Subscriptions" state :: acts
      ∧ Manager.lastCount (forceStatusUpdate true (Some 3%nat) m).1
        = Some 3%nat.
Proof.
  split; [reflexivity|]. split; [reflexivity|].
  exact (proj2 (presence_follows_the_count true (Some 3%nat)
                  (on_events new_manager ex_connected).1)
           eq_refl eq_refl 3%nat eq_refl).
Defined.

(** ** Balance initialisation and login *)

Lemma ensure_balance_keeps d now id st u b :
  balance_of st u = Some b → balance_of (ensure_balance d now id st) u = Some b.
Proof.
  unfold balance_of, ensure_balance. intros Hb.
  destruct (users st !! id) as [user|] eqn:Hid; [|exact Hb].
  destruct (User.vv_balance user) as [b'|] eqn:Hb'; [exact Hb|].
  simpl. rewrite lookup_alter. case_decide as Hd; [|exact Hb].
  subst id. rewrite Hid in Hb. simpl in Hb. congruence.
Qed.

Lemma login_balance d now id name st :
  balance_of (login d now id name st) id
  = Some (default d (balance_of st id)).
Proof.
  unfold balance_of, login. simpl.
  destruct (users st !! id) as [user|] eqn:Hu; simpl;
    rewrite lookup_insert_eq; simpl; [|reflexivity].
  destruct (User.vv_balance user); reflexivity.
Qed.

Lemma login_keeps d now id name st u b :
  balance_of st u = Some b → balance_of (login d now id name st) u = Some b.
Proof.
  intros Hb. destruct (decide (id = u)) as [->|Hne].
  - rewrite login_balance, Hb. reflexivity.
  - unfold balance_of, login in *. simpl.
    destruct (users st !! id); simpl; rewrite lookup_insert_ne by exact Hne;
      exact Hb.
Qed.


(** Logins, page views and the middleware never change a balance that is
    stored, be it zero or negative: they only ever fill in a missing
    one. *)
Theorem visits_keep_stored_balances parsed parsedInt st vs u b :
  balance_of st u = Some b →
  balance_of (fold_left (visit parsed parsedInt) vs st) u = Some b.
Proof.
  revert st. induction vs as [|v vs IH]; intros st Hb; [exact Hb|].
  simpl. apply IH. destruct v; simpl.
  - apply login_keeps. exact Hb.
  - do 2 apply ensure_balance_keeps. exact Hb.
  - apply ensure_balance_keeps. exact Hb.
Qed.

Lemma visits_keep_stored_balances_witness :
  balance_of
    (fold_left (visit (Some 0%Q) (Some 250))
       [Login 5000 "u1" "alice2"; PageView 6000 "u1"; AnyRequest 6500 "u1";
        Login 7000 "u2" "bob"]
       (ex_state 0))
    "u1"
  = Some 0%Q.
Proof.
  apply (visits_keep_stored_balances (Some 0%Q) (Some 250) (ex_state 0)).
  reflexivity.
Defined.



(** ** Statistics *)

Lemma sumQ_Permutation l1 l2 : l1 ≡ₚ l2 → (sumQ l1 == sumQ l2)%Q.
Proof.
  induction 1 as [|x l1 l2 _ IH|x y l|l1 l2 l3 _ IH1 _ IH2];
    unfold sumQ in *; cbn [foldr].
  - reflexivity.
  - rewrite IH. reflexivity.
  - lra.
  - rewrite IH1. exact IH2.
Qed.

Lemma revenue_is_sum now st :
  (total_revenue_vv (getSubscriptionStats now st)
   == sumQ ((λ kv, Txn.final_price_vv kv.2) <$> map_to_list (transactions st)))%Q.
Proof.
  unfold getSubscriptionStats, revenue_groups. simpl.
  destruct (map_to_list (transactions st)) as [|kv l]; [reflexivity|].
  cbn [head js_or].
  destruct (Qeq_bool _ 0) eqn:E; [|reflexivity].
  apply Qeq_bool_eq in E. rewrite E. reflexivity.
Qed.

Lemma purchase_txn_logs_price now u plan price key st r st' :
  purchase_txn now u plan price key st = inr (r, st') →
  Txn.final_price_vv (res_transaction r) = price.
Proof.
  unfold purchase_txn.
  destruct (users st !! u) as [user|]; [|discriminate].
  destruct (Qltb _ price); [discriminate|].
  unfold insert_transaction. simpl.
  destruct (find_one (renewable u now) (subscriptions st)) as [[sid s]|];
    simpl;
    (destruct (find_one (has_key key) (transactions st)); [discriminate|]);
    intros [= <- <-]; reflexivity.
Qed.

(** The revenue total of the statistics counts a purchase only while its
    record is in the log: a committed purchase raises the total by the
    price paid, and the deferred clean-up of that record takes the price
    out of the total again. *)
Theorem revenue_forgets_cleaned_purchases plans now now' u planId key st r st' :
  purchaseSubscription plans now u planId key st = (inr r, st') →
  (total_revenue_vv (getSubscriptionStats now' st')
   == total_revenue_vv (getSubscriptionStats now' st) + res_finalPrice r
   ∧ total_revenue_vv
       (getSubscriptionStats now'
          (cleanup_transaction (res_transaction_id r) st'))
     == total_revenue_vv (getSubscriptionStats now' st))%Q.
Proof.
  intros H. destruct (purchase_inr _ _ _ _ _ _ _ _ H) as (plan & _ & Htxn).
  pose proof (purchase_txn_logs_price _ _ _ _ _ _ _ _ Htxn) as Hprice.
  destruct (purchase_txn_inr _ _ _ _ _ _ _ _ Htxn)
    as (Hfp & _ & _ & _ & Hfresh & _ & Htx).
  split.
  - rewrite !revenue_is_sum, Htx.
    rewrite (sumQ_Permutation _ _
               (fmap_Permutation _ _ _ (map_to_list_insert _ _ _ Hfresh))).
    unfold sumQ. cbn [fmap list_fmap foldr snd]. rewrite Hprice, Hfp. lra.
  - rewrite !revenue_is_sum. unfold cleanup_transaction. simpl.
    rewrite Htx, delete_insert_id by exact Hfresh. reflexivity.
Qed.

Lemma revenue_forgets_cleaned_purchases_witness :
  ∃ r st',
    purchaseSubscription ex_plans 1000 "u1" "basic" "k-1" (ex_state 500)
    = (inr r, st')
    ∧ (total_revenue_vv (getSubscriptionStats 2000 st')
       == total_revenue_vv (getSubscriptionStats 2000 (ex_state 500))
          + res_finalPrice r
       ∧ total_revenue_vv
           (getSubscriptionStats 2000
              (cleanup_transaction (res_transaction_id r) st'))
         == total_revenue_vv (getSubscriptionStats 2000 (ex_state 500)))%Q.
Proof.
  eexists _, _. split; [vm_compute; reflexivity|].
  apply (revenue_forgets_cleaned_purchases ex_plans 1000 2000 "u1" "basic"
           "k-1" (ex_state 500)).
  vm_compute. reflexivity.
Defined.

(** ** Upcoming expiries *)

Lemma ceil_div_bounds a b n :
  0 < b → 0 < a ≤ n * b → 1 ≤ ceil_div a b ≤ n.
Proof.
  intros Hb [Ha Hn]. unfold ceil_div.
  pose proof (Z.div_mod (- a) b ltac:(lia)) as Hd.
  pose proof (Z.mod_pos_bound (- a) b Hb) as Hm.
  split; nia.
Qed.

#[local] Instance expires_le_total : Total expires_le.
Proof. intros a b. unfold expires_le. lia. Qed.

#[local] Instance expires_le_trans : Transitive expires_le.
Proof. intros a b c. unfold expires_le. lia. Qed.

Lemma upcoming_query_spec now days s :
  upcoming_query now days s = true
  ↔ Sub.status s = Active
    ∧ now < Sub.expires_at s ≤ now + days * ms_per_day.
Proof.
  unfold upcoming_query.
  rewrite !andb_true_iff, Z.ltb_lt, Z.leb_le.
  destruct (Sub.status s); simpl; intuition congruence.
Qed.

Lemma upcoming_rows now days st row :
  row ∈ merge_sort expires_le
          (omap (lookup_unwind (users st))
             (find_all (upcoming_query now days) (subscriptions st)))
  ↔ subscriptions st !! row.1.1 = Some row.1.2
    ∧ users st !! Sub.user_id row.1.2 = Some row.2
    ∧ upcoming_query now days row.1.2 = true.
Proof.
  rewrite merge_sort_Permutation, list_elem_of_omap.
  destruct row as [[sid s] user]. simpl. split.
  - intros ([sid' s'] & Hin & Hl). unfold lookup_unwind in Hl. simpl in Hl.
    destruct (users st !! Sub.user_id s') as [user'|] eqn:Hu; [|discriminate].
    simpl in Hl. injection Hl as -> -> ->.
    apply list_elem_of_In, find_all_spec in Hin. destruct Hin as [Hs Hq].
    auto.
  - intros (Hs & Hu & Hq). exists (sid, s). split.
    + apply list_elem_of_In, find_all_spec. auto.
    + unfold lookup_unwind. simpl. rewrite Hu. reflexivity.
Qed.

(** The list of upcoming expiries is ordered by expiry instant, names
    exactly the active subscriptions that expire after now and within
    [days] days and whose user is stored, and gives each a number of
    days left between 1 and [days]. *)
Theorem upcoming_expiries_are_sorted_and_bounded now days st :
  let l := getUpcomingExpiries now days st in
  StronglySorted Z.le (Upcoming.expires_at <$> l)
  ∧ Forall (λ e, 1 ≤ Upcoming.expires_in_days e ≤ days) l
  ∧ ∀ sid, (∃ e, e ∈ l ∧ Upcoming.subscription_id e = sid)
      ↔ ∃ s user, subscriptions st !! sid = Some s
          ∧ users st !! Sub.user_id s = Some user
          ∧ Sub.status s = Active
          ∧ now < Sub.expires_at s ≤ now + days * ms_per_day.
Proof.
  unfold getUpcomingExpiries. cbv zeta.
  set (rows := merge_sort expires_le _).
  assert (Hrows : ∀ row, row ∈ rows ↔ _) by (intros row; apply upcoming_rows).
  split; [|split].
  - assert (Hs : StronglySorted expires_le rows)
      by apply (StronglySorted_merge_sort _).
    clearbody rows. clear Hrows.
    induction Hs as [|row rows _ IH Hall]; simpl; constructor.
    + exact IH.
    + rewrite <- list_fmap_compose, Forall_fmap.
      eapply Forall_impl; [exact Hall|].
      intros [[sid' s'] u']. destruct row as [[sid s] u]. exact id.
  - rewrite Forall_fmap, Forall_forall. intros [[sid s] user] Hin.
    apply Hrows in Hin. destruct Hin as (_ & _ & Hq).
    apply upcoming_query_spec in Hq. simpl in *.
    apply ceil_div_bounds; [reflexivity|lia].
  - intros sid. split.
    + intros (e & He & <-). apply list_elem_of_fmap in He.
      destruct He as ([[sid s] user] & -> & Hin).
      apply Hrows in Hin. destruct Hin as (Hs & Hu & Hq).
      apply upcoming_query_spec in Hq. simpl in *. eauto.
    + intros (s & user & Hs & Hu & Ha & Hw).
      exists (upcoming_view now (sid, s, user)). split; [|reflexivity].
      apply list_elem_of_fmap. exists (sid, s, user). split; [reflexivity|].
      apply Hrows. simpl. split; [exact Hs|]. split; [exact Hu|].
      apply upcoming_query_spec. auto.
Qed.

(** ** The plan catalogue and its cache *)

Lemma purchase_without_plans now u planId key st :
  purchaseSubscription [] now u planId key st = (inl PlanNotFound, st).
Proof. reflexivity. Qed.

(** When the catalogue file cannot be examined, a purchase is refused
    with "Plan not found" and changes nothing, even if the cache holds
    the plan asked for: the cache is not consulted after a failure. *)
Theorem unreadable_catalogue_blocks_purchases file c now u planId key st :
  mtime file = None →
  purchase_with_catalogue file c now u planId key st
  = (inl PlanNotFound, st, c).
Proof.
  intros Hm. unfold purchase_with_catalogue, getPlans. rewrite Hm.
  reflexivity.
Qed.

Lemma unreadable_catalogue_blocks_purchases_witness :
  find_plan (default [] (plansCache (mkCache (Some ex_plans) (Some 10))))
    "basic"
  = Some ex_basic
  ∧ purchase_with_catalogue (mkFile None (Some ex_plans))
      (mkCache (Some ex_plans) (Some 10)) 1000 "u1" "basic" "k-1"
      (ex_state 500)
    = (inl PlanNotFound, ex_state 500, mkCache (Some ex_plans) (Some 10)).
Proof.
  split; [reflexivity|].
  apply (unreadable_catalogue_blocks_purchases (mkFile None (Some ex_plans))).
  reflexivity.
Defined.

(** After a call that found and read the catalogue file, any call that
    is not forced and sees a modification time that is no later gives
    the same answer and leaves the cache as it is, whatever the file
    holds by then: an edit that does not advance the modification time
    is not seen. *)
Theorem catalogue_cache_is_keyed_on_mtime force file data t file' t' c :
  mtime file = Some t → content file = Some data →
  mtime file' = Some t' → t' ≤ t →
  getPlans false file' (getPlans force file c).2 = getPlans force file c.
Proof.
  intros Hm Hc Hm' Hle. unfold getPlans at 2 3. rewrite Hm, Hc.
  destruct (negb _ || force || _) eqn:Hreload; simpl.
  - unfold getPlans. rewrite Hm'. simpl.
    destruct (t <? t') eqn:E; [apply Z.ltb_lt in E; lia|]. reflexivity.
  - apply orb_false_iff in Hreload. destruct Hreload as [Hr Ht].
    apply orb_false_iff in Hr. destruct Hr as [Hp _].
    unfold getPlans. rewrite Hm', Hp. simpl.
    destruct (plansCacheTime c) as [ct|]; [|discriminate].
    apply Z.ltb_ge in Ht.
    destruct (ct <? t') eqn:E; [apply Z.ltb_lt in E; lia|]. reflexivity.
Qed.

Lemma catalogue_cache_is_keyed_on_mtime_witness :
  getPlans false (mkFile (Some 10) (Some [ex_mini]))
    (getPlans false (mkFile (Some 10) (Some ex_plans)) (mkCache None None)).2
  = getPlans false (mkFile (Some 10) (Some ex_plans)) (mkCache None None).
Proof.
  apply (catalogue_cache_is_keyed_on_mtime false
           (mkFile (Some 10) (Some ex_plans)) ex_plans 10
           (mkFile (Some 10) (Some [ex_mini])) 10 (mkCache None None)).
  - reflexivity.
  - reflexivity.
  - reflexivity.
  - lia.
Defined.

(** ** The text of an expiry warning *)

Lemma warningMessage_under_a_day timeLeft :
  timeLeft < ms_per_day →
  let hoursLeft := timeLeft / ms_per_hour in
  warningMessage timeLeft
  = if 0 <? hoursLeft then
      "Your subscription expires in " +:+ show hoursLeft +:+ " hour"
      +:+ plural hoursLeft +:+ "!"
    else "Your subscription expires very soon!".
Proof.
  intros Hlt. cbv zeta. unfold warningMessage.
  assert (Hd : (0 <? timeLeft / ms_per_day) = false).
  { apply Z.ltb_ge.
    pose proof (Z.div_mod timeLeft ms_per_day ltac:(discriminate)) as Hdm.
    pose proof (Z.mod_pos_bound timeLeft ms_per_day eq_refl) as Hm.
    unfold ms_per_day in *. lia. }
  rewrite Hd.
  destruct (Z_le_gt_dec 0 timeLeft) as [Hpos|Hneg].
  - rewrite Z.rem_small by lia. reflexivity.
  - assert (Hr : Z.rem timeLeft ms_per_day ≤ 0)
      by (apply Z.rem_nonpos; [discriminate|lia]).
    assert (Hh : (0 <? Z.rem timeLeft ms_per_day / ms_per_hour) = false).
    { apply Z.ltb_ge.
      pose proof (Z.div_mod (Z.rem timeLeft ms_per_day) ms_per_hour
                    ltac:(discriminate)) as Hdm.
      pose proof (Z.mod_pos_bound (Z.rem timeLeft ms_per_day) ms_per_hour
                    eq_refl) as Hm.
      unfold ms_per_hour in *. lia. }
    assert (Hh' : (0 <? timeLeft / ms_per_hour) = false).
    { apply Z.ltb_ge.
      pose proof (Z.div_mod timeLeft ms_per_hour ltac:(discriminate)) as Hdm.
      pose proof (Z.mod_pos_bound timeLeft ms_per_hour eq_refl) as Hm.
      unfold ms_per_hour in *. lia. }
    rewrite Hh, Hh'. reflexivity.
Qed.

(** A warning for a subscription picked by the recovery sweep never
    counts days: sent at or after the sweep's instant, it names between
    1 and 23 whole hours, or says "very soon"; and it still says "very
    soon" when the subscription has expired by the time it is sent. *)
Theorem recovery_warning_names_hours_only now sent s :
  missed_warning_query now s = true → now ≤ sent →
  let timeLeft := Sub.expires_at s - sent in
  (∃ h, 1 ≤ h ≤ 23 ∧ h = timeLeft / ms_per_hour ∧
        warningMessage timeLeft
        = "Your subscription expires in " +:+ show h +:+ " hour"
          +:+ plural h +:+ "!")
  ∨ (timeLeft < ms_per_hour
     ∧ warningMessage timeLeft = "Your subscription expires very soon!").
Proof.
  intros Hq Hs. cbv zeta.
  apply missed_warning_query_spec in Hq. destruct Hq as (_ & _ & Hw).
  set (timeLeft := Sub.expires_at s - sent).
  assert (Hlt : timeLeft < ms_per_day) by (unfold timeLeft; lia).
  rewrite (warningMessage_under_a_day _ Hlt).
  pose proof (Z.div_mod timeLeft ms_per_hour ltac:(discriminate)) as Hdm.
  pose proof (Z.mod_pos_bound timeLeft ms_per_hour eq_refl) as Hm.
  destruct (0 <? timeLeft / ms_per_hour) eqn:E.
  - left. apply Z.ltb_lt in E. exists (timeLeft / ms_per_hour).
    split; [|split; reflexivity].
    unfold ms_per_hour, ms_per_day in *. lia.
  - right. apply Z.ltb_ge in E. split; [|reflexivity].
    unfold ms_per_hour, ms_per_day in *. lia.
Qed.

Lemma recovery_warning_names_hours_only_witness :
  let s := ex_sub "u1" (ex_midnight + 5 * ms_per_hour + 1234) in
  let timeLeft := Sub.expires_at s - (ex_midnight + 60000) in
  (∃ h, 1 ≤ h ≤ 23 ∧ h = timeLeft / ms_per_hour ∧
        warningMessage timeLeft
        = "Your subscription expires in " +:+ show h +:+ " hour"
          +:+ plural h +:+ "!")
  ∨ (timeLeft < ms_per_hour
     ∧ warningMessage timeLeft = "Your subscription expires very soon!").
Proof.
  apply (recovery_warning_names_hours_only ex_midnight (ex_midnight + 60000)
           (ex_sub "u1" (ex_midnight + 5 * ms_per_hour + 1234))).
  - vm_compute. reflexivity.
  - vm_compute. discriminate.
Defined.

(** ** Documents written by the migration script *)

(** A subscription that had run out when it was migrated is stored as
    expired, with its own end as [expired_at]; no sweep, at any instant
    and in any environment, selects it, so its role is never revoked and
    no expiry notice is ever sent for it, and no purchase renews it.  A
    subscription migrated while running is selected by the expiry sweep
    exactly from the instant after its end. *)
Theorem migrated_subscription_and_sweeps now userId oldSub :
  let s := newSubscription now userId oldSub in
  (OldSub.expires_at oldSub ≤ now →
     Sub.status s = Expired
     ∧ Sub.expired_at s = Some (OldSub.expires_at oldSub)
     ∧ ∀ env later u,
         expired_query later s = false
         ∧ warning_query env later s = false
         ∧ missed_warning_query later s = false
         ∧ renewable u later s = false)
  ∧ (now < OldSub.expires_at oldSub →
     Sub.status s = Active ∧ Sub.expired_at s = None
     ∧ Sub.total_paid_vv s = None ∧ Sub.renewal_count s = None
     ∧ ∀ later,
         expired_query later s = true ↔ OldSub.expires_at oldSub < later).
Proof.
  cbv zeta. unfold newSubscription. split.
  - intros Hle.
    assert ((now <? OldSub.expires_at oldSub) = false) as ->
      by (apply Z.ltb_ge; exact Hle).
    split; [reflexivity|]. split; [reflexivity|].
    intros env later u.
    unfold expired_query, warning_query, missed_warning_query, renewable.
    simpl. rewrite andb_false_r. auto.
  - intros Hlt.
    assert ((now <? OldSub.expires_at oldSub) = true) as ->
      by (apply Z.ltb_lt; exact Hlt).
    split; [reflexivity|]. split; [reflexivity|].
    split; [reflexivity|]. split; [reflexivity|].
    intros later. rewrite expired_query_spec. simpl. tauto.
Qed.

Lemma migrated_subscription_and_sweeps_witness :
  let old := OldSub.mk "basic" None (Some "role-1"%string)
               (ex_midnight - ms_per_day) None None None None in
  let s := newSubscription ex_midnight "u1" old in
  Sub.title s = "Migrated Subscription"%string
  ∧ Sub.status s = Expired
  ∧ Sub.expired_at s = Some (ex_midnight - ms_per_day)
  ∧ ∀ env later u,
      expired_query later s = false
      ∧ warning_query env later s = false
      ∧ missed_warning_query later s = false
      ∧ renewable u later s = false.
Proof.
  split; [reflexivity|].
  apply (proj1 (migrated_subscription_and_sweeps ex_midnight "u1"
                  (OldSub.mk "basic" None (Some "role-1"%string)
                     (ex_midnight - ms_per_day) None None None None))).
  vm_compute. discriminate.
Defined.
